(** * Markdown converter: diagram extraction, rewriting and job tracking

    A shallow embedding of [src/server.js]: the job registry behind the
    server-sent progress events ([initJob], [updateProgress], [completeJob],
    the [/progress/:jobId] endpoint), the Mermaid pass
    ([processMermaidDiagrams]) and the [/convert] request handler, followed
    by the properties the specification states about them. *)

From Stdlib Require Import ZArith QArith Qround Lia Bool.
From stdpp Require Import gmap strings list fin_maps pretty sorting.

Open Scope Z_scope.

(** ** Text

    A JavaScript string is a sequence of UTF-16 code units.  Offsets
    ([match.index], [substring], [length]) count code units, so document text
    is a list of code units. *)

Definition unit16 := N.
Abbreviation text := (list N).

(** ASCII literals, for the constants of the source. *)
Definition units (s : string) : text :=
  (λ a, Ascii.N_of_ascii a) <$> String.list_ascii_of_string s.

Definition LF : unit16 := 10%N.
Definition BACKTICK : unit16 := 96%N.

(** [s.substring(a)] and [s.substring(0, b)] for non-negative offsets are
    [drop a s] and [take b s]: both clamp to the length of the string. *)
Definition substring_from (a : nat) (s : text) : text := drop a s.
Definition substring_to (b : nat) (s : text) : text := take b s.

(** WhiteSpace and LineTerminator code points of ECMAScript, the characters
    [String.prototype.trim] strips. *)
Definition is_ws (c : unit16) : bool :=
  ((9 <=? c) && (c <=? 13) || (c =? 32) || (c =? 160) || (c =? 5760)
   || (8192 <=? c) && (c <=? 8202) || (c =? 8232) || (c =? 8233)
   || (c =? 8239) || (c =? 8287) || (c =? 12288) || (c =? 65279))%N.

Fixpoint trimStart (s : text) : text :=
  match s with
  | c :: s' => if is_ws c then trimStart s' else s
  | [] => []
  end.

Definition trimEnd (s : text) : text := reverse (trimStart (reverse s)).

Definition trim (s : text) : text := trimEnd (trimStart s).

(** ** The diagram extractor

    [const mermaidRegex = /```mermaid\n([\s\S]*?)```/g]

    The pattern is the literal opening line, a lazy run of arbitrary code
    units (the capture group) and the literal closing fence. *)

Definition opener : text := units "```mermaid" ++ [LF].
Definition fence : text := units "```".

(** A literal matches at the head of [s]. *)
Fixpoint starts_with (p s : text) : bool :=
  match p, s with
  | [], _ => true
  | _ :: _, [] => false
  | a :: p', c :: s' => (a =? c)%N && starts_with p' s'
  end.

(** The lazy quantifier followed by a literal: the matcher extends the run one
    unit at a time and stops at the first offset where the literal matches. *)
Fixpoint find_first (p s : text) : option nat :=
  if starts_with p s then Some 0%nat
  else match s with
       | [] => None
       | _ :: s' => S <$> find_first p s'
       end.

(** A regular expression match: [m[0]], [m[1]] and [m.index]. *)
Record rmatch := { m_0 : text; m_1 : text; m_index : nat }.

(** The whole pattern anchored at the head of [s], which sits at offset [pos]
    of the document. *)
Definition match_here (s : text) (pos : nat) : option rmatch :=
  if starts_with opener s then
    let rest := drop (length opener) s in
    match find_first fence rest with
    | Some k =>
        Some {| m_0 := take (length opener + k + length fence) s;
                m_1 := take k rest;
                m_index := pos |}
    | None => None
    end
  else None.

(** The matcher tries every start offset from left to right. *)
Fixpoint search (s : text) (pos : nat) : option rmatch :=
  match match_here s pos with
  | Some m => Some m
  | None => match s with
            | [] => None
            | _ :: s' => search s' (S pos)
            end
  end.

(** [mermaidRegex.exec(markdownContent)] with the global flag: the search
    starts at [lastIndex]; a match moves [lastIndex] behind it. *)
Definition regex_exec (md : text) (lastIndex : nat) : option rmatch :=
  search (drop lastIndex md) lastIndex.

Record diagram := { original : text; code : text; index : nat }.

Definition diagram_of (m : rmatch) : diagram :=
  {| original := m_0 m; code := trim (m_1 m); index := m_index m |}.

(** [while ((match = mermaidRegex.exec(markdownContent)) !== null)
      diagrams.push({...})]

    Every match is at least as long as the two literals, so [lastIndex] grows
    strictly; [fuel] bounds the number of iterations. *)
Fixpoint exec_loop (fuel : nat) (md : text) (lastIndex : nat) : list diagram :=
  match fuel with
  | O => []
  | S fuel' =>
      match regex_exec md lastIndex with
      | Some m =>
          diagram_of m :: exec_loop fuel' md (m_index m + length (m_0 m))
      | None => []
      end
  end.

Definition extract (md : text) : list diagram :=
  exec_loop (S (length md)) md 0.

(** ** The job registry

    [const jobs = new Map()] maps a job id to a job object.  The timer
    callbacks of [completeJob] and the [close] handler of the progress
    endpoint keep the job object itself, not its id, so job objects live in a
    store of their own and the registry holds references to them. *)

Definition loc := nat.
Definition res := nat.

Inductive job_status := Pending | Done.

Record job := {
  progress : Z;
  message : string;
  subscribers : gset res;
  status : job_status
}.

(** What the server writes on an event stream: the reconnect hint
    [retry: 1500] and [data: {"progress":..,"message":..}]. *)
Inductive chunk :=
| Retry (ms : Z)
| Data (p : Z) (msg : string).

(** An HTTP response used as an event stream.  [broken] is set once the
    client is gone; [ended] once the server has called [res.end()]. *)
Record stream := { sent : list chunk; ended : bool; broken : bool }.

(** Callbacks registered with [setTimeout]. *)
Inductive task :=
| CloseSubscribers (j : loc) (jobId : string)
| DeleteJob (jobId : string).

Record state := {
  jobs : gmap string loc;
  objs : gmap loc job;
  streams : gmap res stream;
  timers : list (Z * task);
  now : Z
}.

Definition with_objs (o : gmap loc job) (s : state) : state :=
  {| jobs := jobs s; objs := o; streams := streams s;
     timers := timers s; now := now s |}.
Definition with_jobs (m : gmap string loc) (s : state) : state :=
  {| jobs := m; objs := objs s; streams := streams s;
     timers := timers s; now := now s |}.
Definition with_streams (c : gmap res stream) (s : state) : state :=
  {| jobs := jobs s; objs := objs s; streams := c;
     timers := timers s; now := now s |}.
Definition with_timers (t : list (Z * task)) (s : state) : state :=
  {| jobs := jobs s; objs := objs s; streams := streams s;
     timers := t; now := now s |}.
Definition with_now (t : Z) (s : state) : state :=
  {| jobs := jobs s; objs := objs s; streams := streams s;
     timers := timers s; now := t |}.

(** [!jobId] is false for [null], [undefined] and the empty string. *)
Definition truthy (x : option string) : bool :=
  match x with
  | Some v => negb (String.eqb v "")
  | None => false
  end.

(** [jobs.get(jobId)], dereferenced. *)
Definition get_job (jobId : string) (s : state) : option (loc * job) :=
  l ← jobs s !! jobId; j ← objs s !! l; Some (l, j).

(** [res.write(payload)]: throws on a stream that is gone. *)
Definition res_write (p : chunk) (c : stream) : option stream :=
  if ended c || broken c then None
  else Some {| sent := sent c ++ [p]; ended := ended c; broken := broken c |}.

(** [res.end()] *)
Definition res_end (c : stream) : option stream :=
  if broken c then None
  else Some {| sent := sent c; ended := true; broken := broken c |}.

(** [try { f(res) } catch (_) {}] on the stream behind [r]. *)
Definition swallow (f : stream → option stream) (r : res)
    (cs : gmap res stream) : gmap res stream :=
  match cs !! r with
  | Some c => match f c with Some c' => <[r := c']> cs | None => cs end
  | None => cs
  end.

(** [for (const res of job.subscribers) { try { f(res) } catch (_) {} }] *)
Definition for_subscribers (f : stream → option stream) (subs : gset res)
    (cs : gmap res stream) : gmap res stream :=
  foldr (swallow f) cs (elements subs).

Definition new_job : job :=
  {| progress := 0; message := "Starting"; subscribers := ∅;
     status := Pending |}.

Definition initJob (jobId : option string) (s : state) : option loc * state :=
  match jobId with
  | Some id =>
      if truthy jobId then
        match jobs s !! id with
        | Some l => (Some l, s)
        | None =>
            let l := fresh (dom (objs s)) in
            (Some l, with_jobs (<[id := l]> (jobs s))
                       (with_objs (<[l := new_job]> (objs s)) s))
        end
      else (None, s)
  | None => (None, s)
  end.

(** [Math.max(0, Math.min(100, Math.floor(progress)))] on a finite number. *)
Definition clamp (p : Q) : Z := Z.max 0 (Z.min 100 (Qfloor p)).

Definition updateProgress (jobId : option string) (p : Q)
    (msg : option string) (s : state) : state :=
  match jobId with
  | Some id =>
      if truthy jobId then
        match get_job id s with
        | Some (l, j) =>
            let j' := {| progress := clamp p;
                         message := if truthy msg then default "" msg
                                    else message j;
                         subscribers := subscribers j;
                         status := status j |} in
            let payload := Data (progress j') (message j') in
            with_streams
              (for_subscribers (res_write payload) (subscribers j') (streams s))
              (with_objs (<[l := j']> (objs s)) s)
        | None => s
        end
      else s
  | None => s
  end.

Definition set_status (st : job_status) (j : job) : job :=
  {| progress := progress j; message := message j;
     subscribers := subscribers j; status := st |}.

Definition set_subscribers (subs : gset res) (j : job) : job :=
  {| progress := progress j; message := message j;
     subscribers := subs; status := status j |}.

Definition setTimeout (k : task) (delay : Z) (s : state) : state :=
  with_timers (timers s ++ [(now s + delay, k)]) s.

Definition completeJob (jobId : option string) (s : state) : state :=
  match jobId with
  | Some id =>
      if truthy jobId then
        match get_job id s with
        | Some (l, j) =>
            let s1 := with_objs (<[l := set_status Done j]> (objs s)) s in
            let s2 := updateProgress jobId (inject_Z 100) (Some "Done"%string) s1 in
            setTimeout (CloseSubscribers l id) 250 s2
        | None => s
        end
      else s
  | None => s
  end.

(** The callbacks of [completeJob]. *)
Definition run_task (k : task) (s : state) : state :=
  match k with
  | CloseSubscribers l id =>
      match objs s !! l with
      | Some j =>
          let s1 := with_streams
                      (for_subscribers res_end (subscribers j) (streams s)) s in
          let s2 := with_objs (<[l := set_subscribers ∅ j]> (objs s1)) s1 in
          setTimeout (DeleteJob id) 60000 s2
      | None => s
      end
  | DeleteJob id => with_jobs (delete id (jobs s)) s
  end.

(** The event loop around the handlers: time passes, and a timer whose delay
    has elapsed runs its callback. *)
Inductive step : state → state → Prop :=
| step_tick s d :
    0 ≤ d → step s (with_now (now s + d) s)
| step_fire s pre t k post :
    timers s = pre ++ (t, k) :: post →
    t ≤ now s →
    step s (run_task k (with_timers (pre ++ post) s)).

Definition steps : state → state → Prop := rtc step.

(** [app.get('/progress/:jobId', ...)]: [r] is the response object of the
    request; the route parameter is never empty. *)
Definition progress_endpoint (jobId : string) (r : res) (s : state)
    : option state :=
  match initJob (Some jobId) s with
  | (Some l, s1) =>
      match objs s1 !! l with
      | Some j =>
          let c := {| sent := [Retry 1500; Data (progress j) (message j)];
                      ended := false; broken := false |} in
          Some (with_objs (<[l := set_subscribers ({[r]} ∪ subscribers j) j]>
                             (objs s1))
                  (with_streams (<[r := c]> (streams s1)) s1))
      | None => None
      end
  | (None, _) => None
  end.

(** [req.on('close', () => { job.subscribers.delete(res) })] *)
Definition on_close (l : loc) (r : res) (s : state) : state :=
  let cs := match streams s !! r with
            | Some c => <[r := {| sent := sent c; ended := ended c;
                                  broken := true |}]> (streams s)
            | None => streams s
            end in
  let os := match objs s !! l with
            | Some j => <[l := set_subscribers (subscribers j ∖ {[r]}) j]> (objs s)
            | None => objs s
            end in
  with_objs os (with_streams cs s).

Definition empty_state : state :=
  {| jobs := ∅; objs := ∅; streams := ∅; timers := []; now := 0 |}.

(** ** Handlers: state and exceptions

    A computation runs on the server state and either returns a value or
    throws an error with a message.  A handler is run from its first
    statement to its last: what other requests do to the state while it
    awaits a collaborator is not part of its model. *)

Inductive outcome (A : Type) :=
| Returns (a : A)
| Throws (msg : string).
Arguments Returns {A} a.
Arguments Throws {A} msg.

Definition M (A : Type) : Type := state → outcome A * state.

Definition ret {A} (a : A) : M A := λ s, (Returns a, s).

Definition bind {A B} (m : M A) (f : A → M B) : M B :=
  λ s, match m s with
       | (Returns a, s') => f a s'
       | (Throws e, s') => (Throws e, s')
       end.

(** [try { m } catch (error) { h(error) }] *)
Definition try_catch {A} (m : M A) (h : string → M A) : M A :=
  λ s, match m s with
       | (Returns a, s') => (Returns a, s')
       | (Throws e, s') => h e s'
       end.

(** [try { m } finally { f }] *)
Definition try_finally {A} (m : M A) (f : M unit) : M A :=
  λ s, match m s with
       | (Returns a, s') =>
           match f s' with
           | (Returns _, s'') => (Returns a, s'')
           | (Throws e, s'') => (Throws e, s'')
           end
       | (Throws e, s') =>
           match f s' with
           | (Returns _, s'') => (Throws e, s'')
           | (Throws e', s'') => (Throws e', s'')
           end
       end.

(** A state change that cannot throw. *)
Definition act (f : state → state) : M unit := λ s, (Returns tt, f s).

(** The result of awaiting an external collaborator. *)
Definition await {A} (o : outcome A) : M A := λ s, (o, s).

#[global] Instance M_ret : MRet M := @ret.
#[global] Instance M_bind : MBind M := λ A B f m, bind m f.

(** ** The external collaborators of one request

    Their results are not computed by the server; a request is run against an
    arbitrary assignment of results.  [renderMermaidToImage] is told the array
    position of the diagram it renders, so that two diagrams with the same
    code can have different outcomes. *)
Record collaborators := {
  readFile : string → outcome text;
  renderMermaidToImage : nat → text → outcome text;
  marked : text → outcome text;
  basename : string → string;
  html_page : string → text → text;
  pdf_page : string → text → text;
  docx_page : string → text → text;
  puppeteer_launch : outcome unit;
  page_setContent : text → outcome unit;
  page_pdf : text → outcome text;
  browser_close : outcome unit;
  HTMLtoDOCX : text → outcome text
}.

(** ** processMermaidDiagrams *)

Record options := { opt_jobId : option string; opt_start : Z; opt_end : Z }.

(** [const { jobId = null, start = 5, end = 60 } = opts] *)
Definition default_options : options :=
  {| opt_jobId := None; opt_start := 5; opt_end := 60 |}.

Definition imageTag (imageBase64 : text) : text :=
  units "![Mermaid Diagram](data:image/png;base64," ++ imageBase64 ++ units ")".

Definition rendered_message (k total : nat) : string :=
  "Rendered diagram " +:+ pretty k +:+ "/" +:+ pretty total.

(** The value handed to [updateProgress] after diagram [i] of [total]:
    [Math.min(start + Math.floor((span * (total - i)) / total), end)], on
    integers. *)
Definition rendered_progress (start end_ : Z) (total i : nat) : Z :=
  let span := Z.max 0 (end_ - start) in
  let current := start + (span * (Z.of_nat total - Z.of_nat i)) / Z.of_nat total in
  Z.min current end_.

(** One turn of [for (let i = diagrams.length - 1; i >= 0; i--)]. *)
Definition render_one (w : collaborators) (o : options) (total i : nat)
    (d : diagram) (processedContent : text) : M text :=
  try_catch
    (imageBase64 ← await (renderMermaidToImage w i (code d));
     let processedContent' :=
       substring_to (index d) processedContent
       ++ imageTag imageBase64
       ++ substring_from (index d + length (original d)) processedContent in
     (if (0 <? total)%nat then
        act (updateProgress (opt_jobId o)
               (inject_Z (rendered_progress (opt_start o) (opt_end o) total i))
               (Some (rendered_message (total - i) total)))
      else ret tt);;
     ret processedContent')
    (λ _, ret processedContent).

(** The loop, entered with [k = diagrams.length]; each turn handles
    [i = k - 1]. *)
Fixpoint render_loop (w : collaborators) (o : options)
    (diagrams : list diagram) (k : nat) (processedContent : text) : M text :=
  match k with
  | O => ret processedContent
  | S i =>
      match diagrams !! i with
      | Some d =>
          processedContent' ←
            render_one w o (length diagrams) i d processedContent;
          render_loop w o diagrams i processedContent'
      | None => render_loop w o diagrams i processedContent
      end
  end.

Definition processMermaidDiagrams (w : collaborators)
    (markdownContent : text) (format : string) (o : options) : M text :=
  let diagrams := extract markdownContent in
  if String.eqb format "html" then
    act (updateProgress (opt_jobId o) (inject_Z (opt_start o))
           (Some "Parsing markdown"%string));;
    ret markdownContent
  else
    render_loop w o diagrams (length diagrams) markdownContent.

(** ** The converters

    The page templates and the layout options (header text, alignment, page
    numbers, date) only shape the arguments of the external engines; they are
    folded into the collaborators. *)

Definition progress_msg (jobId : option string) (p : Z) (msg : string) : M unit :=
  act (updateProgress jobId (inject_Z p) (Some msg)).

Definition convertToHTML (w : collaborators) (markdownContent : text)
    (filename : string) (jobId : option string) : M text :=
  progress_msg jobId 1 "Starting";;
  processedContent ←
    processMermaidDiagrams w markdownContent "html"
      {| opt_jobId := jobId; opt_start := 5; opt_end := 40 |};
  htmlContent ← await (marked w processedContent);
  progress_msg jobId 80 "Generating HTML";;
  let fullHTML := html_page w filename htmlContent in
  progress_msg jobId 95 "Finalizing";;
  ret fullHTML.

Definition convertToPDF (w : collaborators) (markdownContent : text)
    (filename : string) (jobId : option string) : M text :=
  progress_msg jobId 1 "Starting";;
  processedContent ←
    processMermaidDiagrams w markdownContent "pdf"
      {| opt_jobId := jobId; opt_start := 5; opt_end := 60 |};
  htmlContent ← await (marked w processedContent);
  progress_msg jobId 70 "Preparing PDF";;
  let fullHTML := pdf_page w filename htmlContent in
  await (puppeteer_launch w);;
  try_finally
    (await (page_setContent w fullHTML);;
     progress_msg jobId 85 "Rendering PDF";;
     pdfBuffer ← await (page_pdf w fullHTML);
     progress_msg jobId 95 "Finalizing";;
     ret pdfBuffer)
    (await (browser_close w)).

Definition convertToDOCX (w : collaborators) (markdownContent : text)
    (filename : string) (jobId : option string) : M text :=
  progress_msg jobId 1 "Starting";;
  processedContent ←
    processMermaidDiagrams w markdownContent "docx"
      {| opt_jobId := jobId; opt_start := 5; opt_end := 60 |};
  htmlContent ← await (marked w processedContent);
  progress_msg jobId 70 "Preparing DOCX";;
  let fullHTML := docx_page w filename htmlContent in
  docxBuffer ← await (HTMLtoDOCX w fullHTML);
  progress_msg jobId 95 "Finalizing";;
  ret docxBuffer.

(** ** POST /convert *)

Record upload := { originalname : string; path : string }.

Record request := {
  file : option upload;
  body_format : string;
  body_jobId : option string
}.

Inductive response :=
| Json (code : Z) (error : string)
| Attachment (contentType : string) (filename : string) (body : text).

(** [req.body.jobId || null] *)
Definition or_null (x : option string) : option string :=
  if truthy x then x else None.

Definition supported (format : string) : bool :=
  String.eqb format "html" || String.eqb format "pdf" || String.eqb format "docx".

Definition convert_handler (w : collaborators) (req : request) : M response :=
  try_catch
    (match file req with
     | None => ret (Json 400 "No file uploaded")
     | Some f =>
         let format := body_format req in
         let jobId := or_null (body_jobId req) in
         (if truthy jobId then
            act (λ s, (initJob jobId s).2);;
            progress_msg jobId 1 "Upload received"
          else ret tt);;
         if negb (supported format) then ret (Json 400 "Invalid format")
         else
           markdownContent ← await (readFile w (path f));
           progress_msg jobId 5 "Reading file";;
           let baseFilename := basename w (originalname f) in
           '(result, contentType, fileExtension) ←
             (if String.eqb format "html" then
                result ← convertToHTML w markdownContent baseFilename jobId;
                ret (result, "text/html", "html")
              else if String.eqb format "pdf" then
                result ← convertToPDF w markdownContent baseFilename jobId;
                ret (result, "application/pdf", "pdf")
              else
                result ← convertToDOCX w markdownContent baseFilename jobId;
                ret (result,
                     "application/vnd.openxmlformats-officedocument.wordprocessingml.document",
                     "docx"))%string;
           let sent_file :=
             Attachment contentType (baseFilename +:+ "." +:+ fileExtension)
               result in
           act (completeJob jobId);;
           ret sent_file
     end)
    (λ error,
       let jobId := body_jobId req in
       progress_msg jobId 100 "Error";;
       ret (Json 500 ("Conversion failed: " +:+ error))).

(** ** The header of the PDF and DOCX output

    [const headerText = (req.body.headerText || '').toString().slice(0, 200)]
    in the handler, and in both converters
    [headerText ? headerText.replace(/</g, '&lt;').replace(/>/g, '&gt;')
                : filename]. *)

(** [s.replace(/c/g, by)] for one code unit [c] and a replacement that holds
    no dollar sign. *)
Fixpoint replace_all (c : unit16) (by_ : text) (s : text) : text :=
  match s with
  | [] => []
  | x :: s' => (if (x =? c)%N then by_ else [x]) ++ replace_all c by_ s'
  end.

Definition LT : unit16 := 60%N.
Definition GT : unit16 := 62%N.

Definition escape_angles (s : text) : text :=
  replace_all GT (units "&gt;") (replace_all LT (units "&lt;") s).

(** The field of the request: absent, or a string. *)
Definition parse_headerText (x : option text) : text :=
  take 200 (default [] x).

Definition headerStr (headerText filename : text) : text :=
  match headerText with
  | [] => filename
  | _ :: _ => escape_angles headerText
  end.

(** * Vocabulary of the specification

    The notions the properties below are stated with.  None of them is used
    by the code above. *)

(** The occurrences lie in [md] from offset [cur] on, in ascending order and
    without overlap, and each [original] is the text of its span. *)
Fixpoint spans_from (md : text) (cur : nat) (ds : list diagram) : Prop :=
  match ds with
  | [] => True
  | d :: ds' =>
      (cur ≤ index d)%nat
      ∧ (index d + length (original d) ≤ length md)%nat
      ∧ original d = take (length (original d)) (drop (index d) md)
      ∧ spans_from md (index d + length (original d)) ds'
  end.

(** The offset behind the last span. *)
Definition end_of (cur : nat) (ds : list diagram) : nat :=
  foldl (λ _ d, (index d + length (original d))%nat) cur ds.

(** The text outside the spans: what precedes the first span, what lies
    between two consecutive spans, and what follows the last one. *)
Fixpoint outside (md : text) (cur : nat) (ds : list diagram) : list text :=
  match ds with
  | [] => [drop cur md]
  | d :: ds' =>
      take (index d - cur) (drop cur md)
      :: outside md (index d + length (original d)) ds'
  end.

(** A document put together from the text outside the spans and one filling
    per span. *)
Fixpoint interleave (gaps fills : list text) : text :=
  match gaps, fills with
  | g :: gaps', f :: fills' => g ++ f ++ interleave gaps' fills'
  | g :: _, [] => g
  | [], _ => []
  end.

(** What stands for diagram [i] in the rewritten document: the image
    reference when its render succeeds, its own fenced block when not. *)
Definition replacement (w : collaborators) (i : nat) (d : diagram) : text :=
  match renderMermaidToImage w i (code d) with
  | Returns imageBase64 => imageTag imageBase64
  | Throws _ => original d
  end.

(** What a stream holds after a write or an end that may have thrown. *)
Definition attempted (f : stream → option stream) (c : stream) : stream :=
  default c (f c).

(** The document of the two-diagram scenario:
    [A ```mermaid\nX\n``` B ```mermaid\nY\n``` C]. *)
Definition two_diagrams : text :=
  units "A " ++ opener ++ units "X" ++ [LF] ++ fence ++ units " B "
  ++ opener ++ units "Y" ++ [LF] ++ fence ++ units " C".

(** A document with fenced diagram blocks, given by the text before each
    block and the interior of the block, and by the text behind the last
    block. *)
Fixpoint document (fs : list (text * text)) (tl : text) : text :=
  match fs with
  | [] => tl
  | (g, b) :: fs' => g ++ opener ++ b ++ fence ++ document fs' tl
  end.

(** The occurrences such a document is expected to yield, the first block
    being preceded by [cur] code units. *)
Fixpoint occurrences (cur : nat) (fs : list (text * text)) : list diagram :=
  match fs with
  | [] => []
  | (g, b) :: fs' =>
      {| original := opener ++ b ++ fence;
         code := trim b;
         index := cur + length g |}
      :: occurrences (cur + length g + length (opener ++ b ++ fence)) fs'
  end.

(** The literal [p] does not occur in [s]. *)
Definition free_of (p s : text) : Prop := find_first p s = None.

(** The fence that closes a block is the first one behind its opening line:
    the interior holds no fence, also not together with the first backticks
    of the closing one. *)
Definition closed_interior (b : text) : Prop :=
  find_first fence (b ++ fence) = Some (length b).

(** The blocks are the only diagram openings of the document. *)
Definition well_fenced (fs : list (text * text)) : Prop :=
  Forall (λ f, free_of opener f.1 ∧ closed_interior f.2) fs.

(** The message a job holds after an update: the new one if there is one and
    it is not empty, the one it had otherwise. *)
Definition new_message (msg : option string) (old : string) : string :=
  match msg with
  | Some m => if decide (m = ""%string) then old else m
  | None => old
  end.

(** A stream the server has not ended and the client has not left. *)
Definition live (c : stream) : Prop := ended c = false ∧ broken c = false.

(** The stream after one more chunk. *)
Definition push (k : chunk) (c : stream) : stream :=
  {| sent := sent c ++ [k]; ended := ended c; broken := broken c |}.

(** The job [jobId] names. *)
Definition registered (s : state) (jobId : string) (l : loc) (j : job) : Prop :=
  jobs s !! jobId = Some l ∧ objs s !! l = Some j.

(** The progress the specification gives to [k] of [n] diagrams over the
    range from [start] to [end_]:
    [start + floor((end_ - start) * k / n)], capped at [end_]. *)
Definition claimed_progress (start end_ : Z) (k n : nat) : Z :=
  Z.min (start + ((end_ - start) * Z.of_nat k) / Z.of_nat n) end_.

(** The render of diagram [i] succeeds. *)
Definition succeeds (w : collaborators) (i : nat) (d : diagram) : bool :=
  match renderMermaidToImage w i (code d) with
  | Returns _ => true
  | Throws _ => false
  end.

(** The number of diagrams from position [i] on whose render succeeds: the
    diagrams rendered so far when the loop, which runs from the last
    diagram to the first, has dealt with diagram [i]. *)
Definition rendered_so_far (w : collaborators) (ds : list diagram) (i : nat)
    : nat :=
  length (filter (λ x, succeeds w x.1 x.2 = true) (drop i (imap pair ds))).

(** The update diagram [i] gives rise to: none if its render throws. *)
Definition rendered_update (w : collaborators) (o : options)
    (ds : list diagram) (i : nat) : option (Z * string) :=
  d ← ds !! i;
  match renderMermaidToImage w i (code d) with
  | Returns _ =>
      Some (claimed_progress (opt_start o) (opt_end o)
              (length ds - i) (length ds),
            rendered_message (length ds - i) (length ds))
  | Throws _ => None
  end.

(** The updates of the rendering phase, in the order they are made: from the
    last diagram to the first. *)
Definition rendered_updates (w : collaborators) (o : options)
    (ds : list diagram) : list (Z * string) :=
  omap (rendered_update w o ds) (reverse (seq 0 (length ds))).

Definition apply_updates (jobId : option string) (us : list (Z * string))
    (s : state) : state :=
  foldl (λ s u, updateProgress jobId (inject_Z u.1) (Some u.2) s) s us.

(** ** Sample inputs

    Collaborators that do as little as possible, with the renders that throw
    given by [fails]; and a state with one job, ["j1"], that one client
    (response 7) listens to. *)
Definition sample_world (doc : text) (fails : nat → bool) : collaborators :=
  {| readFile := λ _, Returns doc;
     renderMermaidToImage :=
       λ i _, if fails i then Throws "render timeout" else Returns (units "iVBOR");
     marked := λ t, Returns t;
     basename := λ n, n;
     html_page := λ _ t, t;
     pdf_page := λ _ t, t;
     docx_page := λ _ t, t;
     puppeteer_launch := Returns tt;
     page_setContent := λ _, Returns tt;
     page_pdf := λ t, Returns t;
     browser_close := Returns tt;
     HTMLtoDOCX := λ _, Throws "docx engine" |}.

Definition sample_state : state :=
  default empty_state (progress_endpoint "j1" 7%nat empty_state).

Definition sample_options : options :=
  {| opt_jobId := Some "j1"%string; opt_start := 5; opt_end := 60 |}.

(** The renders of the two-diagram document with the last diagram failing. *)
Definition last_fails : collaborators :=
  sample_world two_diagrams (λ i, Nat.eqb i 1).

(** The updates of the rendering phase if progress went by the number of
    diagrams rendered so far. *)
Definition claimed_update (w : collaborators) (o : options)
    (ds : list diagram) (i : nat) : option (Z * string) :=
  d ← ds !! i;
  if succeeds w i d then
    Some (claimed_progress (opt_start o) (opt_end o)
            (rendered_so_far w ds i) (length ds),
          rendered_message (length ds - i) (length ds))
  else None.

Definition claimed_updates (w : collaborators) (o : options)
    (ds : list diagram) : list (Z * string) :=
  omap (claimed_update w o ds) (reverse (seq 0 (length ds))).

(** ** What the tracker leaves alone

    [calm s s'] holds when, from [s] to [s'], no callback was registered, no
    job left the registry, no job changed its status or its subscribers and
    no stream was ended or broken. *)
Definition calm (s s' : state) : Prop :=
  timers s' = timers s
  ∧ now s' = now s
  ∧ (∀ id l, jobs s !! id = Some l → jobs s' !! id = Some l)
  ∧ (∀ l j, objs s !! l = Some j →
            ∃ j', objs s' !! l = Some j'
                  ∧ status j' = status j ∧ subscribers j' = subscribers j)
  ∧ (∀ r c, streams s !! r = Some c →
            ∃ c', streams s' !! r = Some c'
                  ∧ ended c' = ended c ∧ broken c' = broken c).

(** A computation that is calm however it ends. *)
Definition calmly {A} (m : M A) : Prop := ∀ s, calm s (m s).2.

(** A computation that has been calm when it throws. *)
Definition calm_throw {A} (m : M A) : Prop :=
  ∀ s e s', m s = (Throws e, s') → calm s s'.

(** A handler part that does not answer with status 500. *)
Definition never_500 (m : M response) : Prop :=
  ∀ s r s', m s = (Returns r, s') → ∀ msg, r ≠ Json 500 msg.

(** A pending callback that does not concern the job [id] at [l] with the
    subscribers [subs]: it ends the streams of another job, none of them the
    stream of one of these subscribers, or it evicts another job. *)
Definition foreign (s : state) (id : string) (l : loc) (subs : gset res)
    (k : task) : Prop :=
  match k with
  | CloseSubscribers l' id' =>
      l' ≠ l ∧ id' ≠ id
      ∧ ∀ j', objs s !! l' = Some j' → subscribers j' ## subs
  | DeleteJob id' => id' ≠ id
  end.

(** No pending callback concerns the job: it has not been completed before
    (an id is used for one conversion), and a response is subscribed to one
    job. The callbacks of other jobs may be pending. *)
Definition quiet (s : state) (id : string) (l : loc) (subs : gset res)
    : Prop :=
  Forall (λ tk, foreign s id l subs tk.2) (timers s).

(** The callbacks pending after [completeJob] at time [t0]: those of other
    jobs, the one that ends the streams of this job, due 250 ms after the
    call, and, once that one has run, the one that evicts the job, due
    60000 ms after it ran. *)
Definition on_schedule (s : state) (t0 : Z) (id : string) (l : loc)
    (subs : gset res) (tk : Z * task) : Prop :=
  foreign s id l subs tk.2
  ∨ tk = (t0 + 250, CloseSubscribers l id)
  ∨ ∃ t, tk = (t, DeleteJob id) ∧ t0 + 250 + 60000 ≤ t.

(** The state of the event loop after [completeJob] at time [t0] left the
    state [s1] with the job [j1]: before the first delay has passed the job
    and the streams of its subscribers are as the call left them; before the
    second has passed the job is in the registry. *)
Definition timeline (s1 : state) (t0 : Z) (id : string) (l : loc) (j1 : job)
    (s : state) : Prop :=
  Forall (on_schedule s t0 id l (subscribers j1)) (timers s)
  ∧ (now s < t0 + 250 →
     registered s id l j1
     ∧ ∀ r, r ∈ subscribers j1 → streams s !! r = streams s1 !! r)
  ∧ (now s < t0 + 250 + 60000 → jobs s !! id = Some l).

(** A request with an uploaded file, a job id and a format the server does
    not know. *)
Definition invalid_format_request : request :=
  {| file := Some {| originalname := "notes.md";
                     path := "uploads/1-notes.md" |};
     body_format := "txt";
     body_jobId := Some "j1"%string |}.

(** What there is to see of a job. *)
Definition job_view (jobId : string) (s : state)
    : option (Z * string * list res * job_status) :=
  '(_, j) ← get_job jobId s;
  Some (progress j, message j, elements (subscribers j), status j).

(** The renders of the two-diagram document with the first diagram
    failing. *)
Definition first_fails : collaborators :=
  sample_world two_diagrams (λ i, Nat.eqb i 0).

(** A request for a DOCX file; the DOCX engine of [sample_world] throws. *)
Definition docx_request : request :=
  {| file := Some {| originalname := "notes.md";
                     path := "uploads/1-notes.md" |};
     body_format := "docx";
     body_jobId := Some "j1"%string |}.

(** The job of [sample_state]. *)
Definition sample_job : job :=
  {| progress := 0; message := "Starting"; subscribers := {[7%nat]};
     status := Pending |}.

(** Two fenced blocks and an opening line that is never closed. *)
Definition sample_blocks : list (text * text) :=
  [(units "A ", units "X" ++ [LF]); (units " B ", units "  Y " ++ [LF])].

Definition sample_tail : text := units " C " ++ opener ++ units "graph TD".

(** ** Vocabulary of the further properties *)

(** An event carries a percentage. *)
Definition chunk_in_range (k : chunk) : Prop :=
  match k with
  | Data p _ => 0 ≤ p ≤ 100
  | Retry _ => True
  end.

(** Every registry entry names a job object, every job holds a percentage,
    and every event written so far carried one. *)
Definition consistent (s : state) : Prop :=
  (∀ id l, jobs s !! id = Some l → is_Some (objs s !! l))
  ∧ (∀ l j, objs s !! l = Some j → 0 ≤ progress j ≤ 100)
  ∧ (∀ r c, streams s !! r = Some c → Forall chunk_in_range (sent c)).

(** The states the server gets into: clients subscribe and leave, requests
    are converted, time passes and callbacks run. *)
Inductive reachable : state → Prop :=
| reach_start : reachable empty_state
| reach_subscribe s jobId r s' :
    reachable s → progress_endpoint jobId r s = Some s' → reachable s'
| reach_close s l r :
    reachable s → reachable (on_close l r s)
| reach_convert s w req :
    reachable s → reachable (convert_handler w req s).2
| reach_step s s' :
    reachable s → step s s' → reachable s'.

(** A computation that keeps a property of the state, however it ends. *)
Definition keeps (P : state → Prop) {A} (m : M A) : Prop :=
  ∀ s, P s → P (m s).2.

(** A computation that leaves the state as it found it. *)
Definition idle {A} (m : M A) : Prop := ∀ s, (m s).2 = s.

(** Two computations that end the same way from any two states. *)
Definition same_result {A} (m m' : M A) : Prop :=
  ∀ s s', (m s).1 = (m' s').1.

(** [contentType] by format, as the [switch] of the handler sets it. *)
Definition content_type (format : string) : string :=
  if String.eqb format "html" then "text/html"
  else if String.eqb format "pdf" then "application/pdf"
  else "application/vnd.openxmlformats-officedocument.wordprocessingml.document".

(** The events a list of updates stands for. *)
Definition events_of (us : list (Z * string)) : list chunk :=
  (λ u, Data u.1 u.2) <$> us.

(** The updates of a conversion to PDF that succeeds, up to completion. *)
Definition pdf_curve (w : collaborators) (jobId : option string) (md : text)
    : list (Z * string) :=
  [(1, "Upload received"); (5, "Reading file"); (1, "Starting")]%string
  ++ rendered_updates w {| opt_jobId := jobId; opt_start := 5; opt_end := 60 |}
       (extract md)
  ++ [(70, "Preparing PDF"); (85, "Rendering PDF"); (95, "Finalizing")]%string.

(** The converter the [switch] of the handler picks for a supported
    format, and the file extension it sets. *)
Definition converter (w : collaborators) (format : string) (md : text)
    (filename : string) (jobId : option string) : M text :=
  if String.eqb format "html" then convertToHTML w md filename jobId
  else if String.eqb format "pdf" then convertToPDF w md filename jobId
  else convertToDOCX w md filename jobId.

Definition file_extension (format : string) : string :=
  if String.eqb format "html" then "html"
  else if String.eqb format "pdf" then "pdf"
  else "docx".

(** The state once the handler has acknowledged the upload. *)
Definition upload_received (jobId : option string) (s : state) : state :=
  if truthy jobId
  then updateProgress jobId (inject_Z 1) (Some "Upload received"%string)
         (initJob jobId s).2
  else s.


(** The updates of a conversion to HTML that succeeds, up to completion. *)
Definition html_curve : list (Z * string) :=
  [(1, "Upload received"); (5, "Reading file"); (1, "Starting");
   (5, "Parsing markdown"); (80, "Generating HTML"); (95, "Finalizing")]%string.

(** The progress values of the data events of a stream, in order. *)
Definition progress_values (cs : list chunk) : list Z :=
  omap (λ k, match k with Data p _ => Some p | Retry _ => None end) cs.

(** A conversion to PDF of a document with two diagrams. *)
Definition pdf_request : request :=
  {| file := Some {| originalname := "notes.md";
                     path := "uploads/1-notes.md" |};
     body_format := "pdf";
     body_jobId := Some "j1"%string |}.

Definition html_request : request :=
  {| file := Some {| originalname := "notes.md";
                     path := "uploads/1-notes.md" |};
     body_format := "html";
     body_jobId := Some "j1"%string |}.

Definition sample_upload : upload :=
  {| originalname := "notes.md"; path := "uploads/1-notes.md" |}.

(** The two occurrences of [two_diagrams]. *)
Definition first_diagram : diagram :=
  {| original := opener ++ units "X" ++ [LF] ++ fence;
     code := units "X"; index := 2 |}.
Definition second_diagram : diagram :=
  {| original := opener ++ units "Y" ++ [LF] ++ fence;
     code := units "Y"; index := 21 |}.

(** All renders fail. *)
Definition all_fail : collaborators := sample_world two_diagrams (λ _, true).

(** [two_diagrams] after the rewriting in which the first render fails. *)
Definition sample_rewritten : text :=
  units "A " ++ opener ++ units "X" ++ [LF] ++ fence
  ++ units " B " ++ imageTag (units "iVBOR") ++ units " C".

(** The stream of the subscriber of [sample_state]. *)
Definition sample_stream : stream :=
  {| sent := [Retry 1500; Data 0 "Starting"]; ended := false;
     broken := false |}.



(** What the escaping of a header text puts in the place of one code unit:
    the entity for an angle bracket, the code unit itself otherwise. *)
Definition escaped_unit (c : unit16) : text :=
  if (c =? 60)%N then units "&lt;"
  else if (c =? 62)%N then units "&gt;"
  else [c].

(** The code units that [String.prototype.trim] removes: the white space and
    the line terminators of ECMAScript. *)
Definition whitespace : list unit16 :=
  [9; 10; 11; 12; 13; 32; 160; 5760; 8192; 8193; 8194; 8195; 8196; 8197;
   8198; 8199; 8200; 8201; 8202; 8232; 8233; 8239; 8287; 12288; 65279]%N.

(** A fenced block of Markdown with the tag mermaid: the opening line, that
    is the three backticks, the tag and the line ending, the interior and
    the closing fence. A line ends in a line feed, or in a carriage return
    and a line feed in a file written on Windows. *)
Definition CR : unit16 := 13%N.
Definition line_endings : list text := [[LF]; [CR; LF]].
Definition mermaid_block (eol interior : text) : text :=
  units "```mermaid" ++ eol ++ interior ++ units "```".

(** One diagram in a document whose lines end in [eol]. *)
Definition one_diagram (eol : text) : text :=
  units "Intro" ++ eol ++ mermaid_block eol (units "graph TD" ++ eol) ++ eol.

(** The sample state with a second job, completed just now and subscribed to
    by another client: its callback is pending. *)
Definition other_job : job :=
  {| progress := 100; message := "Done"; subscribers := {[3%nat]};
     status := Done |}.
Definition busy_state : state :=
  completeJob (Some "j0"%string)
    (default sample_state (progress_endpoint "j0" 3%nat sample_state)).

(** The sample job is completed in the busy state; 250 ms later the
    callback of the other job has run. *)
Definition busy_later : state :=
  run_task (CloseSubscribers 1%nat "j0")
    (with_timers ([] ++ [(250, CloseSubscribers 0%nat "j1")])
       (with_now (now (completeJob (Some "j1"%string) busy_state) + 250)
          (completeJob (Some "j1"%string) busy_state))).

(** The conversion of the sample job to DOCX fails in the busy state;
    250 ms later the callback of the other job has run. *)
Definition failed_state : state :=
  (convert_handler first_fails docx_request busy_state).2.
Definition failed_later : state :=
  run_task (CloseSubscribers 1%nat "j0")
    (with_timers ([] ++ []) (with_now (now failed_state + 250) failed_state)).
Definition failed_job : job :=
  {| progress := 100; message := "Error"; subscribers := {[7%nat]};
     status := Pending |}.

(** ** One id per conversion

    The spec has the caller choose an id of its own for every conversion
    request. What follows from it: the callbacks pending belong to jobs
    whose conversion has been requested ([used] holds these ids), they name
    job objects that are there and that no other id is registered for, an
    object is registered for one id, and a response is subscribed to one
    job. *)
Definition owned (used : gset string) (s : state) (k : task) : Prop :=
  match k with
  | CloseSubscribers l' id' =>
      id' ∈ used ∧ is_Some (objs s !! l')
      ∧ ∀ id, id ∉ used → jobs s !! id ≠ Some l'
  | DeleteJob id' => id' ∈ used
  end.

Definition tidy (used : gset string) (s : state) : Prop :=
  Forall (λ tk, owned used s tk.2) (timers s)
  ∧ (∀ id l, jobs s !! id = Some l → is_Some (objs s !! l))
  ∧ (∀ id1 id2 l, jobs s !! id1 = Some l → jobs s !! id2 = Some l → id1 = id2)
  ∧ (∀ l1 l2 j1 j2 r, objs s !! l1 = Some j1 → objs s !! l2 = Some j2 →
       r ∈ subscribers j1 → r ∈ subscribers j2 → l1 = l2)
  ∧ (∀ l j r, objs s !! l = Some j → r ∈ subscribers j →
              is_Some (streams s !! r)).

(** The id a request asks a conversion for. *)
Definition requested (req : request) : gset string :=
  match body_jobId req with Some id => {[id]} | None => ∅ end.

(** The states of a server whose conversion requests each carry an id no
    earlier request carried, and whose subscriptions each come with a
    response of their own. *)
Inductive disciplined : gset string → state → Prop :=
| disc_start : disciplined ∅ empty_state
| disc_subscribe used s jobId r s' :
    disciplined used s → streams s !! r = None →
    progress_endpoint jobId r s = Some s' → disciplined used s'
| disc_close used s l r :
    disciplined used s → disciplined used (on_close l r s)
| disc_convert used s w req :
    disciplined used s →
    (∀ id, body_jobId req = Some id → id ∉ used) →
    disciplined (used ∪ requested req) (convert_handler w req s).2
| disc_step used s s' :
    disciplined used s → step s s' → disciplined used s'.

(** A predicate on states that [updateProgress] preserves is preserved by
    every part of a converter. *)
Definition update_stable (P : state → Prop) : Prop :=
  ∀ jobId p msg s, P s → P (updateProgress jobId p msg s).

(** * Properties *)

(** ** Literals and the lazy scan *)

Lemma starts_with_app (p r : text) : starts_with p (p ++ r) = true.
Proof.
  induction p as [|a p IH]; simpl; [done|].
  by rewrite N.eqb_refl, IH.
Qed.

Lemma starts_with_inv (p s : text) :
  starts_with p s = true → s = p ++ drop (length p) s.
Proof.
  revert s. induction p as [|a p IH]; intros [|c s]; simpl; try done.
  intros [Hac Hp]%andb_true_iff.
  apply N.eqb_eq in Hac as ->. f_equal. by apply IH.
Qed.

Lemma starts_with_length (p s : text) :
  starts_with p s = true → (length p ≤ length s)%nat.
Proof.
  intros H%starts_with_inv. rewrite H, length_app. lia.
Qed.

(** A literal that fits into [s] is not affected by what follows [s]. *)
Lemma starts_with_app_l (p s r : text) :
  (length p ≤ length s)%nat → starts_with p (s ++ r) = starts_with p s.
Proof.
  revert s. induction p as [|a p IH]; intros [|c s] Hlen; simpl in *;
    try done; try lia.
  rewrite IH; [done|lia].
Qed.

Lemma find_first_Some (p s : text) (k : nat) :
  find_first p s = Some k →
  starts_with p (drop k s) = true
  ∧ (k + length p ≤ length s)%nat
  ∧ ∀ j, (j < k)%nat → starts_with p (drop j s) = false.
Proof.
  revert k. induction s as [|c s IH]; intros k; simpl.
  - destruct (starts_with p []) eqn:Hp; [|done].
    intros [= <-]. split_and!; [done| |lia].
    apply starts_with_length in Hp. simpl in *. lia.
  - destruct (starts_with p (c :: s)) eqn:Hp.
    + intros [= <-]. split_and!; [done| |lia].
      apply starts_with_length in Hp. simpl in *. lia.
    + destruct (find_first p s) as [k'|] eqn:Hf; [|done].
      intros [= <-]. destruct (IH k' eq_refl) as (H1 & H2 & H3).
      split_and!; [done|simpl; lia|].
      intros [|j] Hj; simpl; [done|]. apply H3. lia.
Qed.

Lemma find_first_None (p s : text) (j : nat) :
  find_first p s = None → starts_with p (drop j s) = false.
Proof.
  revert j. induction s as [|c s IH]; intros j; simpl.
  - destruct (starts_with p []) eqn:Hp; [done|]. by rewrite drop_nil.
  - destruct (starts_with p (c :: s)) eqn:Hp; [done|].
    destruct (find_first p s) eqn:Hf; [done|]. intros _.
    destruct j as [|j]; simpl; [done|]. by apply IH.
Qed.

(** The first occurrence, characterised. *)
Lemma find_first_intro (p s : text) (k : nat) :
  starts_with p (drop k s) = true →
  (∀ j, (j < k)%nat → starts_with p (drop j s) = false) →
  find_first p s = Some k.
Proof.
  revert k. induction s as [|c s IH]; intros k Hk Hlt.
  - rewrite drop_nil in Hk. simpl. by rewrite Hk; destruct k;
      [|specialize (Hlt 0%nat ltac:(lia)); simpl in Hlt; congruence].
  - destruct k as [|k].
    + simpl in Hk |- *. by rewrite Hk.
    + pose proof (Hlt 0%nat ltac:(lia)) as H0. simpl in H0.
      simpl. rewrite H0. simpl in Hk.
      rewrite (IH k); [done|done|].
      intros j Hj. apply (Hlt (S j)). lia.
Qed.

(** ** Matches of the pattern *)

Lemma length_opener : length opener = 11%nat.
Proof. reflexivity. Qed.

Lemma length_fence : length fence = 3%nat.
Proof. reflexivity. Qed.

(** A match is the opening line, the captured run and the closing fence, and
    the closing fence is the first one behind the opening line. *)
Lemma match_here_Some (s : text) (pos : nat) (m : rmatch) :
  match_here s pos = Some m →
  m_index m = pos
  ∧ m_0 m = opener ++ m_1 m ++ fence
  ∧ s = m_0 m ++ drop (length (m_0 m)) s
  ∧ find_first fence (drop (length opener) s) = Some (length (m_1 m)).
Proof.
  unfold match_here. destruct (starts_with opener s) eqn:Hop; [|done].
  destruct (find_first fence (drop (length opener) s)) as [k|] eqn:Hf; [|done].
  intros Hm.
  assert (Hm' : m = {| m_0 := take (length opener + k + length fence) s;
                       m_1 := take k (drop (length opener) s);
                       m_index := pos |}) by congruence.
  subst m. clear Hm. cbn [m_0 m_1 m_index].
  apply starts_with_inv in Hop.
  destruct (find_first_Some _ _ _ Hf) as (Hk & Hlen & _).
  set (rest := drop (length opener) s) in *.
  apply starts_with_inv in Hk. rewrite drop_drop in Hk.
  assert (Hrest : rest = take k rest ++ fence ++ drop (k + length fence) rest).
  { rewrite <- (take_drop k rest) at 1. f_equal. exact Hk. }
  assert (Hk' : length (take k rest) = k) by (rewrite length_take; lia).
  assert (Hall : s = (opener ++ take k rest ++ fence)
                     ++ drop (k + length fence) rest).
  { rewrite Hop at 1. fold rest. rewrite Hrest at 1. by rewrite <- !app_assoc. }
  assert (H0 : take (length opener + k + length fence) s
               = opener ++ take k rest ++ fence).
  { rewrite Hall at 1. rewrite take_app_length'; [done|].
    rewrite !length_app, Hk'. lia. }
  rewrite H0. split_and!; [done|done| |by rewrite Hk'].
  rewrite Hall at 1. f_equal.
  rewrite Hall at 1. rewrite drop_app_length; done.
Qed.

Lemma match_here_nil (pos : nat) : match_here [] pos = None.
Proof. reflexivity. Qed.

Lemma search_Some (s : text) (pos : nat) (m : rmatch) :
  search s pos = Some m →
  ∃ d, m_index m = (pos + d)%nat
       ∧ match_here (drop d s) (pos + d) = Some m
       ∧ ∀ j, (j < d)%nat → match_here (drop j s) (pos + j) = None.
Proof.
  revert pos. induction s as [|c s IH]; intros pos.
  - cbn [search]. rewrite match_here_nil. done.
  - cbn [search]. destruct (match_here (c :: s) pos) as [m'|] eqn:Hm.
    + intros Hs. assert (m' = m) as -> by congruence.
      exists 0%nat. rewrite Nat.add_0_r.
      split_and!; [by apply match_here_Some in Hm as [? _]|done|lia].
    + intros (d & Hi & Hd & Hlt)%IH. exists (S d).
      replace (pos + S d)%nat with (S pos + d)%nat by lia.
      split_and!; [done|done|].
      intros [|j] Hj; cbn [drop]; [by rewrite Nat.add_0_r|].
      replace (pos + S j)%nat with (S pos + j)%nat by lia. apply Hlt. lia.
Qed.

Lemma search_None (s : text) (pos j : nat) :
  search s pos = None → match_here (drop j s) (pos + j) = None.
Proof.
  revert pos j. induction s as [|c s IH]; intros pos j.
  - intros _. rewrite drop_nil. apply match_here_nil.
  - cbn [search]. destruct (match_here (c :: s) pos) eqn:Hm; [done|].
    intros Hs. destruct j as [|j]; cbn [drop].
    + by rewrite Nat.add_0_r.
    + replace (pos + S j)%nat with (S pos + j)%nat by lia. by apply IH.
Qed.

(** What [exec] returns lies behind [lastIndex] and inside the document. *)
Lemma regex_exec_Some (md : text) (lastIndex : nat) (m : rmatch) :
  regex_exec md lastIndex = Some m →
  (lastIndex ≤ m_index m)%nat
  ∧ (m_index m + length (m_0 m) ≤ length md)%nat
  ∧ m_0 m = take (length (m_0 m)) (drop (m_index m) md)
  ∧ (length opener + length fence ≤ length (m_0 m))%nat.
Proof.
  unfold regex_exec. intros (d & Hi & Hm & _)%search_Some.
  rewrite drop_drop in Hm.
  destruct (match_here_Some _ _ _ Hm) as (_ & H0 & Hs & _).
  pose proof (f_equal length Hs) as Hlen.
  rewrite length_app, !length_drop in Hlen.
  assert (Hpos : (length opener + length fence ≤ length (m_0 m))%nat).
  { rewrite H0, !length_app. lia. }
  rewrite length_opener, length_fence in Hpos.
  split_and!; [lia|lia| |by rewrite length_opener, length_fence].
  rewrite Hi. rewrite Hs. by rewrite take_app_length.
Qed.

Lemma exec_loop_spans (fuel : nat) (md : text) (lastIndex : nat) :
  spans_from md lastIndex (exec_loop fuel md lastIndex).
Proof.
  revert lastIndex. induction fuel as [|fuel IH]; intros lastIndex; [done|].
  simpl. destruct (regex_exec md lastIndex) as [m|] eqn:Hm; [|done].
  destruct (regex_exec_Some _ _ _ Hm) as (H1 & H2 & H3 & _).
  simpl. split_and!; [done|done|done|apply IH].
Qed.

(** The loop ends by itself: more fuel than the document is long changes
    nothing. *)
Lemma exec_loop_fuel (md : text) (fuel fuel' lastIndex : nat) :
  (length md < fuel + lastIndex)%nat →
  (length md < fuel' + lastIndex)%nat →
  exec_loop fuel md lastIndex = exec_loop fuel' md lastIndex.
Proof.
  revert fuel' lastIndex.
  induction fuel as [|fuel IH]; intros fuel' lastIndex Hf Hf'.
  - destruct fuel' as [|fuel']; [done|]. simpl.
    unfold regex_exec. rewrite drop_ge by lia. done.
  - destruct fuel' as [|fuel'].
    + simpl. unfold regex_exec. rewrite drop_ge by lia. done.
    + simpl. destruct (regex_exec md lastIndex) as [m|] eqn:Hm; [|done].
      destruct (regex_exec_Some _ _ _ Hm) as (H1 & H2 & _ & H4).
      rewrite length_opener, length_fence in H4.
      f_equal. apply IH; lia.
Qed.

Lemma extract_spans (md : text) : spans_from md 0 (extract md).
Proof. apply exec_loop_spans. Qed.

(** ** Spans and the text around them *)

Lemma take_split (A : Type) (l : list A) (a b : nat) :
  (a ≤ b)%nat → take b l = take a l ++ take (b - a) (drop a l).
Proof.
  intros Hab. rewrite <- (take_drop a l) at 1.
  destruct (decide (a ≤ length l)%nat) as [Hl|Hl].
  - rewrite take_app_ge by (rewrite length_take; lia).
    rewrite length_take. by replace (a `min` length l)%nat with a by lia.
  - rewrite (drop_ge l a) by lia. rewrite take_nil, !app_nil_r.
    rewrite !take_ge; [done|lia|rewrite length_take; lia].
Qed.

Lemma end_of_snoc (cur : nat) (ds : list diagram) (d : diagram) :
  end_of cur (ds ++ [d]) = (index d + length (original d))%nat.
Proof. unfold end_of. by rewrite foldl_app. Qed.

Lemma spans_from_app (md : text) (cur : nat) (pre suf : list diagram) :
  spans_from md cur (pre ++ suf)
  ↔ spans_from md cur pre ∧ spans_from md (end_of cur pre) suf.
Proof.
  revert cur. induction pre as [|d pre IH]; intros cur; simpl.
  - tauto.
  - rewrite IH. unfold end_of. simpl. tauto.
Qed.

Lemma spans_from_end (md : text) (cur : nat) (ds : list diagram) :
  spans_from md cur ds → (cur ≤ length md)%nat →
  (cur ≤ end_of cur ds ≤ length md)%nat.
Proof.
  revert cur. induction ds as [|d ds IH]; intros cur; simpl.
  - unfold end_of. simpl. lia.
  - intros (H1 & H2 & _ & H4) Hc.
    specialize (IH _ H4 H2). unfold end_of in *. simpl. lia.
Qed.

(** A document is the text outside its spans with the fenced blocks in
    between. *)
Lemma interleave_original (md : text) (cur : nat) (ds : list diagram) :
  spans_from md cur ds →
  drop cur md = interleave (outside md cur ds) (original <$> ds).
Proof.
  revert cur. induction ds as [|d ds IH]; intros cur; [done|].
  intros (H1 & H2 & H3 & H4). rewrite fmap_cons. cbn [outside interleave].
  rewrite <- (IH _ H4).
  rewrite <- (take_drop (index d - cur) (drop cur md)) at 1.
  f_equal. rewrite drop_drop.
  replace (cur + (index d - cur))%nat with (index d) by lia.
  rewrite <- (take_drop (length (original d)) (drop (index d) md)) at 1.
  rewrite <- H3. by rewrite drop_drop.
Qed.

Lemma length_outside (md : text) (cur : nat) (ds : list diagram) :
  length (outside md cur ds) = S (length ds).
Proof.
  revert cur. induction ds as [|d ds IH]; intros cur; simpl; [done|].
  by rewrite IH.
Qed.

(** ** The rewriting loop *)

(** One turn: the document and the state it leaves. *)
Lemma render_one_run (w : collaborators) (o : options) (total i : nat)
    (d : diagram) (pc : text) (s : state) :
  render_one w o total i d pc s =
  match renderMermaidToImage w i (code d) with
  | Returns b =>
      (Returns (take (index d) pc ++ imageTag b
                ++ drop (index d + length (original d)) pc),
       if (0 <? total)%nat then
         updateProgress (opt_jobId o)
           (inject_Z (rendered_progress (opt_start o) (opt_end o) total i))
           (Some (rendered_message (total - i) total)) s
       else s)
  | Throws _ => (Returns pc, s)
  end.
Proof.
  unfold render_one, try_catch, mbind, M_bind, bind, await.
  destruct (renderMermaidToImage w i (code d)); [|done].
  by destruct (0 <? total)%nat.
Qed.

(** Whatever the render does, one turn puts [replacement] at the span and
    keeps the text before and behind it. *)
Lemma render_one_content (w : collaborators) (o : options) (total i : nat)
    (d : diagram) (md tl : text) (s : state) :
  (index d + length (original d) ≤ length md)%nat →
  original d = take (length (original d)) (drop (index d) md) →
  (render_one w o total i d
     (take (index d + length (original d)) md ++ tl) s).1
  = Returns (take (index d) md ++ replacement w i d ++ tl).
Proof.
  intros Hlen Horig. rewrite render_one_run. unfold replacement.
  set (e := (index d + length (original d))%nat) in *.
  assert (He : length (take e md) = e) by (rewrite length_take; lia).
  destruct (renderMermaidToImage w i (code d)) as [b|msg]; simpl.
  - f_equal. rewrite take_app_le by lia.
    rewrite take_take. replace (index d `min` e)%nat with (index d) by lia.
    f_equal. f_equal. by rewrite drop_app_length'.
  - f_equal. rewrite (take_split _ md (index d) e) by lia.
    replace (e - index d)%nat with (length (original d)) by lia.
    rewrite <- Horig. by rewrite <- app_assoc.
Qed.

Lemma render_loop_content (w : collaborators) (o : options) (md : text)
    (pre suf : list diagram) (s : state) :
  spans_from md 0 (pre ++ suf) →
  (render_loop w o (pre ++ suf) (length pre)
     (take (end_of 0 pre) md
      ++ interleave (outside md (end_of 0 pre) suf)
           (imap (λ i, replacement w (length pre + i)) suf)) s).1
  = Returns (interleave (outside md 0 (pre ++ suf))
               (imap (replacement w) (pre ++ suf))).
Proof.
  revert suf s. induction pre as [|d pre IH] using rev_ind; intros suf s Hsp.
  - done.
  - pose proof Hsp as Hsp'. rewrite <- app_assoc in Hsp'. simpl in Hsp'.
    apply spans_from_app in Hsp' as [Hpre Hd]. simpl in Hd.
    destruct Hd as (H1 & H2 & H3 & H4).
    rewrite length_app, Nat.add_1_r. cbn [render_loop].
    rewrite <- app_assoc. cbn [app].
    rewrite list_lookup_middle by done.
    rewrite end_of_snoc.
    unfold mbind, M_bind, bind.
    pose proof (render_one_content w o (length (pre ++ d :: suf))
                  (length pre) d md
                  (interleave (outside md (index d + length (original d)) suf)
                     (imap (λ i, replacement w (S (length pre) + i)) suf))
                  s H2 H3) as Hone.
    destruct (render_one _ _ _ _ _ _ s) as [[pc'|e] s'] eqn:Hr;
      simpl in Hone; [|done].
    injection Hone as ->.
    specialize (IH (d :: suf) s').
    rewrite <- IH by (by rewrite <- app_assoc in Hsp).
    f_equal. simpl.
    rewrite (take_split _ md (end_of 0 pre) (index d)) by done.
    rewrite <- !app_assoc. do 2 f_equal.
    rewrite Nat.add_0_r. do 3 f_equal.
    apply imap_ext. intros j x _. simpl. f_equal. lia.
Qed.

(** The loop over any list of occurrences that lie in the document in
    ascending order: the fenced blocks are exchanged for their replacements
    and nothing else moves. *)
Lemma render_loop_rewrites (w : collaborators) (o : options) (md : text)
    (ds : list diagram) (s : state) :
  spans_from md 0 ds →
  (render_loop w o ds (length ds) md s).1
  = Returns (interleave (outside md 0 ds) (imap (replacement w) ds)).
Proof.
  intros Hsp.
  pose proof (render_loop_content w o md ds [] s) as H.
  rewrite app_nil_r in H. simpl in H.
  rewrite take_drop in H. by apply H.
Qed.

Lemma render_loop_returns (w : collaborators) (o : options)
    (ds : list diagram) (k : nat) (pc : text) (s : state) :
  ∃ out s', render_loop w o ds k pc s = (Returns out, s').
Proof.
  revert pc s. induction k as [|i IH]; intros pc s; simpl.
  - by eexists _, _.
  - destruct (ds !! i) as [d|]; [|apply IH].
    unfold mbind, M_bind, bind. rewrite render_one_run.
    destruct (renderMermaidToImage w i (code d)); apply IH.
Qed.

Lemma interleave_split (gaps fills : list text) (i : nat) (f : text) :
  length gaps = S (length fills) →
  fills !! i = Some f →
  interleave gaps fills
  = interleave (take (S i) gaps) (take i fills) ++ f
    ++ interleave (drop (S i) gaps) (drop (S i) fills).
Proof.
  revert gaps fills. induction i as [|i IH]; intros [|g gaps] [|f0 fills];
    simpl; try done.
  - intros _ [= ->]. destruct gaps; simpl; by rewrite ?app_nil_r.
  - intros [= Hlen] Hf. rewrite (IH gaps fills Hlen Hf).
    by rewrite <- !app_assoc.
Qed.

(** C1.  For every document and every assignment of render outcomes, the
    document [processMermaidDiagrams] returns for a format other than HTML is
    the original with the same text outside the diagram spans, in between
    which a span holds the image reference if its render succeeded and its
    own fenced block if it failed. *)
Theorem rewrite_keeps_text_outside_spans (w : collaborators) (md : text)
    (format : string) (o : options) (s : state) :
  format ≠ "html"%string →
  let ds := extract md in
  let gaps := outside md 0 ds in
  length gaps = S (length ds)
  ∧ md = interleave gaps (original <$> ds)
  ∧ (processMermaidDiagrams w md format o s).1
    = Returns (interleave gaps (imap (replacement w) ds)).
Proof.
  intros Hfmt ds gaps. split_and!.
  - apply length_outside.
  - exact (interleave_original md 0 ds (extract_spans md)).
  - unfold processMermaidDiagrams.
    apply String.eqb_neq in Hfmt. rewrite Hfmt.
    apply render_loop_rewrites, extract_spans.
Qed.

Lemma extract_two_diagrams :
  extract two_diagrams
  = [ {| original := opener ++ units "X" ++ [LF] ++ fence;
         code := units "X"; index := 2 |};
      {| original := opener ++ units "Y" ++ [LF] ++ fence;
         code := units "Y"; index := 21 |} ].
Proof. vm_compute. reflexivity. Qed.

(** C3.  A render that throws leaves the fenced block of its diagram where
    it was, between the rewritten text before it and the rewritten text
    behind it; the image references of the diagrams that rendered are the
    same as without the failure; and the pass returns, it does not throw.
    For the document of the two-diagram scenario with the first render
    failing, the result is the document with the second block alone
    exchanged for its image reference. *)
Theorem failed_render_keeps_fenced_block (w : collaborators) (md : text)
    (format : string) (o : options) (s : state) :
  format ≠ "html"%string →
  let ds := extract md in
  let gaps := outside md 0 ds in
  let fills := imap (replacement w) ds in
  (∃ out s',
     processMermaidDiagrams w md format o s = (Returns out, s')
     ∧ out = interleave gaps fills
     ∧ ∀ i d e,
         ds !! i = Some d →
         renderMermaidToImage w i (code d) = Throws e →
         out = interleave (take (S i) gaps) (take i fills)
               ++ original d
               ++ interleave (drop (S i) gaps) (drop (S i) fills)
         ∧ md = interleave (take (S i) gaps) (take i (original <$> ds))
                ++ original d
                ++ interleave (drop (S i) gaps) (drop (S i) (original <$> ds))
         ∧ ∀ j d' b,
             j ≠ i → ds !! j = Some d' →
             renderMermaidToImage w j (code d') = Returns b →
             fills !! j = Some (imageTag b))
  ∧ (md = two_diagrams →
     ∀ e b,
       renderMermaidToImage w 0 (units "X") = Throws e →
       renderMermaidToImage w 1 (units "Y") = Returns b →
       (processMermaidDiagrams w md format o s).1
       = Returns (units "A " ++ opener ++ units "X" ++ [LF] ++ fence
                  ++ units " B " ++ imageTag b ++ units " C")).
Proof.
  intros Hfmt ds gaps fills.
  destruct (rewrite_keeps_text_outside_spans w md format o s Hfmt)
    as (Hlen & Hmd & Hout).
  fold ds gaps fills in Hlen, Hmd, Hout.
  split.
  - destruct (processMermaidDiagrams w md format o s) as [[out|msg] s'] eqn:Hp;
      simpl in Hout; [|done].
    injection Hout as ->. eexists _, s'. split_and!; [done|done|].
    intros i d e Hi Hthrow.
    assert (Hfill : fills !! i = Some (original d)).
    { unfold fills. rewrite list_lookup_imap, Hi. simpl.
      unfold replacement. by rewrite Hthrow. }
    split_and!.
    + apply interleave_split; [|done].
      unfold fills. by rewrite length_imap.
    + rewrite Hmd at 1. apply interleave_split.
      * by rewrite length_fmap.
      * by rewrite list_lookup_fmap, Hi.
    + intros j d' b _ Hj Hb. unfold fills.
      rewrite list_lookup_imap, Hj. simpl. unfold replacement. by rewrite Hb.
  - intros -> e b He Hb. rewrite Hout.
    unfold fills, gaps, ds. rewrite extract_two_diagrams.
    cbn [imap]. unfold replacement. cbn [code original compose].
    rewrite He, Hb. reflexivity.
Qed.

(** ** Extraction from a document with fenced blocks *)

Lemma opener_units : opener = [96; 96; 96; 109; 101; 114; 109; 97; 105; 100; 10]%N.
Proof. reflexivity. Qed.

Lemma fence_units : fence = [96; 96; 96]%N.
Proof. reflexivity. Qed.

Lemma find_first_app_stable (p s r : text) (k : nat) :
  find_first p s = Some k → find_first p (s ++ r) = Some k.
Proof.
  intros (Hk & Hlen & Hlt)%find_first_Some.
  apply find_first_intro.
  - rewrite drop_app_le by lia.
    rewrite starts_with_app_l; [done|]. rewrite length_drop. lia.
  - intros j Hj. rewrite drop_app_le by lia.
    rewrite starts_with_app_l; [by apply Hlt|]. rewrite length_drop. lia.
Qed.

Lemma free_of_drop (p s : text) (j : nat) : free_of p s → free_of p (drop j s).
Proof.
  unfold free_of. revert j. induction s as [|c s IH]; intros j Hs.
  - by rewrite drop_nil.
  - destruct j as [|j]; [done|]. simpl in *.
    destruct (starts_with p (c :: s)); [done|].
    destruct (find_first p s) eqn:Hf; [done|]. by apply IH.
Qed.

Lemma free_of_head (p s : text) : free_of p s → starts_with p s = false.
Proof. intros H. apply (find_first_None p s 0 H). Qed.

(** Decides a conjunction of comparisons of code units that holds a false
    comparison of two constants. *)
Ltac eqb_chain :=
  repeat match goal with
         | |- andb (N.eqb ?a ?b) _ = false =>
             tryif is_var b
             then (destruct (N.eqb a b); [cbn [andb]|reflexivity])
             else (let v := eval vm_compute in (N.eqb a b) in
                   change (N.eqb a b) with v; cbn [andb])
         end;
  try reflexivity.

(** The opening line does not overlap itself: an occurrence that begins in
    text free of it cannot run into a following opening line. *)
Lemma opener_no_overlap (g r : text) :
  free_of opener g → g ≠ [] → starts_with opener (g ++ opener ++ r) = false.
Proof.
  intros Hfree Hne.
  destruct (decide (length opener ≤ length g)%nat) as [Hlen|Hlen].
  - rewrite starts_with_app_l by done. by apply free_of_head.
  - rewrite length_opener in Hlen. clear Hfree. rewrite opener_units.
    destruct g as [|c0 g]; [done|]. clear Hne.
    do 10 (destruct g as [|? g]; [cbn [starts_with app]; eqb_chain|]).
    simpl in Hlen. lia.
Qed.

Lemma search_hit (s : text) (pos : nat) (m : rmatch) :
  match_here s pos = Some m → search s pos = Some m.
Proof. intros H. destruct s; cbn [search]; by rewrite H. Qed.

Lemma search_miss (c : unit16) (s : text) (pos : nat) :
  starts_with opener (c :: s) = false →
  search (c :: s) pos = search s (S pos).
Proof. intros H. cbn [search]. unfold match_here. by rewrite H. Qed.

(** The first match of a text that begins with free text and a fenced
    block is that block. *)
Lemma search_block (g b rest : text) (pos : nat) :
  free_of opener g → closed_interior b →
  search (g ++ opener ++ b ++ fence ++ rest) pos
  = Some {| m_0 := opener ++ b ++ fence; m_1 := b;
            m_index := pos + length g |}.
Proof.
  intros Hg Hb. revert pos. induction g as [|c g IH]; intros pos.
  - apply search_hit. unfold match_here. cbn [app].
    rewrite starts_with_app, drop_app_length.
    rewrite (app_assoc b fence rest).
    rewrite (find_first_app_stable _ _ rest _ Hb).
    rewrite <- (app_assoc b fence rest), (take_app_length b).
    cbn [length]. rewrite Nat.add_0_r. do 2 f_equal.
    rewrite (app_assoc b), (app_assoc opener).
    rewrite take_app_length'; [done|].
    rewrite !length_app. lia.
  - cbn [app]. rewrite search_miss.
    + rewrite IH by apply (free_of_drop opener (c :: g) 1 Hg).
      do 2 f_equal. simpl. lia.
    + apply (opener_no_overlap (c :: g) (b ++ fence ++ rest)); done.
Qed.

Lemma search_None_intro (s : text) (pos : nat) :
  (∀ j, starts_with opener (drop j s) = true →
        find_first fence (drop (length opener) (drop j s)) = None) →
  search s pos = None.
Proof.
  revert pos. induction s as [|c s IH]; intros pos H; [done|].
  cbn [search].
  assert (Hm : match_here (c :: s) pos = None).
  { unfold match_here. destruct (starts_with opener (c :: s)) eqn:Hs; [|done].
    pose proof (H 0%nat Hs) as H0. rewrite drop_0 in H0. by rewrite H0. }
  rewrite Hm. apply IH. intros j. apply (H (S j)).
Qed.

(** Text free of the opening line holds no match. *)
Lemma search_free (tl : text) (pos : nat) :
  free_of opener tl → search tl pos = None.
Proof.
  intros Hfree. apply search_None_intro. intros j Hj.
  by rewrite (free_of_head _ _ (free_of_drop _ _ j Hfree)) in Hj.
Qed.

Lemma starts_with_opener_fence (s : text) :
  starts_with opener s = true → starts_with fence s = true.
Proof. intros H%starts_with_inv. rewrite H. reflexivity. Qed.

(** An opening line with no fence behind it holds no match either. *)
Lemma search_dangling (g r : text) (pos : nat) :
  free_of opener g → free_of fence r →
  search (g ++ opener ++ r) pos = None.
Proof.
  intros Hg Hr. apply search_None_intro. intros j Hj.
  destruct (decide (j < length g)%nat) as [Hlt|Hge].
  - rewrite drop_app_le in Hj by lia.
    rewrite opener_no_overlap in Hj; [done|by apply free_of_drop|].
    intros Hnil%(f_equal length). rewrite length_drop in Hnil. simpl in Hnil. lia.
  - rewrite drop_app_ge in * by lia.
    set (j' := (j - length g)%nat) in *.
    destruct (decide (length opener ≤ j')%nat) as [Hlong|Hshort].
    + rewrite drop_app_ge in Hj by done.
      apply starts_with_opener_fence in Hj.
      by rewrite (free_of_head _ _ (free_of_drop _ _ _ Hr)) in Hj.
    + rewrite length_opener in Hshort.
      destruct j' as [|j'].
      * rewrite drop_0, drop_app_length. exact Hr.
      * exfalso. clear -Hj Hshort. rewrite opener_units in Hj.
        do 10 (destruct j' as [|j']; [simpl in Hj; done|]). lia.
Qed.

Lemma exec_loop_document (fs : list (text * text)) (tl : text) :
  well_fenced fs →
  (∀ pos, search tl pos = None) →
  ∀ (pre : text) (fuel : nat),
    (length (document fs tl) < fuel)%nat →
    exec_loop fuel (pre ++ document fs tl) (length pre)
    = occurrences (length pre) fs.
Proof.
  intros Hwf Htl. induction Hwf as [|[g b] fs [Hg Hb] Hwf IH];
    intros pre fuel Hfuel.
  - destruct fuel as [|fuel]; [simpl in Hfuel; lia|].
    cbn [exec_loop document occurrences]. unfold regex_exec.
    by rewrite drop_app_length, Htl.
  - destruct fuel as [|fuel]; [simpl in Hfuel; lia|].
    cbn [exec_loop document occurrences]. unfold regex_exec.
    rewrite drop_app_length. simpl in Hg, Hb.
    rewrite (search_block g b _ _ Hg Hb).
    cbn [m_index m_0 m_1]. unfold diagram_of at 1. cbn [m_index m_0 m_1].
    f_equal.
    specialize (IH (pre ++ g ++ opener ++ b ++ fence) fuel).
    replace (length (pre ++ g ++ opener ++ b ++ fence))
      with (length pre + length g + length (opener ++ b ++ fence))%nat in IH
      by (rewrite !length_app; lia).
    rewrite <- IH.
    + f_equal. by rewrite <- !app_assoc.
    + cbn [document] in Hfuel.
      rewrite !length_app, length_opener in Hfuel. lia.
Qed.

Lemma length_occurrences (cur : nat) (fs : list (text * text)) :
  length (occurrences cur fs) = length fs.
Proof.
  revert cur. induction fs as [|[g b] fs IH]; intros cur; simpl; [done|].
  by rewrite IH.
Qed.

Lemma occurrences_lookup (cur : nat) (fs : list (text * text)) (i : nat)
    (g b : text) :
  fs !! i = Some (g, b) →
  ∃ d, occurrences cur fs !! i = Some d
       ∧ original d = opener ++ b ++ fence ∧ code d = trim b.
Proof.
  revert cur i. induction fs as [|[g0 b0] fs IH]; intros cur [|i]; simpl;
    try done.
  - intros [= -> ->]. by eexists.
  - apply IH.
Qed.

(** Occurrences come in ascending order of their offsets and do not
    overlap, whatever the document. *)
Lemma spans_from_ascending (md : text) (cur : nat) (ds : list diagram)
    (i j : nat) (di dj : diagram) :
  spans_from md cur ds → (i < j)%nat →
  ds !! i = Some di → ds !! j = Some dj →
  (index di + length (original di) ≤ index dj)%nat.
Proof.
  revert cur i j. induction ds as [|d ds IH]; intros cur i j Hsp Hij Hi Hj;
    [done|].
  destruct Hsp as (H1 & H2 & H3 & H4).
  destruct j as [|j]; [lia|]. simpl in Hj.
  destruct i as [|i]; simpl in Hi.
  - injection Hi as <-. clear IH Hij. revert Hj H4.
    generalize (index d + length (original d))%nat. clear.
    revert j. induction ds as [|d' ds IH]; intros j c Hj Hsp; [done|].
    destruct Hsp as (H1 & H2 & H3 & H4).
    destruct j as [|j]; simpl in Hj.
    + injection Hj as <-. done.
    + specialize (IH _ _ Hj H4). lia.
  - apply (IH _ i j H4); [lia|done|done].
Qed.

Lemma exec_loop_original (fuel : nat) (md : text) (lastIndex : nat)
    (d : diagram) :
  d ∈ exec_loop fuel md lastIndex →
  (length opener + length fence ≤ length (original d))%nat.
Proof.
  revert lastIndex. induction fuel as [|fuel IH]; intros lastIndex; simpl.
  - by intros ?%elem_of_nil.
  - destruct (regex_exec md lastIndex) as [m|] eqn:Hm;
      [|by intros ?%elem_of_nil].
    intros [->|Hin]%elem_of_cons; [|by eapply IH].
    by apply regex_exec_Some in Hm as (_ & _ & _ & ?).
Qed.

Lemma extract_ascending (md : text) (i j : nat) (di dj : diagram) :
  (i < j)%nat → extract md !! i = Some di → extract md !! j = Some dj →
  (index di < index dj)%nat.
Proof.
  intros Hij Hi Hj.
  pose proof (spans_from_ascending md 0 _ i j di dj (extract_spans md)
                Hij Hi Hj) as Hle.
  assert (Hin : di ∈ extract md) by (by eapply list_elem_of_lookup_2).
  apply exec_loop_original in Hin.
  rewrite length_opener, length_fence in Hin. lia.
Qed.

(** [trim] takes away a run of white space at either end and nothing
    else. *)
Lemma trimStart_spec (s : text) :
  ∃ l, s = l ++ trimStart s
       ∧ Forall (λ c, is_ws c = true) l
       ∧ ∀ c, head (trimStart s) = Some c → is_ws c = false.
Proof.
  induction s as [|c s (l & Hs & Hl & Hh)]; simpl.
  - exists []. by split_and!.
  - destruct (is_ws c) eqn:Hc.
    + exists (c :: l). split_and!; [by rewrite Hs at 1|by constructor|done].
    + exists []. split_and!; [done|done|]. simpl. by intros ? [= <-].
Qed.

Lemma trim_spec (s : text) :
  ∃ l r, s = l ++ trim s ++ r
         ∧ Forall (λ c, is_ws c = true) l
         ∧ Forall (λ c, is_ws c = true) r
         ∧ (∀ c, last (trim s) = Some c → is_ws c = false)
         ∧ (trim s ≠ [] → ∀ c, head (trim s) = Some c → is_ws c = false).
Proof.
  destruct (trimStart_spec s) as (l & Hs & Hl & Hh).
  destruct (trimStart_spec (reverse (trimStart s))) as (r & Hr & Hrw & Hrh).
  exists l, (reverse r). unfold trim, trimEnd.
  set (t := trimStart s) in *. set (u := trimStart (reverse t)) in *.
  assert (Ht : t = reverse u ++ reverse r).
  { rewrite <- reverse_app, <- Hr. by rewrite reverse_involutive. }
  split_and!.
  - by rewrite <- Ht.
  - done.
  - by apply Forall_reverse.
  - intros c Hc. apply Hrh. by rewrite last_reverse in Hc.
  - intros Hne c Hc. apply Hh. rewrite Ht.
    destruct (reverse u) as [|x xs]; [done|]. simpl in *. done.
Qed.

(** An interior that holds no fence and does not end in a backtick is
    closed by the fence that follows it. *)
Lemma closed_interior_intro (b : text) :
  free_of fence b → last b ≠ Some BACKTICK → closed_interior b.
Proof.
  intros Hfree Hlast. apply find_first_intro.
  - rewrite drop_app_length. reflexivity.
  - intros j Hj. rewrite drop_app_le by lia.
    pose proof (free_of_drop _ _ j Hfree) as Ht.
    assert (Hl : last (drop j b) ≠ Some BACKTICK).
    { rewrite <- (take_drop j b) in Hlast.
      rewrite last_app in Hlast.
      destruct (last (drop j b)) as [c|] eqn:Hc; [done|].
      apply last_None in Hc. apply (f_equal length) in Hc.
      rewrite length_drop in Hc. simpl in Hc. lia. }
    destruct (drop j b) as [|c1 [|c2 [|c3 t]]] eqn:Hd.
    + apply (f_equal length) in Hd. rewrite length_drop in Hd.
      simpl in Hd. lia.
    + rewrite fence_units. cbn [starts_with app].
      destruct (96 =? c1)%N eqn:Hc1; [|done].
      apply N.eqb_eq in Hc1. subst c1. by destruct Hl.
    + rewrite fence_units. cbn [starts_with app].
      destruct (96 =? c1)%N; [|done].
      destruct (96 =? c2)%N eqn:Hc2; [|done].
      apply N.eqb_eq in Hc2. subst c2. by destruct Hl.
    + rewrite starts_with_app_l by (simpl; lia). by apply free_of_head.
Qed.

Lemma spans_from_lookup (md : text) (cur : nat) (ds : list diagram)
    (i : nat) (d : diagram) :
  spans_from md cur ds → ds !! i = Some d →
  original d = take (length (original d)) (drop (index d) md).
Proof.
  revert cur i. induction ds as [|d0 ds IH]; intros cur i Hsp Hd; [done|].
  destruct Hsp as (_ & _ & H3 & H4).
  destruct i as [|i]; simpl in Hd.
  - by injection Hd as <-.
  - by eapply IH.
Qed.

Lemma is_ws_whitespace (c : unit16) : is_ws c = true ↔ c ∈ whitespace.
Proof.
  split.
  - intros H. unfold is_ws in H.
    rewrite !orb_true_iff, !andb_true_iff, !N.leb_le, !N.eqb_eq in H.
    assert (Hc : (c = 9 ∨ c = 10 ∨ c = 11 ∨ c = 12 ∨ c = 13 ∨ c = 32
                  ∨ c = 160 ∨ c = 5760 ∨ c = 8192 ∨ c = 8193 ∨ c = 8194
                  ∨ c = 8195 ∨ c = 8196 ∨ c = 8197 ∨ c = 8198 ∨ c = 8199
                  ∨ c = 8200 ∨ c = 8201 ∨ c = 8202 ∨ c = 8232 ∨ c = 8233
                  ∨ c = 8239 ∨ c = 8287 ∨ c = 12288 ∨ c = 65279)%N) by lia.
    clear H. destruct_or!; subst c; apply (bool_decide_unpack _);
      by vm_compute.
  - intros Hin. unfold whitespace in Hin.
    repeat (apply elem_of_cons in Hin as [->|Hin]; [reflexivity|]).
    by apply elem_of_nil in Hin.
Qed.

(** What trimming removes and what it leaves: white space on both sides,
    and a text that neither starts nor ends with white space. *)
Lemma trim_whitespace (b : text) :
  (∃ l r, b = l ++ trim b ++ r
          ∧ Forall (λ c, c ∈ whitespace) l
          ∧ Forall (λ c, c ∈ whitespace) r)
  ∧ (∀ c, head (trim b) = Some c → c ∉ whitespace)
  ∧ (∀ c, last (trim b) = Some c → c ∉ whitespace).
Proof.
  destruct (trim_spec b) as (l & r & Hb & Hl & Hr & Hlast & Hhead).
  split_and!.
  - exists l, r. split; [done|].
    split; (eapply Forall_impl; [eassumption|]);
      intros c Hc; by apply is_ws_whitespace.
  - intros c Hc Hin. apply is_ws_whitespace in Hin.
    rewrite (Hhead ltac:(by destruct (trim b)) c Hc) in Hin. done.
  - intros c Hc Hin. apply is_ws_whitespace in Hin.
    by rewrite (Hlast c Hc) in Hin.
Qed.

(** C2.  A document with N fenced diagram blocks, each with the opening
    line of the pattern (the tag directly followed by a line feed) and
    closed by the first fence behind it, and no other diagram opening yields
    exactly the N blocks, in ascending order of their offsets, each with its
    whole text as [original] and its trimmed interior as [code]: the
    interior is white space, the code, white space, and the code neither
    starts nor ends with white space.  The same holds when the text behind
    the last block holds one more opening line with no fence behind it: the
    unterminated opening yields nothing. *)
Theorem extract_fenced_blocks (fs : list (text * text)) (tl : text) :
  well_fenced fs →
  (free_of opener tl
   ∨ ∃ g r, tl = g ++ opener ++ r ∧ free_of opener g ∧ free_of fence r) →
  let md := document fs tl in
  let ds := extract md in
  ds = occurrences 0 fs
  ∧ length ds = length fs
  ∧ (∀ i g b,
       fs !! i = Some (g, b) →
       ∃ d, ds !! i = Some d
            ∧ original d = units "```mermaid" ++ [LF] ++ b ++ units "```"
            ∧ code d = trim b
            ∧ (∃ l r, b = l ++ code d ++ r
                      ∧ Forall (λ c, c ∈ whitespace) l
                      ∧ Forall (λ c, c ∈ whitespace) r)
            ∧ (∀ c, head (code d) = Some c → c ∉ whitespace)
            ∧ (∀ c, last (code d) = Some c → c ∉ whitespace)
            ∧ take (length (original d)) (drop (index d) md) = original d)
  ∧ (∀ i j di dj,
       (i < j)%nat → ds !! i = Some di → ds !! j = Some dj →
       (index di < index dj)%nat).
Proof.
  intros Hwf Htl md ds.
  assert (Hnone : ∀ pos, search tl pos = None).
  { intros pos. destruct Htl as [Hfree|(g & r & -> & Hg & Hr)].
    - by apply search_free.
    - by apply search_dangling. }
  assert (Hds : ds = occurrences 0 fs).
  { unfold ds, extract.
    apply (exec_loop_document fs tl Hwf Hnone [] (S (length md))).
    unfold md. lia. }
  split_and!.
  - done.
  - rewrite Hds. apply length_occurrences.
  - intros i g b Hi.
    destruct (occurrences_lookup 0 fs i g b Hi) as (d & Hd & Ho & Hc).
    destruct (trim_whitespace b) as (Hsplit & Hhead & Hlast).
    exists d. rewrite Hds, Hc. split_and!; try done.
    symmetry. apply (spans_from_lookup md 0 ds i d); [apply extract_spans|].
    by rewrite Hds.
  - intros i j di dj. apply extract_ascending.
Qed.

(** C2, the claim as stated.  A mermaid block whose opening line ends in a
    carriage return and a line feed is a fenced block of the document, and
    the extraction does not return it: the pattern demands the line feed
    directly behind the tag.  The same document with line feeds yields its
    one block. *)
Lemma crlf_block_is_not_extracted :
  [CR; LF] ∈ line_endings
  ∧ one_diagram [CR; LF]
    = units "Intro" ++ [CR; LF]
      ++ mermaid_block [CR; LF] (units "graph TD" ++ [CR; LF]) ++ [CR; LF]
  ∧ extract (one_diagram [CR; LF]) = []
  ∧ length (extract (one_diagram [CR; LF])) ≠ 1%nat
  ∧ extract (one_diagram [LF])
    = [{| original := mermaid_block [LF] (units "graph TD" ++ [LF]);
          code := units "graph TD"; index := 6 |}].
Proof.
  split_and!.
  - apply (bool_decide_unpack _). by vm_compute.
  - reflexivity.
  - vm_compute. reflexivity.
  - vm_compute. discriminate.
  - vm_compute. reflexivity.
Qed.

(** ** The tracker *)

Lemma truthy_Some (id : string) : truthy (Some id) = true ↔ id ≠ ""%string.
Proof.
  simpl. destruct (String.eqb id "") eqn:H.
  - apply String.eqb_eq in H. split; [done|congruence].
  - apply String.eqb_neq in H. split; done.
Qed.

Lemma swallow_lookup (f : stream → option stream) (r : res)
    (cs : gmap res stream) (r' : res) :
  swallow f r cs !! r'
  = if decide (r' = r) then attempted f <$> cs !! r else cs !! r'.
Proof.
  unfold swallow, attempted.
  destruct (decide (r' = r)) as [->|Hne].
  - destruct (cs !! r) as [c|] eqn:Hc; [destruct (f c) as [c'|] eqn:Hf|];
      simpl.
    + rewrite lookup_insert_eq. by rewrite Hf.
    + by rewrite Hf.
    + done.
  - destruct (cs !! r) as [c|] eqn:Hc; [destruct (f c) as [c'|] eqn:Hf|];
      simpl.
    + by rewrite lookup_insert_ne.
    + done.
    + done.
Qed.

Lemma foldr_swallow_lookup (f : stream → option stream) (l : list res)
    (cs : gmap res stream) (r : res) :
  NoDup l →
  foldr (swallow f) cs l !! r
  = if decide (r ∈ l) then attempted f <$> cs !! r else cs !! r.
Proof.
  induction 1 as [|a l Ha Hl IH]; cbn [foldr].
  - by rewrite decide_False by apply not_elem_of_nil.
  - rewrite swallow_lookup.
    destruct (decide (r = a)) as [->|Hra].
    + rewrite decide_True by left.
      rewrite IH. by rewrite decide_False.
    + rewrite IH.
      destruct (decide (r ∈ l)) as [Hin|Hin].
      * rewrite decide_True; [done|by right].
      * rewrite decide_False; [done|].
        by intros [?|?]%elem_of_cons.
Qed.

(** Every subscriber is written to once; no other stream is touched. *)
Lemma for_subscribers_lookup (f : stream → option stream) (subs : gset res)
    (cs : gmap res stream) (r : res) :
  for_subscribers f subs cs !! r
  = if decide (r ∈ subs) then attempted f <$> cs !! r else cs !! r.
Proof.
  unfold for_subscribers.
  rewrite foldr_swallow_lookup by apply NoDup_elements.
  case_decide as H1; case_decide as H2; try done;
    rewrite elem_of_elements in H1; done.
Qed.

Lemma res_write_live (k : chunk) (c : stream) :
  live c → attempted (res_write k) c = push k c.
Proof.
  intros [He Hb]. unfold attempted, res_write, push. by rewrite He, Hb.
Qed.

Lemma res_write_dead (k : chunk) (c : stream) :
  ¬ live c → attempted (res_write k) c = c.
Proof.
  intros Hdead. unfold attempted, res_write, live in *.
  destruct (ended c), (broken c); simpl; try done. by destruct Hdead.
Qed.

Lemma get_job_registered (s : state) (id : string) (l : loc) (j : job) :
  registered s id l j → get_job id s = Some (l, j).
Proof. intros [Hl Hj]. unfold get_job. rewrite Hl. simpl. by rewrite Hj. Qed.

Lemma new_message_truthy (msg : option string) (old : string) :
  (if truthy msg then default ""%string msg else old) = new_message msg old.
Proof.
  destruct msg as [m|]; simpl; [|done].
  destruct (String.eqb m "") eqn:H; simpl.
  - apply String.eqb_eq in H. by rewrite decide_True.
  - apply String.eqb_neq in H. by rewrite decide_False.
Qed.

(** What an update of a registered job does to the state. *)
Lemma updateProgress_run (s : state) (id : string) (l : loc) (j : job)
    (p : Q) (msg : option string) :
  id ≠ ""%string → registered s id l j →
  updateProgress (Some id) p msg s
  = with_streams
      (for_subscribers
         (res_write (Data (clamp p) (new_message msg (message j))))
         (subscribers j) (streams s))
      (with_objs
         (<[l := {| progress := clamp p;
                    message := new_message msg (message j);
                    subscribers := subscribers j;
                    status := status j |}]> (objs s)) s).
Proof.
  intros Hid Hreg. unfold updateProgress.
  apply truthy_Some in Hid. rewrite Hid.
  rewrite (get_job_registered _ _ _ _ Hreg). cbn [progress message subscribers].
  by rewrite new_message_truthy.
Qed.

Lemma updateProgress_noop (s : state) (jobId : option string) (p : Q)
    (msg : option string) :
  (jobId = None ∨ jobId = Some ""%string
   ∨ ∃ id, jobId = Some id ∧ jobs s !! id = None) →
  updateProgress jobId p msg s = s.
Proof.
  intros [->|[->|(id & -> & Hnone)]]; [done|done|].
  unfold updateProgress, get_job. rewrite Hnone. simpl.
  by destruct (negb (String.eqb id "")).
Qed.

Lemma clamp_range (p : Q) : 0 ≤ clamp p ≤ 100.
Proof. unfold clamp. lia. Qed.

Lemma clamp_cases (p : Q) :
  (0 ≤ Qfloor p ≤ 100 ∧ clamp p = Qfloor p)
  ∨ (Qfloor p < 0 ∧ clamp p = 0)
  ∨ (100 < Qfloor p ∧ clamp p = 100).
Proof. unfold clamp. lia. Qed.

Lemma clamp_inject_Z (z : Z) : 0 ≤ z ≤ 100 → clamp (inject_Z z) = z.
Proof. intros Hz. unfold clamp. rewrite Qfloor_Z. lia. Qed.

(** C6.  An update of an existing job stores the floor of the progress,
    brought into the range from 0 to 100, replaces the message only by a
    message that is not empty, and writes the new progress and message to
    every subscriber (a subscriber whose stream is gone is skipped);
    nothing else changes.  With no job id, or an id the registry does not
    hold, the state stays as it is. *)
Theorem updateProgress_spec (s : state) (jobId : option string) (p : Q)
    (msg : option string) :
  (∀ id l j,
     jobId = Some id → id ≠ ""%string → registered s id l j →
     let s' := updateProgress jobId p msg s in
     let p' := clamp p in
     let m' := new_message msg (message j) in
     objs s' !! l = Some {| progress := p'; message := m';
                            subscribers := subscribers j;
                            status := status j |}
     ∧ 0 ≤ p' ≤ 100
     ∧ ((0 ≤ Qfloor p ≤ 100 ∧ p' = Qfloor p)
        ∨ (Qfloor p < 0 ∧ p' = 0) ∨ (100 < Qfloor p ∧ p' = 100))
     ∧ (∀ r c, r ∈ subscribers j → streams s !! r = Some c → live c →
               streams s' !! r = Some (push (Data p' m') c))
     ∧ (∀ r c, r ∈ subscribers j → streams s !! r = Some c → ¬ live c →
               streams s' !! r = Some c)
     ∧ (∀ r, r ∉ subscribers j → streams s' !! r = streams s !! r)
     ∧ (∀ l', l' ≠ l → objs s' !! l' = objs s !! l')
     ∧ jobs s' = jobs s ∧ timers s' = timers s ∧ now s' = now s)
  ∧ ((jobId = None ∨ jobId = Some ""%string
      ∨ ∃ id, jobId = Some id ∧ jobs s !! id = None) →
     updateProgress jobId p msg s = s).
Proof.
  split; [|apply updateProgress_noop].
  intros id l j -> Hid Hreg s' p' m'. unfold s'.
  rewrite (updateProgress_run s id l j p msg Hid Hreg).
  cbn [objs streams jobs timers now with_streams with_objs].
  split; [by rewrite lookup_insert_eq|].
  split; [apply clamp_range|].
  split; [apply clamp_cases|].
  split_and!; try done.
  - intros r c Hr Hc Hlive.
    rewrite for_subscribers_lookup, decide_True, Hc by done. simpl.
    by rewrite res_write_live.
  - intros r c Hr Hc Hdead.
    rewrite for_subscribers_lookup, decide_True, Hc by done. simpl.
    by rewrite res_write_dead.
  - intros r Hr. by rewrite for_subscribers_lookup, decide_False.
  - intros l' Hl'. by rewrite lookup_insert_ne.
Qed.

Lemma updateProgress_job (s : state) (id : string) (l : loc) (j : job)
    (p : Q) (msg : option string) :
  id ≠ ""%string → registered s id l j →
  registered (updateProgress (Some id) p msg s) id l
    {| progress := clamp p; message := new_message msg (message j);
       subscribers := subscribers j; status := status j |}.
Proof.
  intros Hid Hreg. rewrite (updateProgress_run s id l j p msg Hid Hreg).
  destruct Hreg as [Hl Hj]. split; simpl; [done|].
  by rewrite lookup_insert_eq.
Qed.

Lemma updateProgress_stream (s : state) (id : string) (l : loc) (j : job)
    (p : Q) (msg : option string) (r : res) (c : stream) :
  id ≠ ""%string → registered s id l j →
  r ∈ subscribers j → streams s !! r = Some c → live c →
  streams (updateProgress (Some id) p msg s) !! r
  = Some (push (Data (clamp p) (new_message msg (message j))) c).
Proof.
  intros Hid Hreg Hr Hc Hlive.
  rewrite (updateProgress_run s id l j p msg Hid Hreg). simpl.
  rewrite for_subscribers_lookup, decide_True, Hc by done. simpl.
  by rewrite res_write_live.
Qed.

Lemma push_live (k : chunk) (c : stream) : live c → live (push k c).
Proof. by intros [??]. Qed.

(** C8.  The tracker does not compare an update with the progress a job
    already has: an update with a lower value in range, after one with a
    higher value, stores the lower value and writes it to the subscribers
    behind the higher one. *)
Theorem updateProgress_may_regress (s : state) (id : string) (l : loc)
    (j : job) (p1 p2 : Z) (m1 m2 : option string) :
  id ≠ ""%string → registered s id l j →
  0 ≤ p2 → p2 < p1 → p1 ≤ 100 →
  let s1 := updateProgress (Some id) (inject_Z p1) m1 s in
  let s2 := updateProgress (Some id) (inject_Z p2) m2 s1 in
  (∃ j1, registered s1 id l j1 ∧ progress j1 = p1)
  ∧ (∃ j2, registered s2 id l j2 ∧ progress j2 = p2 ∧ progress j2 < p1)
  ∧ ∀ r c,
      r ∈ subscribers j → streams s !! r = Some c → live c →
      ∃ msg1 msg2,
        streams s2 !! r
        = Some (push (Data p2 msg2) (push (Data p1 msg1) c)).
Proof.
  intros Hid Hreg H0 H12 H100 s1 s2.
  pose proof (updateProgress_job s id l j (inject_Z p1) m1 Hid Hreg) as Hreg1.
  fold s1 in Hreg1. rewrite clamp_inject_Z in Hreg1 by lia.
  pose proof (updateProgress_job s1 id l _ (inject_Z p2) m2 Hid Hreg1) as Hreg2.
  fold s2 in Hreg2. rewrite clamp_inject_Z in Hreg2 by lia.
  split_and!.
  - by eexists.
  - eexists. split_and!; [exact Hreg2|done|simpl; lia].
  - intros r c Hr Hc Hlive.
    pose proof (updateProgress_stream s id l j (inject_Z p1) m1 r c
                  Hid Hreg Hr Hc Hlive) as Hc1.
    fold s1 in Hc1. rewrite clamp_inject_Z in Hc1 by lia.
    pose proof (updateProgress_stream s1 id l _ (inject_Z p2) m2 r _
                  Hid Hreg1 Hr Hc1 (push_live _ _ Hlive)) as Hc2.
    fold s2 in Hc2. rewrite clamp_inject_Z in Hc2 by lia.
    by eexists _, _.
Qed.

(** C9.  For the format [html] the pass returns the document it was given,
    whatever it contains and whatever the collaborators would do; the state
    sees one progress update.  So the HTML converter hands the uploaded text
    itself to the Markdown parser. *)
Theorem html_passes_through (w : collaborators) (md : text) (o : options)
    (s : state) :
  processMermaidDiagrams w md "html" o s
  = (Returns md,
     updateProgress (opt_jobId o) (inject_Z (opt_start o))
       (Some "Parsing markdown"%string) s)
  ∧ ∀ filename jobId htmlContent,
      marked w md = Returns htmlContent →
      (convertToHTML w md filename jobId s).1
      = Returns (html_page w filename htmlContent).
Proof.
  split; [reflexivity|].
  intros filename jobId htmlContent Hmarked.
  unfold convertToHTML, progress_msg, act, await.
  unfold mbind, M_bind, bind. cbn [processMermaidDiagrams String.eqb fst].
  unfold mbind, M_bind, bind, act. simpl. by rewrite Hmarked.
Qed.

(** ** Progress of the rendering phase *)

(** The value the loop computes is the one of the specification, with the
    number of diagrams dealt with as [k]. *)
Lemma rendered_progress_claimed (start end_ : Z) (n i : nat) :
  (i < n)%nat →
  rendered_progress start end_ n i = claimed_progress start end_ (n - i) n.
Proof.
  intros Hi. unfold rendered_progress, claimed_progress.
  rewrite Nat2Z.inj_sub by lia.
  set (N := Z.of_nat n). set (k := N - Z.of_nat i).
  assert (HN : 0 < N) by (unfold N; lia).
  assert (Hk : 0 < k ≤ N) by (unfold k, N; lia).
  destruct (Z.le_gt_cases start end_) as [Hle|Hgt].
  - by rewrite Z.max_r by lia.
  - rewrite Z.max_l by lia. rewrite Z.mul_0_l, Z.div_0_l by lia.
    assert (Hdiv : end_ - start ≤ (end_ - start) * k / N).
    { rewrite <- (Z.div_mul (end_ - start) N) at 1 by lia.
      apply Z.div_le_mono; [lia|nia]. }
    lia.
Qed.

Lemma claimed_progress_range (start end_ : Z) (k n : nat) :
  start ≤ end_ → (k ≤ n)%nat → (0 < n)%nat →
  claimed_progress start end_ k n
  = start + ((end_ - start) * Z.of_nat k) / Z.of_nat n
  ∧ start ≤ claimed_progress start end_ k n ≤ end_.
Proof.
  intros Hle Hk Hn. unfold claimed_progress.
  set (N := Z.of_nat n). set (K := Z.of_nat k).
  assert (HN : 0 < N) by (unfold N; lia).
  assert (HK : 0 ≤ K ≤ N) by (unfold K, N; lia).
  assert (Hlo : 0 ≤ (end_ - start) * K / N) by (apply Z.div_pos; nia).
  assert (Hhi : (end_ - start) * K / N ≤ end_ - start).
  { rewrite <- (Z.div_mul (end_ - start) N) at 2 by lia.
    apply Z.div_le_mono; [lia|nia]. }
  lia.
Qed.

Lemma render_loop_state (w : collaborators) (o : options)
    (ds : list diagram) (k : nat) (pc : text) (s : state) :
  (k ≤ length ds)%nat →
  (render_loop w o ds k pc s).2
  = apply_updates (opt_jobId o)
      (omap (rendered_update w o ds) (reverse (seq 0 k))) s.
Proof.
  revert pc s. induction k as [|i IH]; intros pc s Hk; [done|].
  rewrite seq_S, reverse_app. cbn [reverse rev_append app plus].
  destruct (lookup_lt_is_Some_2 ds i ltac:(lia)) as [d Hd].
  cbn [render_loop]. rewrite Hd.
  unfold mbind at 1, M_bind, bind. rewrite render_one_run.
  cbn [omap list_omap].
  unfold rendered_update at 1. rewrite Hd. cbn [mbind option_bind].
  destruct (renderMermaidToImage w i (code d)) as [b|e].
  - rewrite IH by lia. cbn [apply_updates foldl fst snd].
    replace (0 <? length ds)%nat with true
      by (symmetry; apply Nat.ltb_lt; lia).
    by rewrite rendered_progress_claimed by lia.
  - by rewrite IH by lia.
Qed.

Lemma render_loop_nil (w : collaborators) (o : options) (pc : text)
    (s : state) :
  render_loop w o [] 0 pc s = (Returns pc, s).
Proof. reflexivity. Qed.

Lemma rendered_so_far_all (w : collaborators) (ds : list diagram) (i : nat) :
  (∀ j d, (i ≤ j)%nat → ds !! j = Some d → succeeds w j d = true) →
  rendered_so_far w ds i = (length ds - i)%nat.
Proof.
  intros Hall. unfold rendered_so_far.
  assert (Hf : Forall (λ x, succeeds w x.1 x.2 = true) (drop i (imap pair ds))).
  { apply Forall_lookup. intros k [j d] Hk.
    rewrite lookup_drop, list_lookup_imap in Hk.
    destruct (ds !! (i + k)%nat) as [d'|] eqn:Hd; simpl in Hk; [|done].
    injection Hk as <- <-. simpl. apply (Hall (i + k)%nat d'); [lia|done]. }
  assert (Hid : ∀ l : list (nat * diagram),
             Forall (λ x, succeeds w x.1 x.2 = true) l →
             filter (λ x, succeeds w x.1 x.2 = true) l = l).
  { induction 1 as [|x l Hx Hl IH]; [done|].
    by rewrite filter_cons_True, IH. }
  rewrite Hid by done. by rewrite length_drop, length_imap.
Qed.

(** C4, as the code has it.  The updates of the rendering phase are those of
    the diagrams whose render succeeds, from the last diagram to the first;
    the update after diagram [i] of [n] carries
    [start + floor((end - start) * (n - i) / n)] capped at [end], where
    [n - i] counts every diagram the loop has dealt with, the ones whose
    render threw as well (it is the number of diagrams rendered so far when
    none threw); a render that throws gives no update; and without diagrams
    the phase leaves the state and the document as they are. *)
Theorem rendering_phase_progress (w : collaborators) (md : text)
    (format : string) (o : options) (s : state) :
  format ≠ "html"%string →
  let ds := extract md in
  let n := length ds in
  (processMermaidDiagrams w md format o s).2
  = apply_updates (opt_jobId o) (rendered_updates w o ds) s
  ∧ (∀ i d b,
       ds !! i = Some d → renderMermaidToImage w i (code d) = Returns b →
       let v := claimed_progress (opt_start o) (opt_end o) (n - i) n in
       rendered_update w o ds i = Some (v, rendered_message (n - i) n)
       ∧ (opt_start o ≤ opt_end o →
          v = opt_start o
              + ((opt_end o - opt_start o) * Z.of_nat (n - i)) / Z.of_nat n
          ∧ opt_start o ≤ v ≤ opt_end o)
       ∧ ((∀ j d', (i ≤ j)%nat → ds !! j = Some d' → succeeds w j d' = true) →
          rendered_so_far w ds i = (n - i)%nat))
  ∧ (∀ i d e,
       ds !! i = Some d → renderMermaidToImage w i (code d) = Throws e →
       rendered_update w o ds i = None)
  ∧ (n = 0%nat → processMermaidDiagrams w md format o s = (Returns md, s)).
Proof.
  intros Hfmt ds n.
  assert (Hrun : processMermaidDiagrams w md format o s
                 = render_loop w o ds (length ds) md s).
  { unfold processMermaidDiagrams. apply String.eqb_neq in Hfmt.
    by rewrite Hfmt. }
  split_and!.
  - rewrite Hrun. by apply render_loop_state.
  - intros i d b Hd Hb v.
    assert (Hi : (i < n)%nat) by (by eapply lookup_lt_Some).
    split_and!.
    + unfold rendered_update. rewrite Hd. simpl. by rewrite Hb.
    + intros Hle. apply claimed_progress_range; [done|lia|lia].
    + apply rendered_so_far_all.
  - intros i d e Hd He. unfold rendered_update. rewrite Hd. simpl.
    by rewrite He.
  - intros Hn. rewrite Hrun. fold n. rewrite Hn.
    by destruct ds.
Qed.

(** C4 as stated does not hold of a run with a render that throws: with the
    second of two diagrams failing, one diagram has been rendered when the
    first one is done, and the update carries the end of the range, 60, not
    [5 + floor(55 * 1 / 2) = 32]. *)
Lemma progress_counts_failed_renders :
  rendered_so_far last_fails (extract two_diagrams) 0 = 1%nat
  ∧ claimed_progress 5 60 1 2 = 32
  ∧ sent <$> streams (processMermaidDiagrams last_fails two_diagrams "pdf"
                        sample_options sample_state).2 !! 7%nat
    = Some [Retry 1500; Data 0 "Starting"; Data 60 "Rendered diagram 2/2"]
  ∧ (processMermaidDiagrams last_fails two_diagrams "pdf"
       sample_options sample_state).2
    ≠ apply_updates (Some "j1"%string)
        (claimed_updates last_fails sample_options (extract two_diagrams))
        sample_state.
Proof.
  split_and!.
  - vm_compute. reflexivity.
  - vm_compute. reflexivity.
  - vm_compute. reflexivity.
  - intros H. apply (f_equal (λ s, sent <$> streams s !! 7%nat)) in H.
    vm_compute in H. discriminate H.
Qed.

(** ** Completion *)

Lemma res_write_flags (k : chunk) (c : stream) :
  ended (attempted (res_write k) c) = ended c
  ∧ broken (attempted (res_write k) c) = broken c.
Proof.
  unfold attempted, res_write. by destruct (ended c || broken c).
Qed.

Lemma completeJob_run (s : state) (id : string) (l : loc) (j : job) :
  id ≠ ""%string → registered s id l j →
  completeJob (Some id) s
  = setTimeout (CloseSubscribers l id) 250
      (updateProgress (Some id) (inject_Z 100) (Some "Done"%string)
         (with_objs (<[l := set_status Done j]> (objs s)) s)).
Proof.
  intros Hid Hreg. unfold completeJob.
  apply truthy_Some in Hid. rewrite Hid.
  by rewrite (get_job_registered _ _ _ _ Hreg).
Qed.

Lemma foreign_mono (s s' : state) (id : string) (l : loc) (subs : gset res)
    (k : task) :
  (∀ l' j', l' ≠ l → objs s' !! l' = Some j' →
            ∃ j, objs s !! l' = Some j ∧ subscribers j' ⊆ subscribers j) →
  foreign s id l subs k → foreign s' id l subs k.
Proof.
  intros Hobjs. destruct k as [l' id'|id']; [|done].
  intros (Hl & Hid & Hdisj). split; [done|]. split; [done|].
  intros j' Hj'. destruct (Hobjs l' j' Hl Hj') as (j & Hj & Hsub).
  specialize (Hdisj j Hj). intros r Hr. apply (Hdisj r). by apply Hsub.
Qed.

Lemma on_schedule_mono (s s' : state) (t0 : Z) (id : string) (l : loc)
    (subs : gset res) (ts : list (Z * task)) :
  (∀ l' j', l' ≠ l → objs s' !! l' = Some j' →
            ∃ j, objs s !! l' = Some j ∧ subscribers j' ⊆ subscribers j) →
  Forall (on_schedule s t0 id l subs) ts →
  Forall (on_schedule s' t0 id l subs) ts.
Proof.
  intros Hobjs Hts. eapply Forall_impl; [exact Hts|].
  intros tk [Hf|Hown]; [|by right].
  left. by apply (foreign_mono s s').
Qed.

Lemma same_objs_mono (s s' : state) (l : loc) :
  objs s' = objs s →
  ∀ l' j', l' ≠ l → objs s' !! l' = Some j' →
           ∃ j, objs s !! l' = Some j ∧ subscribers j' ⊆ subscribers j.
Proof. intros -> l' j' _ Hj'. by exists j'. Qed.

(** A callback of another job leaves the job and the streams of its
    subscribers alone. *)
Lemma foreign_run_task (s : state) (id : string) (l : loc) (subs : gset res)
    (k : task) :
  foreign s id l subs k →
  jobs (run_task k s) !! id = jobs s !! id
  ∧ objs (run_task k s) !! l = objs s !! l
  ∧ (∀ r, r ∈ subs → streams (run_task k s) !! r = streams s !! r)
  ∧ now (run_task k s) = now s
  ∧ (∃ ts, timers (run_task k s) = timers s ++ ts
           ∧ Forall (λ tk, ∃ id', tk.2 = DeleteJob id' ∧ id' ≠ id) ts)
  ∧ (∀ l' j', l' ≠ l → objs (run_task k s) !! l' = Some j' →
              ∃ j, objs s !! l' = Some j ∧ subscribers j' ⊆ subscribers j).
Proof.
  destruct k as [l' id'|id']; simpl.
  - intros (Hl & Hid & Hdisj). destruct (objs s !! l') as [j'|] eqn:Hj'.
    + simpl. split_and!; try done.
      * by rewrite lookup_insert_ne.
      * intros r Hr. rewrite for_subscribers_lookup.
        rewrite decide_False; [done|]. intros Hr'.
        by apply (Hdisj j' eq_refl r).
      * eexists. split; [done|]. apply Forall_cons. split; [by eexists|].
        apply Forall_nil_2.
      * intros l2 j2 _. destruct (decide (l2 = l')) as [->|Hne].
        -- rewrite lookup_insert_eq. intros [= <-]. exists j'.
           split; [done|]. simpl. apply empty_subseteq.
        -- rewrite lookup_insert_ne by done. intros Hj2. by exists j2.
    + split_and!; try done.
      * exists []. by rewrite app_nil_r.
      * intros l2 j2 _ Hj2. by exists j2.
  - intros Hid. split_and!; try done.
    + by rewrite lookup_delete_ne.
    + exists []. by rewrite app_nil_r.
    + intros l2 j2 _ Hj2. by exists j2.
Qed.

Lemma step_timeline (s1 : state) (t0 : Z) (id : string) (l : loc) (j1 : job)
    (s s' : state) :
  timeline s1 t0 id l j1 s → step s s' → timeline s1 t0 id l j1 s'.
Proof.
  intros (Hts & Hflush & Hkeep) Hstep.
  destruct Hstep as [s d Hd|s pre t k post Ht Hdue].
  - split_and!.
    + by apply (on_schedule_mono s _ _ _ _ _ _ (same_objs_mono s _ l eq_refl)).
    + simpl. intros Hnow. apply Hflush. lia.
    + simpl. intros Hnow. apply Hkeep. lia.
  - rewrite Ht in Hts. apply Forall_app in Hts as [Hpre Hpost].
    apply Forall_cons in Hpost as [Hk Hpost].
    assert (Hrest : Forall (on_schedule (with_timers (pre ++ post) s) t0 id l
                              (subscribers j1)) (pre ++ post)).
    { apply (on_schedule_mono s _ _ _ _ _ _ (same_objs_mono s _ l eq_refl)).
      by apply Forall_app. }
    set (s0 := with_timers (pre ++ post) s) in *.
    destruct Hk as [Hforeign|[Hclose|(t' & Hdelete & Hlate)]].
    + destruct (foreign_run_task s0 id l (subscribers j1) k Hforeign)
        as (Hjobs & Hobj & Hstr & Hnow & (ts & Htimers & Hnew) & Hmono).
      split_and!.
      * rewrite Htimers. apply Forall_app. split.
        -- by apply (on_schedule_mono s0 _ _ _ _ _ _ Hmono).
        -- eapply Forall_impl; [exact Hnew|].
           intros tk (id' & Hk & Hid'). left. by rewrite Hk.
      * rewrite Hnow. intros Hlt. destruct (Hflush Hlt) as [[Hl Hj] Hsame].
        split; [split|].
        -- by rewrite Hjobs.
        -- by rewrite Hobj.
        -- intros r Hr. rewrite Hstr by done. by apply Hsame.
      * rewrite Hnow, Hjobs. exact Hkeep.
    + injection Hclose as -> ->. cbn [run_task].
      destruct (objs s0 !! l) as [j|] eqn:Hj.
      * split_and!.
        -- cbn [setTimeout timers with_timers with_objs with_streams].
           apply Forall_app. split.
           ++ apply (on_schedule_mono s0); [|done].
              intros l' j' Hne. simpl. rewrite lookup_insert_ne by done.
              intros Hj'. by exists j'.
           ++ apply Forall_cons. split; [|apply Forall_nil_2].
              right. right. eexists. split; [done|]. simpl in *. lia.
        -- simpl in *. intros Hlt. lia.
        -- simpl in *. exact Hkeep.
      * split_and!; [done|simpl in *; intros; lia|exact Hkeep].
    + injection Hdelete as -> ->. cbn [run_task].
      split_and!.
      * by apply (on_schedule_mono s0 _ _ _ _ _ _
                    (same_objs_mono s0 _ l eq_refl)).
      * simpl in *. intros Hlt. lia.
      * simpl in *. intros Hlt. lia.
Qed.

Lemma steps_timeline (s1 : state) (t0 : Z) (id : string) (l : loc) (j1 : job)
    (s s' : state) :
  timeline s1 t0 id l j1 s → steps s s' → timeline s1 t0 id l j1 s'.
Proof.
  intros Hph Hsteps. induction Hsteps as [s|s s2 s3 Hstep _ IH]; [done|].
  apply IH. by eapply step_timeline.
Qed.

Lemma steps_now (s s' : state) : steps s s' → now s ≤ now s'.
Proof.
  induction 1 as [s|s s2 s3 Hstep _ IH]; [done|].
  etrans; [|exact IH]. destruct Hstep as [s d Hd|s pre t k post Ht Hdue].
  - simpl. lia.
  - destruct k as [l id|id]; simpl; [|done].
    by destruct (objs s !! l).
Qed.

Lemma res_end_open (c : stream) :
  broken c = false →
  attempted res_end c = {| sent := sent c; ended := true; broken := false |}.
Proof. intros Hb. unfold attempted, res_end. by rewrite Hb. Qed.

Lemma tick_to (s : state) (t : Z) : now s ≤ t → step s (with_now t s).
Proof.
  intros Ht. replace t with (now s + (t - now s)) by lia.
  apply step_tick. lia.
Qed.

(** C7.  [completeJob] on an existing job marks it done and writes the final
    event, progress 100 and message Done, to every subscriber, and at that
    point it has ended no stream: it has only registered the callback that
    does so, due 250 ms later.  Whatever callbacks of other jobs are pending
    and run in between, in every later state of the event loop less than
    250 ms after the call the job and the streams of its subscribers are as
    the call left them, and less than 250 + 60000 ms after the call the job
    is still in the registry; once 250 ms have passed the streams can be
    ended and the subscribers cleared, and 60000 ms after that the job can
    be deleted.  The premise [quiet] of the two delays is that no callback
    of an earlier completion of this very job is pending: a job is
    completed once, since every conversion request carries an id of its own
    ([one_conversion_per_id] derives the premise from that). *)
Theorem completeJob_timeline (s : state) (id : string) (l : loc) (j : job) :
  id ≠ ""%string → registered s id l j →
  let s1 := completeJob (Some id) s in
  let j1 := {| progress := 100; message := "Done";
               subscribers := subscribers j; status := Done |} in
  registered s1 id l j1
  ∧ (∀ r c, r ∈ subscribers j → streams s !! r = Some c → live c →
            streams s1 !! r = Some (push (Data 100 "Done") c))
  ∧ (∀ r c, streams s !! r = Some c →
            ∃ c', streams s1 !! r = Some c' ∧ ended c' = ended c)
  ∧ timers s1 = timers s ++ [(now s + 250, CloseSubscribers l id)]
  ∧ (quiet s id l (subscribers j) →
     ∀ s2, steps s1 s2 →
       (now s2 < now s + 250 →
        registered s2 id l j1
        ∧ ∀ r, r ∈ subscribers j → streams s2 !! r = streams s1 !! r)
       ∧ (now s2 < now s + 250 + 60000 → jobs s2 !! id = Some l))
  ∧ (∀ t2, now s + 250 ≤ t2 →
       ∃ s2, steps s1 s2 ∧ now s2 = t2
             ∧ registered s2 id l (set_subscribers ∅ j1)
             ∧ (∀ r c, r ∈ subscribers j → streams s1 !! r = Some c →
                       broken c = false →
                       streams s2 !! r
                       = Some {| sent := sent c; ended := true;
                                 broken := false |})
             ∧ ∀ t3, t2 + 60000 ≤ t3 →
                 ∃ s3, steps s2 s3 ∧ now s3 = t3
                       ∧ jobs s3 !! id = None).
Proof.
  intros Hid Hreg s1 j1.
  set (s0 := with_objs (<[l := set_status Done j]> (objs s)) s).
  assert (Hreg0 : registered s0 id l (set_status Done j)).
  { destruct Hreg as [Hl Hj]. split; simpl; [done|]. by rewrite lookup_insert_eq. }
  assert (Hs1 : s1 = setTimeout (CloseSubscribers l id) 250
                       (updateProgress (Some id) (inject_Z 100)
                          (Some "Done"%string) s0))
    by (by apply completeJob_run).
  assert (Hj1 : registered s1 id l j1).
  { rewrite Hs1.
    pose proof (updateProgress_job s0 id l _ (inject_Z 100)
                  (Some "Done"%string) Hid Hreg0) as [Hl Hj].
    rewrite clamp_inject_Z in Hj by lia. split; simpl; done. }
  assert (Hnow1 : now s1 = now s).
  { rewrite Hs1, (updateProgress_run s0 id l _ _ _ Hid Hreg0). done. }
  assert (Htimers : timers s1 = timers s ++ [(now s + 250, CloseSubscribers l id)]).
  { rewrite Hs1, (updateProgress_run s0 id l _ _ _ Hid Hreg0). done. }
  assert (Hobjs1 : ∀ l' j', l' ≠ l → objs s1 !! l' = Some j' →
                     ∃ j0, objs s !! l' = Some j0
                           ∧ subscribers j' ⊆ subscribers j0).
  { intros l' j' Hne. rewrite Hs1, (updateProgress_run s0 id l _ _ _ Hid Hreg0).
    simpl. rewrite !lookup_insert_ne by done. intros Hj'. by exists j'. }
  split; [done|]. split; [|split; [|split; [done|split]]].
  - intros r c Hr Hc Hlive. rewrite Hs1. cbn [setTimeout streams with_timers].
    rewrite (updateProgress_stream s0 id l _ (inject_Z 100)
               (Some "Done"%string) r c Hid Hreg0 Hr Hc Hlive).
    by rewrite clamp_inject_Z by lia.
  - intros r c Hc. rewrite Hs1, (updateProgress_run s0 id l _ _ _ Hid Hreg0).
    cbn [setTimeout streams with_timers with_streams with_objs].
    rewrite for_subscribers_lookup. case_decide.
    + change (streams s0) with (streams s). rewrite Hc. simpl.
      eexists. split; [done|]. apply res_write_flags.
    + change (streams s0) with (streams s). by eexists.
  - intros Hquiet s2 Hsteps.
    assert (Hph : timeline s1 (now s) id l j1 s1).
    { split_and!.
      - rewrite Htimers. apply Forall_app. split.
        + apply (on_schedule_mono s _ _ _ _ _ _ Hobjs1).
          eapply Forall_impl; [exact Hquiet|]. intros tk Hf. by left.
        + apply Forall_cons. split; [by right; left|apply Forall_nil_2].
      - done.
      - intros _. by destruct Hj1. }
    destruct (steps_timeline _ _ _ _ _ _ _ Hph Hsteps) as (_ & Hflush & Hkeep).
    done.
  - intros t2 Ht2. destruct Hj1 as [Hl1 Ho1].
    set (s2 := run_task (CloseSubscribers l id)
                 (with_timers (timers s ++ []) (with_now t2 s1))).
    assert (Hstep2 : steps s1 s2).
    { eapply rtc_l; [apply (tick_to s1 t2); lia|].
      apply rtc_once.
      apply (step_fire (with_now t2 s1) (timers s) (now s + 250)
               (CloseSubscribers l id) []); simpl; [done|lia]. }
    assert (Hs2 : s2 = setTimeout (DeleteJob id) 60000
                   (with_objs (<[l := set_subscribers ∅ j1]> (objs s1))
                      (with_streams
                         (for_subscribers res_end (subscribers j1)
                            (streams s1))
                         (with_timers (timers s ++ []) (with_now t2 s1))))).
    { unfold s2. cbn [run_task with_timers with_now objs]. by rewrite Ho1. }
    exists s2. split; [done|]. split; [by rewrite Hs2|].
    split; [rewrite Hs2; split; simpl; [done|by rewrite lookup_insert_eq]|].
    split.
    + intros r c Hr Hc Hb. rewrite Hs2. simpl.
      rewrite for_subscribers_lookup, decide_True, Hc by done. simpl.
      by rewrite res_end_open.
    + intros t3 Ht3.
      exists (run_task (DeleteJob id)
                (with_timers ((timers s ++ []) ++ []) (with_now t3 s2))).
      split; [|split; [done|simpl; by rewrite lookup_delete_eq]].
      eapply rtc_l; [apply (tick_to s2 t3); rewrite Hs2; simpl; lia|].
      apply rtc_once.
      apply (step_fire (with_now t3 s2) (timers s ++ []) (t2 + 60000)
               (DeleteJob id) []);
        [by rewrite Hs2|simpl; lia].
Qed.

(** ** Calm computations *)

Lemma calm_refl (s : state) : calm s s.
Proof. unfold calm. split_and!; eauto. Qed.

Lemma calm_trans (s1 s2 s3 : state) : calm s1 s2 → calm s2 s3 → calm s1 s3.
Proof.
  intros (Ht & Hn & Hj & Ho & Hs) (Ht' & Hn' & Hj' & Ho' & Hs').
  unfold calm. split_and!.
  - congruence.
  - congruence.
  - eauto.
  - intros l j Hl. destruct (Ho l j Hl) as (j' & Hl' & Hst & Hsub).
    destruct (Ho' l j' Hl') as (j'' & Hl'' & Hst' & Hsub').
    exists j''. split_and!; congruence.
  - intros r c Hr. destruct (Hs r c Hr) as (c' & Hr' & He & Hb).
    destruct (Hs' r c' Hr') as (c'' & Hr'' & He' & Hb').
    exists c''. split_and!; congruence.
Qed.

Lemma get_job_Some (s : state) (id : string) (l : loc) (j : job) :
  get_job id s = Some (l, j) → registered s id l j.
Proof.
  unfold get_job, registered. destruct (jobs s !! id) as [l'|]; simpl; [|done].
  destruct (objs s !! l') as [j'|] eqn:Hj; simpl; [|done].
  by intros [= <- <-].
Qed.

Lemma calm_updateProgress (jobId : option string) (p : Q)
    (msg : option string) (s : state) :
  calm s (updateProgress jobId p msg s).
Proof.
  destruct jobId as [id|]; [|apply calm_refl].
  destruct (decide (id = ""%string)) as [->|Hid]; [apply calm_refl|].
  destruct (get_job id s) as [[l j]|] eqn:Hget.
  - apply get_job_Some in Hget.
    rewrite (updateProgress_run s id l j p msg Hid Hget).
    destruct Hget as [Hl Hj]. unfold calm. simpl. split_and!; try done.
    + intros l' j' Hl'. destruct (decide (l' = l)) as [->|Hne].
      * rewrite lookup_insert_eq. eexists. split; [done|].
        assert (j' = j) as -> by congruence. done.
      * rewrite lookup_insert_ne by done. by eexists.
    + intros r c Hr. rewrite for_subscribers_lookup. case_decide.
      * rewrite Hr. simpl. eexists. split; [done|]. apply res_write_flags.
      * by eexists.
  - unfold updateProgress. rewrite Hget.
    destruct (truthy (Some id)); apply calm_refl.
Qed.

Lemma calm_initJob (jobId : option string) (s : state) :
  calm s (initJob jobId s).2.
Proof.
  unfold initJob. destruct jobId as [id|]; [|apply calm_refl].
  destruct (truthy (Some id)); [|apply calm_refl].
  destruct (jobs s !! id) as [l|] eqn:Hl; [apply calm_refl|].
  simpl. set (l := fresh (dom (objs s))).
  assert (Hfresh : objs s !! l = None).
  { apply not_elem_of_dom. apply is_fresh. }
  unfold calm. simpl. split_and!; try done.
  - intros id' l' Hid'. rewrite lookup_insert_ne; [done|congruence].
  - intros l' j' Hl'. rewrite lookup_insert_ne by congruence. by eexists.
  - intros r c Hr. by eexists.
Qed.

(** After [initJob] the job is there; it is new and pending unless it was
    there before. *)
Lemma initJob_registered (id : string) (s : state) :
  id ≠ ""%string →
  (jobs s !! id = None ∨ ∃ l j, registered s id l j ∧ status j = Pending) →
  ∃ l j, registered (initJob (Some id) s).2 id l j ∧ status j = Pending.
Proof.
  intros Hid Hs. unfold initJob. apply truthy_Some in Hid. rewrite Hid.
  destruct Hs as [Hnone|(l & j & [Hl Hj] & Hst)].
  - rewrite Hnone. eexists _, new_job. split; [|done].
    split; simpl; by rewrite lookup_insert_eq.
  - rewrite Hl. by exists l, j.
Qed.

Lemma calm_registered (s s' : state) (id : string) (l : loc) (j : job) :
  calm s s' → registered s id l j →
  ∃ j', registered s' id l j'
        ∧ status j' = status j ∧ subscribers j' = subscribers j.
Proof.
  intros (_ & _ & Hjobs & Hobjs & _) [Hl Hj].
  destruct (Hobjs l j Hj) as (j' & Hj' & Hst & Hsub).
  exists j'. split_and!; try done. split; eauto.
Qed.

Lemma calmly_ret {A} (a : A) : calmly (ret a).
Proof. intros s. apply calm_refl. Qed.

Lemma calmly_mret {A} (a : A) : calmly (mret a : M A).
Proof. intros s. apply calm_refl. Qed.

Lemma calmly_await {A} (o : outcome A) : calmly (await o).
Proof. intros s. apply calm_refl. Qed.

Lemma calmly_progress_msg (jobId : option string) (p : Z) (msg : string) :
  calmly (progress_msg jobId p msg).
Proof. intros s. apply calm_updateProgress. Qed.

Lemma calmly_bind {A B} (m : M A) (f : A → M B) :
  calmly m → (∀ a, calmly (f a)) → calmly (m ≫= f).
Proof.
  intros Hm Hf s. unfold mbind, M_bind, bind.
  specialize (Hm s). destruct (m s) as [[a|e] s1]; simpl in *; [|done].
  eapply calm_trans; [done|apply Hf].
Qed.

Lemma calmly_try_catch {A} (m : M A) (h : string → M A) :
  calmly m → (∀ e, calmly (h e)) → calmly (try_catch m h).
Proof.
  intros Hm Hh s. unfold try_catch.
  specialize (Hm s). destruct (m s) as [[a|e] s1]; simpl in *; [done|].
  eapply calm_trans; [done|apply Hh].
Qed.

Lemma calmly_try_finally {A} (m : M A) (f : M unit) :
  calmly m → calmly f → calmly (try_finally m f).
Proof.
  intros Hm Hf s. unfold try_finally.
  specialize (Hm s). destruct (m s) as [[a|e] s1]; simpl in *;
    specialize (Hf s1); destruct (f s1) as [[[]|e'] s2]; simpl in *;
    by eapply calm_trans.
Qed.

Lemma calmly_render_one (w : collaborators) (o : options) (total i : nat)
    (d : diagram) (pc : text) :
  calmly (render_one w o total i d pc).
Proof.
  intros s. rewrite render_one_run.
  destruct (renderMermaidToImage w i (code d)); simpl; [|apply calm_refl].
  destruct (0 <? total)%nat; [apply calm_updateProgress|apply calm_refl].
Qed.

Lemma calmly_render_loop (w : collaborators) (o : options)
    (ds : list diagram) (k : nat) (pc : text) :
  calmly (render_loop w o ds k pc).
Proof.
  revert pc. induction k as [|i IH]; intros pc; cbn [render_loop].
  - apply calmly_ret.
  - destruct (ds !! i); [|apply IH].
    apply calmly_bind; [apply calmly_render_one|apply IH].
Qed.

Lemma calmly_processMermaidDiagrams (w : collaborators) (md : text)
    (format : string) (o : options) :
  calmly (processMermaidDiagrams w md format o).
Proof.
  unfold processMermaidDiagrams. destruct (String.eqb format "html").
  - apply calmly_bind; [|intros; apply calmly_ret].
    intros s. apply calm_updateProgress.
  - apply calmly_render_loop.
Qed.

Ltac calmly_steps :=
  repeat first
    [ apply calmly_progress_msg
    | apply calmly_processMermaidDiagrams
    | apply calmly_await
    | apply calmly_ret
    | apply calmly_mret
    | apply calmly_try_finally
    | apply calmly_bind
    | intros ? ].

Lemma calmly_convertToHTML (w : collaborators) (md : text) (filename : string)
    (jobId : option string) :
  calmly (convertToHTML w md filename jobId).
Proof. unfold convertToHTML. calmly_steps. Qed.

Lemma calmly_convertToPDF (w : collaborators) (md : text) (filename : string)
    (jobId : option string) :
  calmly (convertToPDF w md filename jobId).
Proof. unfold convertToPDF. calmly_steps. Qed.

Lemma calmly_convertToDOCX (w : collaborators) (md : text) (filename : string)
    (jobId : option string) :
  calmly (convertToDOCX w md filename jobId).
Proof. unfold convertToDOCX. calmly_steps. Qed.

Lemma calm_throw_calmly {A} (m : M A) : calmly m → calm_throw m.
Proof. intros Hm s e s' Hs. specialize (Hm s). by rewrite Hs in Hm. Qed.

Lemma calm_throw_bind {A B} (m : M A) (f : A → M B) :
  calmly m → (∀ a, calm_throw (f a)) → calm_throw (m ≫= f).
Proof.
  intros Hm Hf s e s'. unfold mbind, M_bind, bind.
  specialize (Hm s). destruct (m s) as [[a|e'] s1]; simpl in *.
  - intros Hfa. eapply calm_trans; [done|by eapply Hf].
  - by intros [= <- <-].
Qed.

Lemma calm_throw_act_ret {A} (f : state → state) (a : A) :
  calm_throw (act f ≫= λ _, mret a).
Proof. intros s e s'. by unfold mbind, M_bind, bind, act. Qed.

Lemma never_500_bind {A} (m : M A) (f : A → M response) :
  (∀ a, never_500 (f a)) → never_500 (m ≫= f).
Proof.
  intros Hf s r s'. unfold mbind, M_bind, bind.
  destruct (m s) as [[a|e] s1]; [|done]. apply Hf.
Qed.

Lemma never_500_ret (r : response) :
  (∀ msg, r ≠ Json 500 msg) → never_500 (mret r).
Proof. intros Hr s r' s' [= <- <-]. done. Qed.

(** With no callback pending the event loop only lets time pass. *)
Lemma step_quiet (s s' : state) (id : string) (l : loc) (j : job) :
  quiet s id l (subscribers j) → registered s id l j → step s s' →
  quiet s' id l (subscribers j) ∧ registered s' id l j
  ∧ ∀ r, r ∈ subscribers j → streams s' !! r = streams s !! r.
Proof.
  intros Hquiet Hreg Hstep.
  destruct Hstep as [s d Hd|s pre t k post Ht Hdue].
  - split_and!; [|done|done].
    eapply Forall_impl; [exact Hquiet|]. intros tk.
    apply foreign_mono. by apply (same_objs_mono s _ l).
  - unfold quiet in Hquiet. rewrite Ht in Hquiet.
    apply Forall_app in Hquiet as [Hpre Hpost].
    apply Forall_cons in Hpost as [Hk Hpost].
    set (s0 := with_timers (pre ++ post) s) in *.
    change (foreign s id l (subscribers j) (t, k).2)
      with (foreign s0 id l (subscribers j) k) in Hk.
    destruct (foreign_run_task s0 id l (subscribers j) k Hk)
      as (Hjobs & Hobj & Hstr & Hnow & (ts & Htimers & Hnew) & Hmono).
    destruct Hreg as [Hl Hj]. split_and!.
    + unfold quiet. rewrite Htimers. apply Forall_app. split.
      * eapply Forall_impl; [apply Forall_app; split; [exact Hpre|exact Hpost]|].
        intros tk. apply foreign_mono. exact Hmono.
      * eapply Forall_impl; [exact Hnew|].
        intros tk (id' & Htk & Hid'). by rewrite Htk.
    + split; [by rewrite Hjobs|by rewrite Hobj].
    + exact Hstr.
Qed.

(** While no pending callback concerns a job, the job and the streams of
    its subscribers stay as they are, whatever the event loop runs. *)
Lemma steps_quiet (s s' : state) (id : string) (l : loc) (j : job) :
  quiet s id l (subscribers j) → registered s id l j → steps s s' →
  quiet s' id l (subscribers j) ∧ registered s' id l j
  ∧ ∀ r, r ∈ subscribers j → streams s' !! r = streams s !! r.
Proof.
  intros Hquiet Hreg Hsteps. induction Hsteps as [s|s s2 s3 Hstep _ IH];
    [done|].
  destruct (step_quiet s s2 id l j Hquiet Hreg Hstep) as (Hq2 & Hr2 & Hs2).
  destruct (IH Hq2 Hr2) as (Hq3 & Hr3 & Hs3). split_and!; [done|done|].
  intros r Hr. by rewrite Hs3, Hs2.
Qed.

(** ** POST /convert *)

(** The state once the upload has been acknowledged. *)
Lemma upload_received_run (jobId : option string) (s : state) :
  (if truthy jobId
   then act (λ s, (initJob jobId s).2);; progress_msg jobId 1 "Upload received"
   else mret tt) s
  = (Returns tt,
     if truthy jobId
     then updateProgress jobId (inject_Z 1) (Some "Upload received"%string)
            (initJob jobId s).2
     else s).
Proof. by destruct (truthy jobId). Qed.

(** An answer with status 500 comes from the [catch] block, and up to the
    throw the handler has been calm since the upload was acknowledged. *)
Lemma convert_handler_500 (w : collaborators) (req : request) (s : state)
    (msg : string) (sf : state) :
  convert_handler w req s = (Returns (Json 500 msg), sf) →
  ∃ s',
    calm (let jobId := or_null (body_jobId req) in
          if truthy jobId
          then updateProgress jobId (inject_Z 1)
                 (Some "Upload received"%string) (initJob jobId s).2
          else s) s'
    ∧ sf = updateProgress (body_jobId req) (inject_Z 100)
             (Some "Error"%string) s'.
Proof.
  unfold convert_handler, try_catch.
  destruct (file req) as [f|]; [|done].
  match goal with
  | |- context [(?u ≫= ?k) s] => set (U := u); set (K := k)
  end.
  assert (Hnever : never_500 (U ≫= K)).
  { apply never_500_bind. intros []. unfold K.
    destruct (negb (supported (body_format req)));
      [by apply never_500_ret|].
    apply never_500_bind; intros md.
    apply never_500_bind; intros _.
    apply never_500_bind; intros [[result contentType] fileExtension].
    apply never_500_bind; intros _.
    by apply never_500_ret. }
  assert (Hthrow : calm_throw (K ())).
  { unfold K. destruct (negb (supported (body_format req))).
    - by intros ????.
    - apply calm_throw_bind; [apply calmly_await|]. intros md.
      apply calm_throw_bind; [apply calmly_progress_msg|]. intros _.
      apply calm_throw_bind.
      + repeat case_match;
          (apply calmly_bind;
           [first [apply calmly_convertToHTML | apply calmly_convertToPDF
                  | apply calmly_convertToDOCX]
           |intros; apply calmly_mret]).
      + intros [[result contentType] fileExtension].
        apply calm_throw_act_ret. }
  destruct ((U ≫= K) s) as [[r|e] s'] eqn:Hbody.
  - intros [= -> ->]. by destruct (Hnever _ _ _ Hbody msg).
  - intros Hcatch. exists s'. split.
    + unfold mbind, M_bind, bind in Hbody. unfold U in Hbody.
      rewrite upload_received_run in Hbody.
      by apply Hthrow in Hbody.
    + unfold mbind, M_bind, bind, progress_msg, act in Hcatch. simpl in Hcatch.
      by injection Hcatch as _ <-.
Qed.

Lemma or_null_Some (id : string) :
  id ≠ ""%string → or_null (Some id) = Some id.
Proof. intros Hid. unfold or_null. by apply truthy_Some in Hid as ->. Qed.

(** C10.  When the handler answers with status 500, which it does from its
    [catch] block only, and the request names a job that was not there or was
    pending, the job is in the registry with progress 100 and message Error
    and is still pending, and the event 100, Error is the last one written
    to each of its live subscribers; no callback has been registered, no
    stream has been ended and no job has left the registry.  So nothing the
    event loop does later, the callbacks of other jobs included, touches the
    job, ends a stream of a subscriber of it or takes it out of the
    registry.  The premise [quiet] is that no callback of a completion of
    this very job is pending, as is the case when every conversion request
    carries an id of its own ([one_conversion_per_id]). *)
Theorem failed_conversion_leaves_job_pending (w : collaborators)
    (req : request) (s : state) (id msg : string) (sf : state) :
  body_jobId req = Some id → id ≠ ""%string →
  (jobs s !! id = None ∨ ∃ l j, registered s id l j ∧ status j = Pending) →
  convert_handler w req s = (Returns (Json 500 msg), sf) →
  (∃ l j', registered sf id l j'
           ∧ progress j' = 100 ∧ message j' = "Error"%string
           ∧ status j' = Pending
           ∧ (∀ j, registered s id l j → subscribers j' = subscribers j)
           ∧ (∀ j r c, registered s id l j → r ∈ subscribers j →
                       streams s !! r = Some c → live c →
                       ∃ c', streams sf !! r = Some c' ∧ live c'
                             ∧ last (sent c') = Some (Data 100 "Error"))
           ∧ (quiet sf id l (subscribers j') →
              ∀ s2, steps sf s2 →
                registered s2 id l j'
                ∧ ∀ r, r ∈ subscribers j' →
                       streams s2 !! r = streams sf !! r))
  ∧ timers sf = timers s
  ∧ (∀ r c, streams s !! r = Some c →
            ∃ c', streams sf !! r = Some c' ∧ ended c' = ended c)
  ∧ (∀ id' l', jobs s !! id' = Some l' → jobs sf !! id' = Some l').
Proof.
  intros Hjid Hid Hs Hrun.
  destruct (convert_handler_500 w req s msg sf Hrun) as (s' & Hcalm & Hsf).
  rewrite Hjid in Hcalm, Hsf. rewrite (or_null_Some id Hid) in Hcalm.
  cbv zeta in Hcalm.
  rewrite (proj2 (truthy_Some id) Hid) in Hcalm.
  set (si := (initJob (Some id) s).2) in *.
  set (su := updateProgress (Some id) (inject_Z 1)
               (Some "Upload received"%string) si) in *.
  destruct (initJob_registered id s Hid Hs) as (l & j0 & Hregi & Hst0).
  fold si in Hregi.
  pose proof (updateProgress_job si id l j0 (inject_Z 1)
                (Some "Upload received"%string) Hid Hregi) as Hregu.
  fold su in Hregu.
  destruct (calm_registered su s' id l _ Hcalm Hregu)
    as (j' & Hreg' & Hst' & Hsub').
  pose proof (updateProgress_job s' id l j' (inject_Z 100)
                (Some "Error"%string) Hid Hreg') as Hregf.
  rewrite <- Hsf in Hregf. rewrite clamp_inject_Z in Hregf by lia.
  assert (Hpre : calm s s').
  { apply (calm_trans s si); [apply calm_initJob|].
    apply (calm_trans si su); [apply calm_updateProgress|done]. }
  assert (Hall : calm s sf).
  { apply (calm_trans s s'); [done|].
    rewrite Hsf. apply calm_updateProgress. }
  assert (Hsubs : ∀ j, registered s id l j → subscribers j' = subscribers j).
  { intros j [Hl Hjo]. rewrite Hsub'. simpl.
    assert (Hcs : calm s si) by apply calm_initJob.
    destruct Hcs as (_ & _ & _ & Ho' & _).
    destruct (Ho' l j Hjo) as (j1 & Hj1 & _ & Hsub1).
    destruct Hregi as [_ Hj0]. congruence. }
  destruct Hall as (Ht & _ & Hj & Ho & Hstr).
  split_and!.
  - eexists l, _. split; [exact Hregf|]. cbn [progress message status subscribers].
    split; [done|]. split; [done|]. split; [by rewrite Hst'|].
    split; [exact Hsubs|]. split.
    + intros j r c Hreg Hr Hc Hlive.
      destruct Hpre as (_ & _ & _ & _ & Hstr0).
      destruct (Hstr0 r c Hc) as (c1 & Hc1 & He1 & Hb1).
      assert (Hlive1 : live c1) by (destruct Hlive; split; congruence).
      assert (Hr1 : r ∈ subscribers j') by (by rewrite (Hsubs j Hreg)).
      pose proof (updateProgress_stream s' id l j' (inject_Z 100)
                    (Some "Error"%string) r c1 Hid Hreg' Hr1 Hc1 Hlive1)
        as Hf1.
      rewrite <- Hsf in Hf1. rewrite clamp_inject_Z in Hf1 by lia.
      eexists. split; [exact Hf1|]. split; [by apply push_live|].
      simpl. by rewrite last_snoc.
    + intros Hquiet s2 Hsteps.
      match type of Hregf with
      | registered _ _ _ ?jf =>
          destruct (steps_quiet sf s2 id l jf Hquiet Hregf Hsteps)
            as (_ & Hreg2 & Hstr2)
      end.
      split; [exact Hreg2|exact Hstr2].
  - done.
  - intros r c Hr. destruct (Hstr r c Hr) as (c' & Hc' & He & _). eauto.
  - done.
Qed.

(** A request without a file is turned down before the tracker is
    touched. *)
Lemma missing_file_touches_nothing (w : collaborators) (req : request)
    (s : state) :
  file req = None →
  convert_handler w req s = (Returns (Json 400 "No file uploaded"), s).
Proof. intros H. unfold convert_handler, try_catch. by rewrite H. Qed.

(** A request with a file and an unknown format is turned down after the
    upload has been acknowledged to the tracker. *)
Lemma invalid_format_run (w : collaborators) (req : request) (f : upload)
    (s : state) :
  file req = Some f → supported (body_format req) = false →
  convert_handler w req s
  = (Returns (Json 400 "Invalid format"),
     let jobId := or_null (body_jobId req) in
     if truthy jobId
     then updateProgress jobId (inject_Z 1) (Some "Upload received"%string)
            (initJob jobId s).2
     else s).
Proof.
  intros Hf Hfmt. unfold convert_handler, try_catch. rewrite Hf. cbv zeta.
  unfold mbind at 1, M_bind, bind. rewrite upload_received_run, Hfmt.
  reflexivity.
Qed.

(** C5, on the code.  The request names job j1 and asks for the format txt.
    Sent to a server that has no such job, it is answered with status 400
    and leaves job j1 in the registry, at progress 1 with the message
    Upload received; sent to a server where a client listens to job j1, it
    moves the job from progress 0 to progress 1 and writes the event to the
    client. *)
Theorem invalid_format_touches_registry :
  jobs empty_state !! "j1"%string = None
  ∧ (convert_handler (sample_world two_diagrams (λ _, false))
       invalid_format_request empty_state).1
    = Returns (Json 400 "Invalid format")
  ∧ job_view "j1"
      (convert_handler (sample_world two_diagrams (λ _, false))
         invalid_format_request empty_state).2
    = Some (1, "Upload received"%string, [], Pending)
  ∧ job_view "j1" sample_state = Some (0, "Starting"%string, [7%nat], Pending)
  ∧ job_view "j1"
      (convert_handler (sample_world two_diagrams (λ _, false))
         invalid_format_request sample_state).2
    = Some (1, "Upload received"%string, [7%nat], Pending)
  ∧ sent <$> streams
               (convert_handler (sample_world two_diagrams (λ _, false))
                  invalid_format_request sample_state).2 !! 7%nat
    = Some [Retry 1500; Data 0 "Starting"; Data 1 "Upload received"].
Proof. split_and!; vm_compute; reflexivity. Qed.

(** ** The properties at sample inputs *)

Lemma rewrite_keeps_text_outside_spans_witness :
  "pdf"%string ≠ "html"%string
  ∧ two_diagrams
    = interleave (outside two_diagrams 0 (extract two_diagrams))
        (original <$> extract two_diagrams)
  ∧ (processMermaidDiagrams last_fails two_diagrams "pdf" sample_options
       sample_state).1
    = Returns (interleave (outside two_diagrams 0 (extract two_diagrams))
                 (imap (replacement last_fails) (extract two_diagrams))).
Proof.
  split; [discriminate|].
  apply (rewrite_keeps_text_outside_spans last_fails two_diagrams "pdf"
           sample_options sample_state).
  discriminate.
Defined.

Lemma extract_fenced_blocks_witness :
  well_fenced sample_blocks
  ∧ free_of opener (units " C ") ∧ free_of fence (units "graph TD")
  ∧ extract (document sample_blocks sample_tail) = occurrences 0 sample_blocks
  ∧ length (extract (document sample_blocks sample_tail)) = 2%nat
  ∧ code <$> extract (document sample_blocks sample_tail)
    = [units "X"; units "Y"]
  ∧ ∃ d, extract (document sample_blocks sample_tail) !! 1%nat = Some d
         ∧ (∃ l r, units "  Y " ++ [LF] = l ++ code d ++ r
                   ∧ Forall (λ c, c ∈ whitespace) l
                   ∧ Forall (λ c, c ∈ whitespace) r)
         ∧ (∀ c, head (code d) = Some c → c ∉ whitespace)
         ∧ (∀ c, last (code d) = Some c → c ∉ whitespace).
Proof.
  assert (Hwf : well_fenced sample_blocks).
  { repeat constructor; vm_compute; reflexivity. }
  assert (Hg : free_of opener (units " C ")) by (vm_compute; reflexivity).
  assert (Hr : free_of fence (units "graph TD")) by (vm_compute; reflexivity).
  split; [exact Hwf|]. split; [exact Hg|]. split; [exact Hr|].
  pose proof (extract_fenced_blocks sample_blocks sample_tail Hwf
                (or_intror (ex_intro _ (units " C ")
                   (ex_intro _ (units "graph TD")
                      (conj eq_refl (conj Hg Hr)))))) as H.
  cbv zeta in H. destruct H as (H1 & H2 & H3 & _).
  split; [exact H1|]. split; [exact H2|].
  split; [vm_compute; reflexivity|].
  destruct (H3 1%nat (units " B ") (units "  Y " ++ [LF]) eq_refl)
    as (d & Hd & _ & _ & Hsplit & Hhead & Hlast & _).
  exists d. split; [exact Hd|]. split; [exact Hsplit|].
  split; [exact Hhead|exact Hlast].
Defined.

Lemma failed_render_keeps_fenced_block_witness :
  "pdf"%string ≠ "html"%string
  ∧ renderMermaidToImage first_fails 0 (units "X") = Throws "render timeout"
  ∧ renderMermaidToImage first_fails 1 (units "Y") = Returns (units "iVBOR")
  ∧ (processMermaidDiagrams first_fails two_diagrams "pdf" sample_options
       sample_state).1
    = Returns (units "A " ++ opener ++ units "X" ++ [LF] ++ fence
               ++ units " B " ++ imageTag (units "iVBOR") ++ units " C").
Proof.
  split; [discriminate|]. split; [reflexivity|]. split; [reflexivity|].
  apply (proj2 (failed_render_keeps_fenced_block first_fails two_diagrams
                  "pdf" sample_options sample_state ltac:(discriminate))
           eq_refl "render timeout"%string (units "iVBOR"));
    reflexivity.
Defined.

Lemma rendering_phase_progress_witness :
  "pdf"%string ≠ "html"%string
  ∧ (processMermaidDiagrams last_fails two_diagrams "pdf" sample_options
       sample_state).2
    = apply_updates (Some "j1"%string)
        (rendered_updates last_fails sample_options (extract two_diagrams))
        sample_state
  ∧ rendered_updates last_fails sample_options (extract two_diagrams)
    = [(60, "Rendered diagram 2/2"%string)].
Proof.
  split; [discriminate|]. split; [|vm_compute; reflexivity].
  apply (rendering_phase_progress last_fails two_diagrams "pdf"
           sample_options sample_state).
  discriminate.
Defined.

Lemma updateProgress_spec_witness :
  registered sample_state "j1" 0%nat sample_job
  ∧ objs (updateProgress (Some "j1"%string) (7 # 2) (Some "Half way"%string)
            sample_state) !! 0%nat
    = Some {| progress := clamp (7 # 2);
              message := new_message (Some "Half way"%string)
                           (message sample_job);
              subscribers := subscribers sample_job;
              status := status sample_job |}
  ∧ clamp (7 # 2) = 3
  ∧ updateProgress None (7 # 2) (Some "Half way"%string) sample_state
    = sample_state.
Proof.
  assert (Hreg : registered sample_state "j1" 0%nat sample_job)
    by (split; vm_compute; reflexivity).
  split; [exact Hreg|].
  destruct (updateProgress_spec sample_state (Some "j1"%string) (7 # 2)
              (Some "Half way"%string)) as [H _].
  specialize (H "j1"%string 0%nat sample_job eq_refl ltac:(discriminate) Hreg).
  cbv zeta in H. destruct H as (H1 & _).
  split; [exact H1|]. split; [reflexivity|].
  apply (proj2 (updateProgress_spec sample_state None (7 # 2)
                  (Some "Half way"%string))).
  left. reflexivity.
Defined.

Lemma updateProgress_may_regress_witness :
  "j1"%string ≠ ""%string
  ∧ registered sample_state "j1" 0%nat sample_job
  ∧ 0 ≤ 20 ∧ 20 < 50 ∧ 50 ≤ 100
  ∧ ∃ j2,
      registered
        (updateProgress (Some "j1"%string) (inject_Z 20) None
           (updateProgress (Some "j1"%string) (inject_Z 50) None sample_state))
        "j1" 0%nat j2
      ∧ progress j2 = 20 ∧ progress j2 < 50.
Proof.
  assert (Hreg : registered sample_state "j1" 0%nat sample_job)
    by (split; vm_compute; reflexivity).
  split; [discriminate|]. split; [exact Hreg|].
  split; [lia|]. split; [lia|]. split; [lia|].
  pose proof (updateProgress_may_regress sample_state "j1" 0%nat sample_job
                50 20 None None ltac:(discriminate) Hreg
                ltac:(lia) ltac:(lia) ltac:(lia)) as H.
  cbv zeta in H. destruct H as (_ & H & _). exact H.
Defined.

Lemma busy_state_quiet :
  quiet busy_state "j1" 0%nat (subscribers sample_job).
Proof.
  assert (Ht : timers busy_state = [(250, CloseSubscribers 1%nat "j0")])
    by (vm_compute; reflexivity).
  assert (Hobj : objs busy_state !! 1%nat = Some other_job)
    by (vm_compute; reflexivity).
  unfold quiet. rewrite Ht.
  apply Forall_cons. split; [|apply Forall_nil_2].
  split; [discriminate|]. split; [discriminate|].
  intros j' Hj'.
  assert (He : Some other_job = Some j') by (rewrite <- Hj'; exact (eq_sym Hobj)).
  injection He as <-.
  intros r H3 H7.
  apply (proj1 (elem_of_singleton r 3%nat)) in H3.
  apply (proj1 (elem_of_singleton r 7%nat)) in H7.
  rewrite H3 in H7. discriminate H7.
Defined.

Lemma completeJob_timeline_witness :
  "j1"%string ≠ ""%string
  ∧ registered busy_state "j1" 0%nat sample_job
  ∧ timers busy_state = [(250, CloseSubscribers 1%nat "j0")]
  ∧ quiet busy_state "j1" 0%nat (subscribers sample_job)
  ∧ registered (completeJob (Some "j1"%string) busy_state) "j1" 0%nat
      {| progress := 100; message := "Done";
         subscribers := subscribers sample_job; status := Done |}
  ∧ timers (completeJob (Some "j1"%string) busy_state)
    = timers busy_state
      ++ [(now busy_state + 250, CloseSubscribers 0%nat "j1")]
  ∧ steps (completeJob (Some "j1"%string) busy_state) busy_later
  ∧ now busy_later = 250
  ∧ jobs busy_later !! "j1"%string = Some 0%nat.
Proof.
  assert (Hreg : registered busy_state "j1" 0%nat sample_job)
    by (split; vm_compute; reflexivity).
  assert (Hsteps : steps (completeJob (Some "j1"%string) busy_state)
                     busy_later).
  { eapply rtc_l;
      [apply (step_tick (completeJob (Some "j1"%string) busy_state) 250);
       lia|].
    eapply rtc_l; [|apply rtc_refl].
    apply (step_fire _ [] 250 (CloseSubscribers 1%nat "j0")
             [(250, CloseSubscribers 0%nat "j1")]).
    - vm_compute; reflexivity.
    - vm_compute; discriminate. }
  assert (Hnow : now busy_later = 250) by (vm_compute; reflexivity).
  split; [discriminate|]. split; [exact Hreg|].
  split; [vm_compute; reflexivity|]. split; [exact busy_state_quiet|].
  pose proof (completeJob_timeline busy_state "j1" 0%nat sample_job
                ltac:(discriminate) Hreg) as H.
  cbv zeta in H. destruct H as (H1 & _ & _ & H4 & H5 & _).
  split; [exact H1|]. split; [exact H4|]. split; [exact Hsteps|].
  split; [exact Hnow|].
  apply (proj2 (H5 busy_state_quiet busy_later Hsteps)).
  rewrite Hnow. vm_compute. reflexivity.
Defined.

Lemma failed_conversion_leaves_job_pending_witness :
  body_jobId docx_request = Some "j1"%string
  ∧ "j1"%string ≠ ""%string
  ∧ registered busy_state "j1" 0%nat sample_job
  ∧ timers busy_state = [(250, CloseSubscribers 1%nat "j0")]
  ∧ convert_handler first_fails docx_request busy_state
    = (Returns (Json 500 "Conversion failed: docx engine"), failed_state)
  ∧ registered failed_state "j1" 0%nat failed_job
  ∧ timers failed_state = timers busy_state
  ∧ quiet failed_state "j1" 0%nat (subscribers failed_job)
  ∧ (∃ c', streams failed_state !! 7%nat = Some c' ∧ live c'
           ∧ last (sent c') = Some (Data 100 "Error"))
  ∧ steps failed_state failed_later
  ∧ timers failed_later = [(60250, DeleteJob "j0")]
  ∧ registered failed_later "j1" 0%nat failed_job
  ∧ streams failed_later !! 7%nat = streams failed_state !! 7%nat.
Proof.
  assert (Hreg : registered busy_state "j1" 0%nat sample_job)
    by (split; vm_compute; reflexivity).
  assert (Hrun : convert_handler first_fails docx_request busy_state
                 = (Returns (Json 500 "Conversion failed: docx engine"),
                    failed_state))
    by (vm_compute; reflexivity).
  assert (Hregf : registered failed_state "j1" 0%nat failed_job)
    by (split; vm_compute; reflexivity).
  assert (Hc : streams busy_state !! 7%nat = Some sample_stream)
    by (vm_compute; reflexivity).
  assert (Hr : 7%nat ∈ subscribers sample_job)
    by (apply (proj2 (elem_of_singleton 7%nat 7%nat)); reflexivity).
  assert (Hquiet : quiet failed_state "j1" 0%nat (subscribers failed_job)).
  { assert (Ht : timers failed_state = [(250, CloseSubscribers 1%nat "j0")])
      by (vm_compute; reflexivity).
    assert (Hobj : objs failed_state !! 1%nat = Some other_job)
      by (vm_compute; reflexivity).
    unfold quiet. rewrite Ht.
    apply Forall_cons. split; [|apply Forall_nil_2].
    split; [discriminate|]. split; [discriminate|].
    intros j' Hj'.
    assert (He : Some other_job = Some j')
      by (rewrite <- Hj'; exact (eq_sym Hobj)).
    injection He as <-. intros r H3 H7.
    apply (proj1 (elem_of_singleton r 3%nat)) in H3.
    apply (proj1 (elem_of_singleton r 7%nat)) in H7.
    rewrite H3 in H7. discriminate H7. }
  assert (Hsteps : steps failed_state failed_later).
  { eapply rtc_l; [apply (step_tick failed_state 250); lia|].
    eapply rtc_l; [|apply rtc_refl].
    apply (step_fire _ [] 250 (CloseSubscribers 1%nat "j0") []).
    - vm_compute; reflexivity.
    - vm_compute; discriminate. }
  split; [reflexivity|]. split; [discriminate|]. split; [exact Hreg|].
  split; [vm_compute; reflexivity|]. split; [exact Hrun|].
  split; [exact Hregf|].
  destruct (failed_conversion_leaves_job_pending first_fails docx_request
              busy_state "j1" "Conversion failed: docx engine" failed_state
              eq_refl ltac:(discriminate)
              (or_intror (ex_intro _ 0%nat
                            (ex_intro _ sample_job (conj Hreg eq_refl))))
              Hrun)
    as ((l & j' & Hreg' & _ & _ & _ & _ & Hevent & Hlater) & Ht & _).
  assert (Hl : l = 0%nat).
  { destruct Hreg' as [Hl' _]. destruct Hregf as [Hl0 _].
    rewrite Hl0 in Hl'. by injection Hl' as <-. }
  subst l.
  assert (Hj : j' = failed_job).
  { destruct Hreg' as [_ Hj']. destruct Hregf as [_ Hj0].
    rewrite Hj0 in Hj'. by injection Hj' as <-. }
  subst j'.
  split; [exact Ht|]. split; [exact Hquiet|].
  split; [exact (Hevent sample_job 7%nat sample_stream Hreg Hr Hc
                   (conj eq_refl eq_refl))|].
  split; [exact Hsteps|]. split; [vm_compute; reflexivity|].
  destruct (Hlater Hquiet failed_later Hsteps) as [Hreg2 Hstr2].
  split; [exact Hreg2|]. apply Hstr2.
  apply (proj2 (elem_of_singleton 7%nat 7%nat)). reflexivity.
Defined.

Lemma html_passes_through_witness :
  marked first_fails two_diagrams = Returns two_diagrams
  ∧ processMermaidDiagrams first_fails two_diagrams "html" sample_options
      sample_state
    = (Returns two_diagrams,
       updateProgress (Some "j1"%string) (inject_Z 5)
         (Some "Parsing markdown"%string) sample_state)
  ∧ (convertToHTML first_fails two_diagrams "notes" (Some "j1"%string)
       sample_state).1
    = Returns (html_page first_fails "notes" two_diagrams).
Proof.
  split; [reflexivity|].
  destruct (html_passes_through first_fails two_diagrams sample_options
              sample_state) as [H1 H2].
  split; [exact H1|].
  apply (H2 "notes"%string (Some "j1"%string) two_diagrams). reflexivity.
Defined.

(** * Further properties of the extractor and the rewriter *)

Lemma find_first_app_inv (p s r : text) (k : nat) :
  find_first p (s ++ r) = Some k → (k + length p ≤ length s)%nat →
  find_first p s = Some k.
Proof.
  intros (Hk & _ & Hlt)%find_first_Some Hlen. apply find_first_intro.
  - rewrite drop_app_le in Hk by lia.
    rewrite starts_with_app_l in Hk; [done|]. rewrite length_drop. lia.
  - intros j Hj. specialize (Hlt j Hj). rewrite drop_app_le in Hlt by lia.
    rewrite starts_with_app_l in Hlt; [done|]. rewrite length_drop. lia.
Qed.

Lemma find_first_is_Some (p s : text) (k : nat) :
  starts_with p (drop k s) = true → is_Some (find_first p s).
Proof.
  intros Hk. destruct (find_first p s) eqn:Hf; [done|].
  by rewrite (find_first_None p s k Hf) in Hk.
Qed.

Lemma exec_loop_elem (fuel : nat) (md : text) (lastIndex : nat) (d : diagram) :
  d ∈ exec_loop fuel md lastIndex →
  ∃ m li, regex_exec md li = Some m ∧ d = diagram_of m.
Proof.
  revert lastIndex. induction fuel as [|fuel IH]; intros lastIndex; simpl.
  - by intros ?%elem_of_nil.
  - destruct (regex_exec md lastIndex) as [m|] eqn:Hm;
      [|by intros ?%elem_of_nil].
    intros [->|Hin]%elem_of_cons; [by eexists _, _|by eapply IH].
Qed.

(** Whatever the document, an occurrence is a fenced block of it: the
    opening line, an interior that the first fence behind the opening line
    closes, and that fence; it lies inside the document at its offset; its
    code is the trimmed interior; and two occurrences do not overlap. *)
Theorem extract_sound (md : text) :
  (∀ i d,
     extract md !! i = Some d →
     ∃ b, original d = opener ++ b ++ fence
          ∧ closed_interior b
          ∧ code d = trim b
          ∧ (index d + length (original d) ≤ length md)%nat
          ∧ take (length (original d)) (drop (index d) md) = original d)
  ∧ (∀ i j di dj,
       (i < j)%nat → extract md !! i = Some di → extract md !! j = Some dj →
       (index di + length (original di) ≤ index dj)%nat).
Proof.
  split.
  - intros i d Hd.
    assert (Hin : d ∈ extract md) by (by eapply list_elem_of_lookup_2).
    destruct (exec_loop_elem _ _ _ _ Hin) as (m & li & Hm & ->).
    pose proof (regex_exec_Some _ _ _ Hm) as (_ & Hlen & Htake & _).
    unfold regex_exec in Hm.
    apply search_Some in Hm as (k & _ & Hm & _).
    apply match_here_Some in Hm as (_ & H0 & Hs & Hf).
    exists (m_1 m). cbn [diagram_of original code index].
    split_and!; try done.
    unfold closed_interior.
    set (t := drop k (drop li md)) in *.
    assert (Ht : drop (length opener) t
                 = (m_1 m ++ fence) ++ drop (length (m_0 m)) t).
    { rewrite Hs at 1. rewrite H0 at 1. rewrite <- !app_assoc.
      by rewrite drop_app_length. }
    rewrite Ht in Hf. apply (find_first_app_inv _ _ _ _ Hf).
    rewrite length_app. lia.
  - intros i j di dj.
    apply (spans_from_ascending md 0 (extract md)), extract_spans.
Qed.

(** A document yields no diagram exactly when it holds no opening line with
    a fence somewhere behind it. *)
Theorem extract_nil_iff (md : text) :
  extract md = [] ↔ ¬ ∃ g b rest, md = g ++ opener ++ b ++ fence ++ rest.
Proof.
  split.
  - intros Hnil (g & b & rest & ->).
    unfold extract in Hnil. cbn [exec_loop] in Hnil.
    destruct (regex_exec _ 0) as [m|] eqn:Hm; [done|]. clear Hnil.
    unfold regex_exec in Hm. rewrite drop_0 in Hm.
    pose proof (search_None _ 0 (length g) Hm) as Hno.
    rewrite drop_app_length in Hno. unfold match_here in Hno.
    rewrite starts_with_app, drop_app_length in Hno.
    destruct (find_first_is_Some fence (b ++ fence ++ rest) (length b))
      as [k Hk].
    + rewrite drop_app_length. apply starts_with_app.
    + by rewrite Hk in Hno.
  - intros Hno. unfold extract. cbn [exec_loop].
    destruct (regex_exec md 0) as [m|] eqn:Hm; [|done].
    exfalso. apply Hno.
    pose proof (regex_exec_Some _ _ _ Hm) as (_ & Hlen & Htake & _).
    unfold regex_exec in Hm.
    apply search_Some in Hm as (k & _ & Hm & _).
    apply match_here_Some in Hm as (_ & H0 & _ & _).
    exists (take (m_index m) md), (m_1 m),
      (drop (length (m_0 m)) (drop (m_index m) md)).
    rewrite <- (take_drop (m_index m) md) at 1. f_equal.
    rewrite <- (take_drop (length (m_0 m)) (drop (m_index m) md)) at 1.
    rewrite <- Htake, H0. by rewrite <- !app_assoc.
Qed.

Lemma omap_all_None (A B : Type) (f : A → option B) (l : list A) :
  (∀ x, x ∈ l → f x = None) → omap f l = [].
Proof.
  induction l as [|x l IH]; intros H; [done|]. cbn [omap list_omap].
  rewrite (H x) by left. apply IH. intros y Hy. apply H. by right.
Qed.

(** When every render throws, the pass returns the document as it was and
    reports no progress: a renderer that is down does not fail the
    conversion and does not touch the text. *)
Theorem all_renders_fail_unchanged (w : collaborators) (md : text)
    (format : string) (o : options) (s : state) :
  format ≠ "html"%string →
  (∀ i d, extract md !! i = Some d →
          ∃ e, renderMermaidToImage w i (code d) = Throws e) →
  processMermaidDiagrams w md format o s = (Returns md, s).
Proof.
  intros Hfmt Hfail. unfold processMermaidDiagrams.
  apply String.eqb_neq in Hfmt. rewrite Hfmt.
  pose proof (render_loop_rewrites w o md (extract md) s (extract_spans md))
    as Hout.
  pose proof (render_loop_state w o (extract md) (length (extract md)) md s
                ltac:(lia)) as Hst.
  destruct (render_loop w o (extract md) (length (extract md)) md s)
    as [res s'] eqn:Hrun.
  simpl in Hout, Hst. subst res s'. f_equal.
  - f_equal.
    pose proof (interleave_original md 0 (extract md) (extract_spans md))
      as Hmd.
    rewrite drop_0 in Hmd. etrans; [|symmetry; exact Hmd]. f_equal.
    rewrite <- (imap_const original). apply imap_ext.
    intros i d Hd. destruct (Hfail i d Hd) as [e He].
    unfold replacement. by rewrite He.
  - rewrite omap_all_None; [done|].
    intros i _. unfold rendered_update.
    destruct (extract md !! i) as [d|] eqn:Hd; [|done]. simpl.
    destruct (Hfail i d Hd) as [e He]. by rewrite He.
Qed.

(** * Further properties of the tracker *)

Lemma initJob_existing (id : string) (l : loc) (s : state) :
  id ≠ ""%string → jobs s !! id = Some l → initJob (Some id) s = (Some l, s).
Proof.
  intros Hid Hl. unfold initJob. apply truthy_Some in Hid. by rewrite Hid, Hl.
Qed.

Lemma initJob_fresh (id : string) (s : state) :
  id ≠ ""%string → jobs s !! id = None →
  ∃ l, (initJob (Some id) s).1 = Some l
       ∧ objs s !! l = None
       ∧ registered (initJob (Some id) s).2 id l new_job
       ∧ (∀ id', id' ≠ id →
            jobs (initJob (Some id) s).2 !! id' = jobs s !! id')
       ∧ (∀ l', l' ≠ l →
            objs (initJob (Some id) s).2 !! l' = objs s !! l')
       ∧ streams (initJob (Some id) s).2 = streams s
       ∧ timers (initJob (Some id) s).2 = timers s.
Proof.
  intros Hid Hnone. unfold initJob.
  apply truthy_Some in Hid. rewrite Hid, Hnone. simpl.
  set (l := fresh (dom (objs s))).
  assert (Hfresh : objs s !! l = None)
    by (apply not_elem_of_dom, is_fresh).
  exists l. split_and!; try done.
  - split; simpl; by rewrite lookup_insert_eq.
  - intros id' Hne. by rewrite lookup_insert_ne.
  - intros l' Hne. by rewrite lookup_insert_ne.
Qed.

(** [initJob] creates a job once: a job that is there is returned as it is
    and the state is not touched; a job that is not there is made from a job
    object no other job uses, at progress 0 with the message Starting; a
    second call changes nothing; and without an id nothing is created. *)
Theorem initJob_once (jobId : option string) (s : state) :
  initJob jobId (initJob jobId s).2 = initJob jobId s
  ∧ (∀ id l, jobId = Some id → id ≠ ""%string → jobs s !! id = Some l →
             initJob jobId s = (Some l, s))
  ∧ (∀ id, jobId = Some id → id ≠ ""%string → jobs s !! id = None →
           ∃ l, (initJob jobId s).1 = Some l
                ∧ objs s !! l = None
                ∧ registered (initJob jobId s).2 id l new_job
                ∧ (∀ id', id' ≠ id →
                     jobs (initJob jobId s).2 !! id' = jobs s !! id')
                ∧ (∀ l', l' ≠ l →
                     objs (initJob jobId s).2 !! l' = objs s !! l')
                ∧ streams (initJob jobId s).2 = streams s
                ∧ timers (initJob jobId s).2 = timers s)
  ∧ (truthy jobId = false → initJob jobId s = (None, s)).
Proof.
  split_and!.
  - unfold initJob. destruct jobId as [id|]; [|done].
    destruct (truthy (Some id)) eqn:Hid; [|done].
    destruct (jobs s !! id) as [l|] eqn:Hl; cbn [snd].
    + by rewrite Hl.
    + cbn [jobs with_jobs]. by rewrite lookup_insert_eq.
  - intros id l -> Hid Hl. by apply initJob_existing.
  - intros id -> Hid Hnone. by apply initJob_fresh.
  - intros Hfalse. unfold initJob. destruct jobId as [id|]; [|done].
    by rewrite Hfalse.
Qed.

(** A client that subscribes to a job gets the state the job is in as its
    first event, behind the reconnect hint, whatever has been reported
    before; it is a subscriber from then on, so the next update is written
    to it; and no callback is registered.  A client that subscribes to an
    unknown id makes the job and gets progress 0 with the message
    Starting. *)
Theorem subscriber_gets_current_state (s : state) (id : string) (r : res) :
  id ≠ ""%string →
  (∀ l j,
     registered s id l j →
     ∃ s', progress_endpoint id r s = Some s'
           ∧ streams s' !! r
             = Some {| sent := [Retry 1500; Data (progress j) (message j)];
                       ended := false; broken := false |}
           ∧ registered s' id l (set_subscribers ({[r]} ∪ subscribers j) j)
           ∧ timers s' = timers s
           ∧ ∀ p msg,
               streams (updateProgress (Some id) p msg s') !! r
               = Some {| sent := [Retry 1500; Data (progress j) (message j);
                                  Data (clamp p)
                                    (new_message msg (message j))];
                         ended := false; broken := false |})
  ∧ (jobs s !! id = None →
     ∃ s' l, progress_endpoint id r s = Some s'
             ∧ streams s' !! r
               = Some {| sent := [Retry 1500; Data 0 "Starting"];
                         ended := false; broken := false |}
             ∧ registered s' id l (set_subscribers {[r]} new_job)).
Proof.
  intros Hid. split.
  - intros l j Hreg. pose proof Hreg as [Hl Hj].
    unfold progress_endpoint.
    rewrite (initJob_existing id l s Hid Hl).
    rewrite Hj. eexists. split; [done|].
    assert (Hreg' : registered
              (with_objs (<[l:=set_subscribers ({[r]} ∪ subscribers j) j]>
                            (objs s))
                 (with_streams
                    (<[r:={| sent := [Retry 1500; Data (progress j) (message j)];
                             ended := false; broken := false |}]> (streams s))
                    s))
              id l (set_subscribers ({[r]} ∪ subscribers j) j)).
    { split; simpl; [done|by rewrite lookup_insert_eq]. }
    split_and!.
    + simpl. by rewrite lookup_insert_eq.
    + done.
    + done.
    + intros p msg.
      rewrite (updateProgress_stream _ id l _ p msg r
                 {| sent := [Retry 1500; Data (progress j) (message j)];
                    ended := false; broken := false |} Hid Hreg').
      * done.
      * simpl. set_solver.
      * simpl. by rewrite lookup_insert_eq.
      * done.
  - intros Hnone.
    destruct (initJob_fresh id s Hid Hnone) as (l & H1 & Hfresh & [Hl Hj] & _ & _ & Hstr & _).
    unfold progress_endpoint.
    destruct (initJob (Some id) s) as [ol s1] eqn:Hinit. simpl in *.
    subst ol. rewrite Hj. eexists _, l. split; [done|]. split.
    + simpl. by rewrite lookup_insert_eq.
    + split; simpl; [done|]. rewrite lookup_insert_eq. f_equal.
      unfold set_subscribers. simpl. f_equal. apply (right_id_L ∅ (∪)).
Qed.

(** Once a client has gone, its stream is not written to any more, while the
    subscribers that stay get every update. *)
Theorem closed_client_gets_nothing (s : state) (id : string) (l : loc)
    (j : job) (r : res) :
  id ≠ ""%string → registered s id l j →
  let s1 := on_close l r s in
  registered s1 id l (set_subscribers (subscribers j ∖ {[r]}) j)
  ∧ (∀ c, streams s !! r = Some c →
          streams s1 !! r
          = Some {| sent := sent c; ended := ended c; broken := true |})
  ∧ (∀ p msg,
       streams (updateProgress (Some id) p msg s1) !! r = streams s1 !! r)
  ∧ (∀ p msg r' c,
       r' ≠ r → r' ∈ subscribers j → streams s !! r' = Some c → live c →
       streams (updateProgress (Some id) p msg s1) !! r'
       = Some (push (Data (clamp p) (new_message msg (message j))) c)).
Proof.
  intros Hid [Hl Hj] s1.
  assert (Hreg1 : registered s1 id l
                    (set_subscribers (subscribers j ∖ {[r]}) j)).
  { unfold s1, on_close. rewrite Hj. split; simpl; [done|].
    by rewrite lookup_insert_eq. }
  assert (Hother : ∀ r', r' ≠ r → streams s1 !! r' = streams s !! r').
  { intros r' Hne. unfold s1, on_close. simpl.
    destruct (streams s !! r); [by rewrite lookup_insert_ne|done]. }
  split_and!.
  - done.
  - intros c Hc. unfold s1, on_close. simpl. rewrite Hc.
    by rewrite lookup_insert_eq.
  - intros p msg.
    rewrite (updateProgress_run s1 id l _ p msg Hid Hreg1). simpl.
    rewrite for_subscribers_lookup, decide_False; [done|].
    intros [_ Hn]%elem_of_difference. apply Hn. by apply elem_of_singleton.
  - intros p msg r' c Hne Hr' Hc Hlive.
    rewrite (updateProgress_stream s1 id l _ p msg r' c Hid Hreg1);
      [done| |by rewrite Hother|done].
    simpl. apply elem_of_difference. split; [done|].
    by intros ?%elem_of_singleton.
Qed.

(** ** Percentages everywhere *)

Lemma res_write_sent (k : chunk) (c : stream) :
  sent (attempted (res_write k) c) = sent c
  ∨ sent (attempted (res_write k) c) = sent c ++ [k].
Proof.
  unfold attempted, res_write. destruct (ended c || broken c); simpl; eauto.
Qed.

Lemma res_end_sent (c : stream) : sent (attempted res_end c) = sent c.
Proof. unfold attempted, res_end. by destruct (broken c). Qed.

Lemma consistent_objs (s : state) (l : loc) (j : job) :
  consistent s → 0 ≤ progress j ≤ 100 →
  consistent (with_objs (<[l := j]> (objs s)) s).
Proof.
  intros (Hj & Ho & Hs) Hp. unfold consistent. simpl. split_and!.
  - intros id l' Hl'. rewrite lookup_insert_is_Some.
    destruct (decide (l = l')); [by left|right; eauto].
  - intros l' j' Hl'. destruct (decide (l' = l)) as [->|Hne].
    + rewrite lookup_insert_eq in Hl'. by injection Hl' as <-.
    + rewrite lookup_insert_ne in Hl' by done. eauto.
  - done.
Qed.

Lemma consistent_timers (s : state) (t : list (Z * task)) :
  consistent s → consistent (with_timers t s).
Proof. done. Qed.

Lemma consistent_now (s : state) (t : Z) :
  consistent s → consistent (with_now t s).
Proof. done. Qed.

Lemma consistent_updateProgress (jobId : option string) (p : Q)
    (msg : option string) (s : state) :
  consistent s → consistent (updateProgress jobId p msg s).
Proof.
  intros Hs. destruct jobId as [id|]; [|done].
  destruct (decide (id = ""%string)) as [->|Hid]; [done|].
  destruct (get_job id s) as [[l j]|] eqn:Hget.
  - apply get_job_Some in Hget.
    rewrite (updateProgress_run s id l j p msg Hid Hget).
    pose proof (consistent_objs s l
                  {| progress := clamp p;
                     message := new_message msg (message j);
                     subscribers := subscribers j; status := status j |}
                  Hs (clamp_range p)) as (Hj' & Ho' & Hs').
    unfold consistent. simpl in *. split_and!; try done.
    intros r c. rewrite for_subscribers_lookup. case_decide; [|apply Hs'].
    destruct (streams s !! r) as [c0|] eqn:Hc0; simpl; [|done].
    intros [= <-]. specialize (Hs' r c0 Hc0).
    destruct (res_write_sent
                (Data (clamp p) (new_message msg (message j))) c0)
      as [->| ->]; [done|].
    apply Forall_app. split; [done|]. constructor; [|done].
    apply clamp_range.
  - unfold updateProgress. rewrite Hget. by destruct (truthy (Some id)).
Qed.

Lemma consistent_initJob (jobId : option string) (s : state) :
  consistent s → consistent (initJob jobId s).2.
Proof.
  intros Hs. unfold initJob. destruct jobId as [id|]; [|done].
  destruct (truthy (Some id)); [|done].
  destruct (jobs s !! id) as [l|] eqn:Hl; [done|]. simpl.
  pose proof (consistent_objs s (fresh (dom (objs s))) new_job Hs
                ltac:(simpl; lia)) as (Hj' & Ho' & Hs').
  unfold consistent. simpl in *. split_and!; try done.
  intros id' l'. destruct (decide (id' = id)) as [->|Hne].
  - rewrite lookup_insert_eq. intros [= <-]. by rewrite lookup_insert_eq.
  - rewrite lookup_insert_ne by done. apply Hj'.
Qed.

Lemma consistent_completeJob (jobId : option string) (s : state) :
  consistent s → consistent (completeJob jobId s).
Proof.
  intros Hs. destruct jobId as [id|]; [|done].
  destruct (decide (id = ""%string)) as [->|Hid]; [done|].
  destruct (get_job id s) as [[l j]|] eqn:Hget.
  - apply get_job_Some in Hget. rewrite (completeJob_run s id l j Hid Hget).
    apply consistent_timers, consistent_updateProgress, consistent_objs;
      [done|].
    destruct Hget as [_ Hj]. destruct Hs as (_ & Ho & _). apply (Ho l j Hj).
  - unfold completeJob. rewrite Hget. by destruct (truthy (Some id)).
Qed.

Lemma consistent_run_task (k : task) (s : state) :
  consistent s → consistent (run_task k s).
Proof.
  intros Hs. destruct k as [l id|id]; simpl.
  - destruct (objs s !! l) as [j|] eqn:Hj; [|done].
    apply consistent_timers.
    assert (Hs1 : consistent
              (with_streams (for_subscribers res_end (subscribers j)
                               (streams s)) s)).
    { destruct Hs as (Hjobs & Ho & Hstr). unfold consistent. simpl.
      split_and!; try done.
      intros r c. rewrite for_subscribers_lookup. case_decide; [|apply Hstr].
      destruct (streams s !! r) as [c0|] eqn:Hc0; simpl; [|done].
      intros [= <-]. rewrite res_end_sent. by apply (Hstr r). }
    apply (consistent_objs _ l (set_subscribers ∅ j) Hs1).
    destruct Hs as (_ & Ho & _). apply (Ho l j Hj).
  - destruct Hs as (Hjobs & Ho & Hstr). unfold consistent. simpl.
    split_and!; try done.
    intros id' l'. destruct (decide (id' = id)) as [->|Hne].
    + by rewrite lookup_delete_eq.
    + rewrite lookup_delete_ne by done. apply Hjobs.
Qed.

Lemma consistent_step (s s' : state) :
  consistent s → step s s' → consistent s'.
Proof.
  intros Hs Hstep. destruct Hstep as [s d Hd|s pre t k post Ht Hdue].
  - by apply consistent_now.
  - by apply consistent_run_task, consistent_timers.
Qed.

Lemma consistent_progress_endpoint (jobId : string) (r : res)
    (s s' : state) :
  consistent s → progress_endpoint jobId r s = Some s' → consistent s'.
Proof.
  intros Hs. unfold progress_endpoint.
  pose proof (consistent_initJob (Some jobId) s Hs) as Hs1.
  destruct (initJob (Some jobId) s) as [[l|] s1]; [|done]. simpl in Hs1.
  destruct (objs s1 !! l) as [j|] eqn:Hj; [|done]. intros [= <-].
  assert (Hp : 0 ≤ progress j ≤ 100).
  { destruct Hs1 as (_ & Ho & _). apply (Ho l j Hj). }
  refine (consistent_objs (with_streams _ s1) l
            (set_subscribers ({[r]} ∪ subscribers j) j) _ Hp).
  destruct Hs1 as (Hjobs & Ho & Hstr). unfold consistent. simpl.
  split_and!; try done.
  intros r' c. destruct (decide (r' = r)) as [->|Hne].
  - rewrite lookup_insert_eq. intros [= <-]. simpl.
    constructor; [done|]. constructor; [done|]. constructor.
  - rewrite lookup_insert_ne by done. apply Hstr.
Qed.

Lemma consistent_on_close (l : loc) (r : res) (s : state) :
  consistent s → consistent (on_close l r s).
Proof.
  intros Hs. unfold on_close.
  assert (Hs1 : consistent
            (with_streams
               match streams s !! r with
               | Some c => <[r:={| sent := sent c; ended := ended c;
                                   broken := true |}]> (streams s)
               | None => streams s
               end s)).
  { destruct Hs as (Hjobs & Ho & Hstr). unfold consistent. simpl.
    split_and!; try done.
    destruct (streams s !! r) as [c0|] eqn:Hc0; [|done].
    intros r' c. destruct (decide (r' = r)) as [->|Hne].
    - rewrite lookup_insert_eq. intros [= <-]. simpl. by apply (Hstr r).
    - rewrite lookup_insert_ne by done. apply Hstr. }
  destruct (objs s !! l) as [j|] eqn:Hj.
  - apply (consistent_objs _ l (set_subscribers (subscribers j ∖ {[r]}) j)
             Hs1).
    destruct Hs as (_ & Ho & _). apply (Ho l j Hj).
  - destruct Hs1 as (Hjobs & Ho & Hstr). unfold consistent. simpl.
    split_and!; done.
Qed.

Lemma keeps_ret (P : state → Prop) {A} (a : A) : keeps P (mret a : M A).
Proof. by intros s. Qed.

Lemma keeps_await (P : state → Prop) {A} (o : outcome A) : keeps P (await o).
Proof. by intros s. Qed.

Lemma keeps_act (P : state → Prop) (f : state → state) :
  (∀ s, P s → P (f s)) → keeps P (act f).
Proof. intros Hf s. apply Hf. Qed.

Lemma keeps_bind (P : state → Prop) {A B} (m : M A) (f : A → M B) :
  keeps P m → (∀ a, keeps P (f a)) → keeps P (m ≫= f).
Proof.
  intros Hm Hf s Hs. unfold mbind, M_bind, bind.
  specialize (Hm s Hs). destruct (m s) as [[a|e] s1]; simpl in *; [|done].
  by apply Hf.
Qed.

Lemma keeps_try_catch (P : state → Prop) {A} (m : M A) (h : string → M A) :
  keeps P m → (∀ e, keeps P (h e)) → keeps P (try_catch m h).
Proof.
  intros Hm Hh s Hs. unfold try_catch.
  specialize (Hm s Hs). destruct (m s) as [[a|e] s1]; simpl in *; [done|].
  by apply Hh.
Qed.

Lemma keeps_try_finally (P : state → Prop) {A} (m : M A) (f : M unit) :
  keeps P m → keeps P f → keeps P (try_finally m f).
Proof.
  intros Hm Hf s Hs. unfold try_finally.
  specialize (Hm s Hs). destruct (m s) as [[a|e] s1]; simpl in *;
    specialize (Hf s1 Hm); by destruct (f s1) as [[[]|e'] s2].
Qed.

Lemma keeps_progress_msg (jobId : option string) (p : Z) (msg : string) :
  keeps consistent (progress_msg jobId p msg).
Proof. apply keeps_act. intros s. apply consistent_updateProgress. Qed.

Lemma keeps_render_loop (w : collaborators) (o : options)
    (ds : list diagram) (k : nat) (pc : text) :
  keeps consistent (render_loop w o ds k pc).
Proof.
  revert pc. induction k as [|i IH]; intros pc; cbn [render_loop].
  - apply keeps_ret.
  - destruct (ds !! i) as [d|]; [|apply IH].
    apply keeps_bind; [|apply IH].
    intros s Hs. rewrite render_one_run.
    destruct (renderMermaidToImage w i (code d)); simpl; [|done].
    destruct (0 <? length ds)%nat; [|done].
    by apply consistent_updateProgress.
Qed.

Lemma keeps_processMermaidDiagrams (w : collaborators) (md : text)
    (format : string) (o : options) :
  keeps consistent (processMermaidDiagrams w md format o).
Proof.
  unfold processMermaidDiagrams. destruct (String.eqb format "html").
  - apply keeps_bind; [|intros; apply keeps_ret].
    apply keeps_act. intros s. apply consistent_updateProgress.
  - apply keeps_render_loop.
Qed.

Ltac keeps_steps :=
  repeat first
    [ apply keeps_progress_msg
    | apply keeps_processMermaidDiagrams
    | apply keeps_await
    | apply keeps_ret
    | apply keeps_try_finally
    | apply keeps_bind
    | intros ? ].

Lemma keeps_convert_handler (w : collaborators) (req : request) :
  keeps consistent (convert_handler w req).
Proof.
  unfold convert_handler. apply keeps_try_catch.
  - destruct (file req) as [f|]; [|apply keeps_ret]. cbv zeta.
    apply keeps_bind.
    + destruct (truthy (or_null (body_jobId req))); [|apply keeps_ret].
      apply keeps_bind; [|intros; apply keeps_progress_msg].
      apply keeps_act. intros s. apply consistent_initJob.
    + intros _. destruct (negb (supported (body_format req)));
        [apply keeps_ret|].
      apply keeps_bind; [apply keeps_await|]. intros md.
      apply keeps_bind; [apply keeps_progress_msg|]. intros _.
      apply keeps_bind.
      * repeat case_match; apply keeps_bind;
          try (intros; apply keeps_ret);
          [unfold convertToHTML|unfold convertToPDF|unfold convertToDOCX];
          keeps_steps.
      * intros [[result contentType] fileExtension].
        apply keeps_bind; [|intros; apply keeps_ret].
        apply keeps_act. intros s. apply consistent_completeJob.
  - intros e. apply keeps_bind; [apply keeps_progress_msg|].
    intros; apply keeps_ret.
Qed.

(** In every state the server gets into, every job has a progress from 0 to
    100, every progress event written to a client so far carried a value
    from 0 to 100, and every entry of the registry names a job object. *)
Theorem reachable_consistent (s : state) : reachable s → consistent s.
Proof.
  induction 1 as [|s jobId r s' _ IH Hsub|s l r _ IH|s w req _ IH
                 |s s' _ IH Hstep].
  - unfold consistent, empty_state. simpl. split_and!; intros ??;
      by rewrite lookup_empty.
  - by eapply consistent_progress_endpoint.
  - by apply consistent_on_close.
  - by apply keeps_convert_handler.
  - by eapply consistent_step.
Qed.

(** * Further properties of the request handler *)

(** The handler on a request with a file and a supported format, turn by
    turn: the file is read, the converter of the format runs, and either the
    file is sent and the job completed, or the error is reported. *)
Lemma convert_handler_run (w : collaborators) (req : request) (f : upload)
    (s : state) :
  file req = Some f → supported (body_format req) = true →
  convert_handler w req s
  = let jobId := or_null (body_jobId req) in
    let failed e s' :=
      (Returns (Json 500 ("Conversion failed: " +:+ e)),
       updateProgress (body_jobId req) (inject_Z 100)
         (Some "Error"%string) s') in
    match readFile w (path f) with
    | Throws e => failed e (upload_received jobId s)
    | Returns md =>
        match converter w (body_format req) md (basename w (originalname f))
                jobId
                (updateProgress jobId (inject_Z 5)
                   (Some "Reading file"%string) (upload_received jobId s))
        with
        | (Returns result, s') =>
            (Returns (Attachment (content_type (body_format req))
                        (basename w (originalname f) +:+ "."
                         +:+ file_extension (body_format req))
                        result),
             completeJob jobId s')
        | (Throws e, s') => failed e s'
        end
    end.
Proof.
  intros Hf Hfmt. unfold convert_handler, try_catch. rewrite Hf. cbv zeta.
  unfold mbind at 1, M_bind at 1, bind at 1.
  rewrite upload_received_run, Hfmt. cbn [negb].
  fold (upload_received (or_null (body_jobId req)) s).
  unfold mbind at 1, M_bind at 1, bind at 1, await at 1.
  destruct (readFile w (path f)) as [md|e]; [|reflexivity].
  unfold mbind at 1, M_bind at 1, bind at 1.
  unfold progress_msg at 1, act at 1.
  unfold mbind at 1, M_bind at 1, bind at 1.
  unfold converter, content_type, file_extension.
  destruct (String.eqb (body_format req) "html");
    [|destruct (String.eqb (body_format req) "pdf")];
    unfold mbind at 1, M_bind at 1, bind at 1;
    match goal with
    | |- context [?c w md ?fn ?j ?st] =>
        destruct (c w md fn j st) as [[result|e] s']
    end; reflexivity.
Qed.

Lemma file_extension_supported (format : string) :
  supported format = true → file_extension format = format.
Proof.
  unfold supported, file_extension.
  destruct (String.eqb format "html") eqn:H1;
    [by apply String.eqb_eq in H1|].
  destruct (String.eqb format "pdf") eqn:H2;
    [by apply String.eqb_eq in H2|].
  destruct (String.eqb format "docx") eqn:H3; [|done].
  by apply String.eqb_eq in H3.
Qed.

(** The handler answers every request and never throws: status 400 without
    a file, and then the tracker is not touched; status 400 for an
    unsupported format; otherwise either status 500 with the message of the
    error, or the converted file under the content type of the format and
    the base name of the upload with the format as extension. *)
Theorem convert_handler_answers (w : collaborators) (req : request)
    (s : state) :
  ∃ r s',
    convert_handler w req s = (Returns r, s')
    ∧ match file req with
      | None => r = Json 400 "No file uploaded" ∧ s' = s
      | Some f =>
          if supported (body_format req) then
            (∃ e, r = Json 500 ("Conversion failed: " +:+ e))
            ∨ (∃ body,
                 r = Attachment (content_type (body_format req))
                       (basename w (originalname f) +:+ "."
                        +:+ body_format req) body)
          else r = Json 400 "Invalid format"
      end.
Proof.
  destruct (file req) as [f|] eqn:Hf.
  - destruct (supported (body_format req)) eqn:Hfmt.
    + rewrite (convert_handler_run w req f s Hf Hfmt). cbv zeta.
      rewrite (file_extension_supported _ Hfmt).
      destruct (readFile w (path f)) as [md|e]; [|by eexists _, _; eauto].
      destruct (converter _ _ _ _ _ _) as [[result|e] s'];
        eexists _, _; eauto.
    + rewrite (invalid_format_run w req f s Hf Hfmt). by eexists _, _.
  - rewrite (missing_file_touches_nothing w req s Hf). by eexists _, _.
Qed.

Lemma calmly_converter (w : collaborators) (format : string) (md : text)
    (filename : string) (jobId : option string) :
  calmly (converter w format md filename jobId).
Proof.
  unfold converter. repeat case_match;
    [apply calmly_convertToHTML|apply calmly_convertToPDF
    |apply calmly_convertToDOCX].
Qed.

Lemma initJob_registered_again (id : string) (s : state) :
  id ≠ ""%string →
  (jobs s !! id = None ∨ ∃ l j, registered s id l j) →
  ∃ l j, registered (initJob (Some id) s).2 id l j
         ∧ ∀ l0 j0, registered s id l0 j0 → l = l0 ∧ j = j0.
Proof.
  intros Hid Hs. unfold initJob. apply truthy_Some in Hid. rewrite Hid.
  destruct Hs as [Hnone|(l & j & [Hl Hj])].
  - rewrite Hnone. eexists _, new_job. split.
    + split; simpl; by rewrite lookup_insert_eq.
    + intros l0 j0 [Hl0 _]. congruence.
  - rewrite Hl. exists l, j. split; [done|].
    intros l0 j0 [Hl0 Hj0]. split; congruence.
Qed.

Lemma calm_upload_received (jobId : option string) (s : state) :
  calm s (upload_received jobId s).
Proof.
  unfold upload_received. destruct (truthy jobId); [|apply calm_refl].
  eapply calm_trans; [apply calm_initJob|apply calm_updateProgress].
Qed.

(** When the handler sends the converted file, the job the request names is
    done, at progress 100 with the message Done; the subscribers it had that
    are still connected have got this as their last event; no stream has
    been ended yet; and the one callback registered is the one that ends the
    streams, due 250 ms later. *)
Theorem sent_file_completes_job (w : collaborators) (req : request)
    (s : state) (id ct fn : string) (body : text) (sf : state) :
  body_jobId req = Some id → id ≠ ""%string →
  (jobs s !! id = None ∨ ∃ l j, registered s id l j) →
  convert_handler w req s = (Returns (Attachment ct fn body), sf) →
  ∃ l j',
    registered sf id l j'
    ∧ progress j' = 100 ∧ message j' = "Done"%string ∧ status j' = Done
    ∧ timers sf = timers s ++ [(now s + 250, CloseSubscribers l id)]
    ∧ (∀ r c, streams s !! r = Some c →
              ∃ c', streams sf !! r = Some c' ∧ ended c' = ended c)
    ∧ (∀ j r c, registered s id l j → r ∈ subscribers j →
                streams s !! r = Some c → live c →
                ∃ c', streams sf !! r = Some c' ∧ live c'
                      ∧ last (sent c') = Some (Data 100 "Done")).
Proof.
  intros Hjid Hid Hs Hrun.
  destruct (file req) as [f|] eqn:Hf;
    [|by rewrite (missing_file_touches_nothing w req s Hf) in Hrun].
  destruct (supported (body_format req)) eqn:Hfmt;
    [|by rewrite (invalid_format_run w req f s Hf Hfmt) in Hrun].
  rewrite (convert_handler_run w req f s Hf Hfmt) in Hrun. cbv zeta in Hrun.
  rewrite Hjid, (or_null_Some id Hid) in Hrun.
  destruct (readFile w (path f)) as [md|e]; [|done].
  set (s5 := updateProgress (Some id) (inject_Z 5)
               (Some "Reading file"%string)
               (upload_received (Some id) s)) in *.
  pose proof (calmly_converter w (body_format req) md
                (basename w (originalname f)) (Some id) s5) as Hconv.
  destruct (converter _ _ _ _ _ s5) as [[result|e] s'] eqn:Hc; [|done].
  simpl in Hconv.
  assert (Hsf : sf = completeJob (Some id) s') by congruence.
  clear Hrun. subst sf.
  assert (Hcalm : calm (initJob (Some id) s).2 s').
  { eapply calm_trans; [|exact Hconv]. unfold s5, upload_received.
    rewrite (proj2 (truthy_Some id) Hid).
    eapply calm_trans; apply calm_updateProgress. }
  assert (Hcalm0 : calm s s').
  { eapply calm_trans; [apply calm_initJob|exact Hcalm]. }
  destruct (initJob_registered_again id s Hid Hs) as (l & j0 & Hreg0 & Hsame).
  destruct (calm_registered _ s' id l j0 Hcalm Hreg0)
    as (j1 & Hreg1 & Hst1 & Hsub1).
  rewrite (completeJob_run s' id l j1 Hid Hreg1).
  set (s0 := with_objs (<[l:=set_status Done j1]> (objs s')) s').
  assert (Hreg0' : registered s0 id l (set_status Done j1)).
  { destruct Hreg1 as [Hl1 Hj1]. split; simpl; [done|].
    by rewrite lookup_insert_eq. }
  pose proof (updateProgress_job s0 id l _ (inject_Z 100)
                (Some "Done"%string) Hid Hreg0') as Hregf.
  rewrite clamp_inject_Z in Hregf by lia.
  destruct Hcalm0 as (Ht & Hn & _ & _ & Hstr).
  eexists l, _. split; [exact Hregf|]. cbn [progress message status].
  split; [done|]. split; [done|]. split; [done|].
  change (streams (setTimeout (CloseSubscribers l id) 250
                     (updateProgress (Some id) (inject_Z 100)
                        (Some "Done"%string) s0)))
    with (streams (updateProgress (Some id) (inject_Z 100)
                     (Some "Done"%string) s0)).
  split; [|split].
  - rewrite (updateProgress_run s0 id l _ _ _ Hid Hreg0'). simpl.
    by rewrite Ht, Hn.
  - intros r c Hc0. destruct (Hstr r c Hc0) as (c1 & Hc1 & He1 & _).
    pose proof (calm_updateProgress (Some id) (inject_Z 100)
                  (Some "Done"%string) s0) as (_ & _ & _ & _ & Hstr').
    destruct (Hstr' r c1 Hc1) as (c2 & Hc2 & He2 & _).
    exists c2. split; [done|congruence].
  - intros j r c Hreg Hr Hc0 [He Hb].
    destruct (Hsame l j Hreg) as [_ <-].
    destruct (Hstr r c Hc0) as (c1 & Hc1 & He1 & Hb1).
    assert (Hlive1 : live c1) by (split; congruence).
    assert (Hr1 : r ∈ subscribers (set_status Done j1))
      by (simpl; by rewrite Hsub1).
    pose proof (updateProgress_stream s0 id l _ (inject_Z 100)
                  (Some "Done"%string) r c1 Hid Hreg0' Hr1 Hc1 Hlive1) as Hf1.
    rewrite clamp_inject_Z in Hf1 by lia.
    eexists. split; [exact Hf1|]. split; [by apply push_live|].
    simpl. by rewrite last_snoc.
Qed.

(** ** The answer does not depend on the tracker *)

Lemma same_result_mret {A} (a : A) : same_result (mret a : M A) (mret a).
Proof. by intros s s'. Qed.

Lemma same_result_await {A} (o : outcome A) : same_result (await o) (await o).
Proof. by intros s s'. Qed.

Lemma same_result_act (f g : state → state) : same_result (act f) (act g).
Proof. by intros s s'. Qed.

Lemma same_result_bind {A B} (m m' : M A) (f f' : A → M B) :
  same_result m m' → (∀ a, same_result (f a) (f' a)) →
  same_result (m ≫= f) (m' ≫= f').
Proof.
  intros Hm Hf s s'. unfold mbind, M_bind, bind.
  specialize (Hm s s').
  destruct (m s) as [[a|e] s1], (m' s') as [[a'|e'] s1']; simpl in Hm;
    try done.
  - injection Hm as <-. apply Hf.
  - by injection Hm as <-.
Qed.

Lemma same_result_try_finally {A} (m m' : M A) (f f' : M unit) :
  same_result m m' → same_result f f' →
  same_result (try_finally m f) (try_finally m' f').
Proof.
  intros Hm Hf s s'. unfold try_finally. specialize (Hm s s').
  destruct (m s) as [[a|e] s1], (m' s') as [[a'|e'] s1']; simpl in Hm;
    try done; specialize (Hf s1 s1');
    destruct (f s1) as [[[]|e1] s2], (f' s1') as [[[]|e1'] s2'];
    simpl in *; congruence.
Qed.

Lemma same_result_render_loop (w : collaborators) (o o' : options)
    (ds : list diagram) (k : nat) (pc : text) :
  same_result (render_loop w o ds k pc) (render_loop w o' ds k pc).
Proof.
  revert pc. induction k as [|i IH]; intros pc; cbn [render_loop].
  - apply same_result_mret.
  - destruct (ds !! i) as [d|]; [|apply IH].
    apply same_result_bind; [|apply IH].
    intros s s'. rewrite !render_one_run.
    by destruct (renderMermaidToImage w i (code d)).
Qed.

Lemma same_result_processMermaidDiagrams (w : collaborators) (md : text)
    (format : string) (o o' : options) :
  same_result (processMermaidDiagrams w md format o)
    (processMermaidDiagrams w md format o').
Proof.
  unfold processMermaidDiagrams. destruct (String.eqb format "html").
  - apply same_result_bind; [apply same_result_act|].
    intros; apply same_result_mret.
  - apply same_result_render_loop.
Qed.

Ltac same_result_steps :=
  repeat first
    [ apply same_result_act
    | apply same_result_processMermaidDiagrams
    | apply same_result_await
    | apply same_result_mret
    | apply same_result_try_finally
    | apply same_result_bind
    | intros ? ].

Lemma same_result_converter (w : collaborators) (format : string) (md : text)
    (filename : string) (jobId jobId' : option string) :
  same_result (converter w format md filename jobId)
    (converter w format md filename jobId').
Proof.
  unfold converter. repeat case_match;
    [unfold convertToHTML|unfold convertToPDF|unfold convertToDOCX];
    unfold progress_msg; same_result_steps.
Qed.

Lemma updateProgress_falsy (jobId : option string) (p : Q)
    (msg : option string) (s : state) :
  truthy jobId = false → updateProgress jobId p msg s = s.
Proof.
  intros H. unfold updateProgress. destruct jobId; [|done]. by rewrite H.
Qed.

Lemma idle_mret {A} (a : A) : idle (mret a : M A).
Proof. by intros s. Qed.

Lemma idle_await {A} (o : outcome A) : idle (await o).
Proof. by intros s. Qed.

Lemma idle_progress_msg (p : Z) (msg : string) : idle (progress_msg None p msg).
Proof. by intros s. Qed.

Lemma idle_bind {A B} (m : M A) (f : A → M B) :
  idle m → (∀ a, idle (f a)) → idle (m ≫= f).
Proof.
  intros Hm Hf s. unfold mbind, M_bind, bind. specialize (Hm s).
  destruct (m s) as [[a|e] s1]; simpl in *; subst; [apply Hf|done].
Qed.

Lemma idle_try_finally {A} (m : M A) (f : M unit) :
  idle m → idle f → idle (try_finally m f).
Proof.
  intros Hm Hf s. unfold try_finally. specialize (Hm s).
  destruct (m s) as [[a|e] s1]; simpl in *; subst;
    specialize (Hf s); by destruct (f s) as [[[]|e'] s2].
Qed.

Lemma idle_render_loop (w : collaborators) (start end_ : Z)
    (ds : list diagram) (k : nat) (pc : text) :
  idle (render_loop w {| opt_jobId := None; opt_start := start;
                         opt_end := end_ |} ds k pc).
Proof.
  revert pc. induction k as [|i IH]; intros pc; cbn [render_loop].
  - apply idle_mret.
  - destruct (ds !! i) as [d|]; [|apply IH].
    apply idle_bind; [|apply IH].
    intros s. rewrite render_one_run.
    destruct (renderMermaidToImage w i (code d)); [|done].
    by destruct (0 <? length ds)%nat.
Qed.

Lemma idle_processMermaidDiagrams (w : collaborators) (md : text)
    (format : string) (start end_ : Z) :
  idle (processMermaidDiagrams w md format
          {| opt_jobId := None; opt_start := start; opt_end := end_ |}).
Proof.
  unfold processMermaidDiagrams. destruct (String.eqb format "html").
  - by intros s.
  - apply idle_render_loop.
Qed.

Ltac idle_steps :=
  repeat first
    [ apply idle_progress_msg
    | apply idle_processMermaidDiagrams
    | apply idle_await
    | apply idle_mret
    | apply idle_try_finally
    | apply idle_bind
    | intros ? ].

Lemma idle_converter (w : collaborators) (format : string) (md : text)
    (filename : string) :
  idle (converter w format md filename None).
Proof.
  unfold converter. repeat case_match;
    [unfold convertToHTML|unfold convertToPDF|unfold convertToDOCX];
    idle_steps.
Qed.

(** The answer to a request is the same whatever job id it carries, if any,
    and whatever the tracker holds: two requests with the same file and
    format get the same answer from any two states.  And a request without a
    job id, or with an empty one, leaves the tracker as it was. *)
Theorem answer_independent_of_tracking (w : collaborators)
    (req req' : request) (s s' : state) :
  (file req = file req' → body_format req = body_format req' →
   (convert_handler w req s).1 = (convert_handler w req' s').1)
  ∧ (truthy (body_jobId req) = false → (convert_handler w req s).2 = s).
Proof.
  split.
  - intros Hfile Hformat.
    destruct (file req) as [f|] eqn:Hf.
    + symmetry in Hfile.
      destruct (supported (body_format req)) eqn:Hfmt.
      * rewrite (convert_handler_run w req f s Hf Hfmt).
        rewrite (convert_handler_run w req' f s' Hfile
                   ltac:(by rewrite <- Hformat)).
        cbv zeta. rewrite <- Hformat.
        destruct (readFile w (path f)) as [md|e]; [|done].
        pose proof (same_result_converter w (body_format req) md
                      (basename w (originalname f))
                      (or_null (body_jobId req)) (or_null (body_jobId req'))
                      (updateProgress (or_null (body_jobId req)) (inject_Z 5)
                         (Some "Reading file"%string)
                         (upload_received (or_null (body_jobId req)) s))
                      (updateProgress (or_null (body_jobId req')) (inject_Z 5)
                         (Some "Reading file"%string)
                         (upload_received (or_null (body_jobId req')) s')))
          as Hsame.
        destruct (converter _ _ _ _ (or_null (body_jobId req)) _)
          as [[r1|e1] s1], (converter _ _ _ _ (or_null (body_jobId req')) _)
          as [[r2|e2] s2]; simpl in Hsame; try done;
          by injection Hsame as <-.
      * rewrite (invalid_format_run w req f s Hf Hfmt).
        by rewrite (invalid_format_run w req' f s' Hfile
                      ltac:(by rewrite <- Hformat)).
    + symmetry in Hfile.
      rewrite (missing_file_touches_nothing w req s Hf).
      by rewrite (missing_file_touches_nothing w req' s' Hfile).
  - intros Hfalsy.
    assert (Hnull : or_null (body_jobId req) = None)
      by (unfold or_null; by rewrite Hfalsy).
    destruct (file req) as [f|] eqn:Hf;
      [|by rewrite (missing_file_touches_nothing w req s Hf)].
    destruct (supported (body_format req)) eqn:Hfmt.
    + rewrite (convert_handler_run w req f s Hf Hfmt). cbv zeta.
      rewrite Hnull. change (upload_received None s) with s.
      change (updateProgress None (inject_Z 5) (Some "Reading file"%string) s)
        with s.
      destruct (readFile w (path f)) as [md|e];
        [|by apply updateProgress_falsy].
      pose proof (idle_converter w (body_format req) md
                    (basename w (originalname f)) s) as Hidle.
      destruct (converter _ _ _ _ None s) as [[r1|e1] s1]; simpl in Hidle;
        subst s1; [done|by apply updateProgress_falsy].
    + rewrite (invalid_format_run w req f s Hf Hfmt). cbv zeta.
      by rewrite Hnull.
Qed.

(** ** The progress of a conversion to PDF *)

Lemma processMermaidDiagrams_run (w : collaborators) (md : text)
    (format : string) (o : options) (s : state) :
  format ≠ "html"%string →
  processMermaidDiagrams w md format o s
  = (Returns (interleave (outside md 0 (extract md))
                (imap (replacement w) (extract md))),
     apply_updates (opt_jobId o) (rendered_updates w o (extract md)) s).
Proof.
  intros Hfmt. unfold processMermaidDiagrams.
  apply String.eqb_neq in Hfmt. rewrite Hfmt.
  pose proof (render_loop_rewrites w o md (extract md) s (extract_spans md))
    as Hout.
  pose proof (render_loop_state w o (extract md) (length (extract md)) md s
                ltac:(lia)) as Hst.
  destruct (render_loop w o (extract md) (length (extract md)) md s)
    as [res s']. simpl in *. by subst.
Qed.

Lemma apply_updates_app (jobId : option string) (us vs : list (Z * string))
    (s : state) :
  apply_updates jobId (us ++ vs) s
  = apply_updates jobId vs (apply_updates jobId us s).
Proof. unfold apply_updates. apply foldl_app. Qed.

(** A conversion to PDF in which every collaborator does its part. *)
Lemma convertToPDF_run (w : collaborators) (md : text) (filename : string)
    (jobId : option string) (h bytes : text) (s : state) :
  marked w (interleave (outside md 0 (extract md))
              (imap (replacement w) (extract md))) = Returns h →
  puppeteer_launch w = Returns tt →
  page_setContent w (pdf_page w filename h) = Returns tt →
  page_pdf w (pdf_page w filename h) = Returns bytes →
  browser_close w = Returns tt →
  convertToPDF w md filename jobId s
  = (Returns bytes,
     apply_updates jobId
       ([(1, "Starting"%string)]
        ++ rendered_updates w {| opt_jobId := jobId; opt_start := 5;
                                 opt_end := 60 |} (extract md)
        ++ [(70, "Preparing PDF"); (85, "Rendering PDF");
            (95, "Finalizing")]%string) s).
Proof.
  intros Hmarked Hlaunch Hset Hpdf Hclose.
  rewrite !apply_updates_app. unfold convertToPDF.
  unfold mbind at 1, M_bind at 1, bind at 1, progress_msg at 1, act at 1.
  unfold mbind at 1, M_bind at 1, bind at 1.
  rewrite processMermaidDiagrams_run by done.
  unfold mbind at 1, M_bind at 1, bind at 1, await at 1. rewrite Hmarked.
  unfold mbind at 1, M_bind at 1, bind at 1, progress_msg at 1, act at 1.
  unfold mbind at 1, M_bind at 1, bind at 1, await at 1. rewrite Hlaunch.
  unfold try_finally, mbind, M_bind, bind, await, progress_msg, act.
  rewrite Hset, Hpdf, Hclose. reflexivity.
Qed.

Lemma new_message_Some (m old : string) :
  m ≠ ""%string → new_message (Some m) old = m.
Proof. intros Hm. unfold new_message. by rewrite decide_False. Qed.

(** A list of updates with percentages and messages, seen from a subscriber
    that stays connected. *)
Lemma apply_updates_live (id : string) (l : loc) (r : res)
    (us : list (Z * string)) :
  id ≠ ""%string →
  Forall (λ u, 0 ≤ u.1 ≤ 100 ∧ u.2 ≠ ""%string) us →
  ∀ s j c,
    registered s id l j → r ∈ subscribers j →
    streams s !! r = Some c → live c →
    ∃ j', registered (apply_updates (Some id) us s) id l j'
          ∧ subscribers j' = subscribers j
          ∧ streams (apply_updates (Some id) us s) !! r
            = Some {| sent := sent c ++ events_of us;
                      ended := false; broken := false |}.
Proof.
  intros Hid Hus. induction Hus as [|u us [Hu Hm] _ IH];
    intros s j c Hreg Hr Hc Hlive.
  - exists j. split_and!; [done|done|]. simpl. rewrite app_nil_r.
    destruct Hlive as [He Hb]. destruct c; simpl in *. by subst.
  - cbn [apply_updates foldl].
    pose proof (updateProgress_job s id l j (inject_Z u.1) (Some u.2)
                  Hid Hreg) as Hreg1.
    pose proof (updateProgress_stream s id l j (inject_Z u.1) (Some u.2)
                  r c Hid Hreg Hr Hc Hlive) as Hc1.
    rewrite clamp_inject_Z in Hreg1, Hc1 by done.
    rewrite new_message_Some in Hreg1, Hc1 by done.
    destruct (IH _ _ _ Hreg1 Hr Hc1 (push_live _ _ Hlive))
      as (j' & Hreg' & Hsub' & Hstr').
    exists j'. split_and!; [done|done|].
    unfold apply_updates in Hstr'. rewrite Hstr'. simpl.
    by rewrite <- app_assoc.
Qed.

Lemma rendered_message_nonempty (k n : nat) : rendered_message k n ≠ ""%string.
Proof. done. Qed.

Lemma rendered_updates_range (w : collaborators) (jobId : option string)
    (ds : list diagram) (u : Z * string) :
  u ∈ rendered_updates w {| opt_jobId := jobId; opt_start := 5;
                            opt_end := 60 |} ds →
  5 ≤ u.1 ≤ 60 ∧ u.2 ≠ ""%string.
Proof.
  unfold rendered_updates.
  intros (i & _ & Hi)%list_elem_of_omap. unfold rendered_update in Hi.
  destruct (ds !! i) as [d|] eqn:Hd; simpl in Hi; [|done].
  destruct (renderMermaidToImage w i (code d)); [|done].
  injection Hi as <-. simpl. split; [|apply rendered_message_nonempty].
  apply lookup_lt_Some in Hd.
  apply (claimed_progress_range 5 60 (length ds - i) (length ds)); lia.
Qed.

Lemma pdf_curve_range (w : collaborators) (jobId : option string) (md : text) :
  Forall (λ u, 0 ≤ u.1 ≤ 100 ∧ u.2 ≠ ""%string) (pdf_curve w jobId md).
Proof.
  unfold pdf_curve. repeat (apply Forall_cons; split; [simpl; split; [lia|done]|]).
  apply Forall_app. split.
  - apply Forall_forall. intros u Hu.
    destruct (rendered_updates_range w jobId (extract md) u Hu). split; [lia|done].
  - repeat (apply Forall_cons; split; [simpl; split; [lia|done]|]).
    apply Forall_nil_2.
Qed.

Lemma convert_handler_pdf_run (w : collaborators) (req : request)
    (f : upload) (s : state) (id : string) (md h bytes : text) :
  file req = Some f → body_format req = "pdf"%string →
  body_jobId req = Some id → id ≠ ""%string →
  readFile w (path f) = Returns md →
  marked w (interleave (outside md 0 (extract md))
              (imap (replacement w) (extract md))) = Returns h →
  puppeteer_launch w = Returns tt →
  page_setContent w (pdf_page w (basename w (originalname f)) h) = Returns tt →
  page_pdf w (pdf_page w (basename w (originalname f)) h) = Returns bytes →
  browser_close w = Returns tt →
  convert_handler w req s
  = (Returns (Attachment "application/pdf"
                (basename w (originalname f) +:+ ".pdf") bytes),
     completeJob (Some id)
       (apply_updates (Some id) (pdf_curve w (Some id) md)
          (initJob (Some id) s).2)).
Proof.
  intros Hf Hfmt Hjid Hid Hread Hmarked Hlaunch Hset Hpdf Hclose.
  rewrite (convert_handler_run w req f s Hf ltac:(by rewrite Hfmt)).
  cbv zeta. rewrite Hfmt, Hjid, (or_null_Some id Hid), Hread.
  unfold converter. cbn [String.eqb Ascii.eqb Bool.eqb].
  rewrite (convertToPDF_run w md _ (Some id) h bytes _ Hmarked Hlaunch
             Hset Hpdf Hclose).
  unfold pdf_curve, upload_received.
  rewrite (proj2 (truthy_Some id) Hid).
  reflexivity.
Qed.

(** What a subscriber has received once a conversion that reported the
    updates [us] has completed its job. *)
Lemma completed_stream (s : state) (id : string) (l : loc) (j : job)
    (r : res) (c : stream) (us : list (Z * string)) :
  id ≠ ""%string →
  Forall (λ u, 0 ≤ u.1 ≤ 100 ∧ u.2 ≠ ""%string) us →
  registered s id l j → r ∈ subscribers j →
  streams s !! r = Some c → live c →
  streams (completeJob (Some id)
             (apply_updates (Some id) us (initJob (Some id) s).2)) !! r
  = Some {| sent := sent c ++ events_of us ++ [Data 100 "Done"];
            ended := false; broken := false |}.
Proof.
  intros Hid Hrange Hreg Hr Hc Hlive.
  assert (Hinit : initJob (Some id) s = (Some l, s)).
  { destruct Hreg as [Hl _]. apply (initJob_existing id l s Hid Hl). }
  rewrite Hinit. cbn [snd].
  destruct (apply_updates_live id l r us Hid Hrange s j c Hreg Hr Hc Hlive)
    as (j' & Hreg' & Hsub' & Hstr').
  set (s' := apply_updates (Some id) us s) in *.
  rewrite (completeJob_run s' id l j' Hid Hreg').
  set (s0 := with_objs (<[l:=set_status Done j']> (objs s')) s').
  assert (Hreg0 : registered s0 id l (set_status Done j')).
  { destruct Hreg' as [Hl' Hj']. split; simpl; [done|].
    by rewrite lookup_insert_eq. }
  change (streams (setTimeout (CloseSubscribers l id) 250
                     (updateProgress (Some id) (inject_Z 100)
                        (Some "Done"%string) s0)))
    with (streams (updateProgress (Some id) (inject_Z 100)
                     (Some "Done"%string) s0)).
  rewrite (updateProgress_stream s0 id l _ (inject_Z 100)
             (Some "Done"%string) r _ Hid Hreg0
             ltac:(simpl; by rewrite Hsub') Hstr' ltac:(done)).
  rewrite clamp_inject_Z by lia. unfold push. simpl.
  by rewrite <- app_assoc.
Qed.

(** A conversion to PDF that succeeds reports, in this order: Upload
    received at 1, Reading file at 5, Starting at 1, one update per diagram
    that rendered, from the last diagram to the first, Preparing PDF at 70,
    Rendering PDF at 85, Finalizing at 95 and, on completion, Done at 100; a
    subscriber that stays connected receives exactly these events. *)
Theorem pdf_conversion_progress (w : collaborators) (req : request)
    (f : upload) (s : state) (id : string) (md h bytes : text) :
  file req = Some f → body_format req = "pdf"%string →
  body_jobId req = Some id → id ≠ ""%string →
  readFile w (path f) = Returns md →
  marked w (interleave (outside md 0 (extract md))
              (imap (replacement w) (extract md))) = Returns h →
  puppeteer_launch w = Returns tt →
  page_setContent w (pdf_page w (basename w (originalname f)) h) = Returns tt →
  page_pdf w (pdf_page w (basename w (originalname f)) h) = Returns bytes →
  browser_close w = Returns tt →
  convert_handler w req s
  = (Returns (Attachment "application/pdf"
                (basename w (originalname f) +:+ ".pdf") bytes),
     completeJob (Some id)
       (apply_updates (Some id) (pdf_curve w (Some id) md)
          (initJob (Some id) s).2))
  ∧ ∀ l j r c,
      registered s id l j → r ∈ subscribers j →
      streams s !! r = Some c → live c →
      streams (convert_handler w req s).2 !! r
      = Some {| sent := sent c ++ events_of (pdf_curve w (Some id) md)
                        ++ [Data 100 "Done"];
                ended := false; broken := false |}.
Proof.
  intros Hf Hfmt Hjid Hid Hread Hmarked Hlaunch Hset Hpdf Hclose.
  pose proof (convert_handler_pdf_run w req f s id md h bytes Hf Hfmt Hjid
                Hid Hread Hmarked Hlaunch Hset Hpdf Hclose) as Hrun.
  split; [exact Hrun|].
  intros l j r c Hreg Hr Hc Hlive. rewrite Hrun. cbn [snd].
  apply (completed_stream s id l j r c _ Hid (pdf_curve_range w (Some id) md)
           Hreg Hr Hc Hlive).
Qed.

Lemma claimed_progress_mono (start end_ : Z) (k1 k2 n : nat) :
  start ≤ end_ → (k1 ≤ k2)%nat → (0 < n)%nat →
  claimed_progress start end_ k1 n ≤ claimed_progress start end_ k2 n.
Proof.
  intros Hle Hk Hn. unfold claimed_progress.
  apply Z.min_le_compat_r, Z.add_le_mono_l, Z.div_le_mono; [lia|nia].
Qed.

Lemma rendered_updates_sorted (w : collaborators) (o : options)
    (ds : list diagram) (k : nat) :
  opt_start o ≤ opt_end o →
  StronglySorted Z.le
    (fst <$> omap (rendered_update w o ds) (reverse (seq 0 k))).
Proof.
  intros Hle. induction k as [|k IH]; [constructor|].
  rewrite seq_S, reverse_app. cbn [reverse rev_append app plus].
  cbn [omap list_omap].
  destruct (rendered_update w o ds k) as [u|] eqn:Hu; [|exact IH].
  rewrite fmap_cons. constructor; [exact IH|].
  apply Forall_forall. intros v (u' & -> & Hu')%list_elem_of_fmap.
  apply list_elem_of_omap in Hu' as (i & Hi & Hu').
  apply elem_of_reverse, elem_of_seq in Hi.
  unfold rendered_update in Hu, Hu'.
  destruct (ds !! k) as [dk|] eqn:Hdk; simpl in Hu; [|done].
  destruct (ds !! i) as [di|] eqn:Hdi; simpl in Hu'; [|done].
  destruct (renderMermaidToImage w k (code dk)); [|done].
  destruct (renderMermaidToImage w i (code di)); [|done].
  injection Hu as <-. injection Hu' as <-. simpl.
  apply lookup_lt_Some in Hdk.
  apply claimed_progress_mono; [done|lia|lia].
Qed.

Lemma pdf_curve_sorted (w : collaborators) (jobId : option string)
    (md : text) :
  StronglySorted Z.le (fst <$> drop 2 (pdf_curve w jobId md)).
Proof.
  unfold pdf_curve. cbn [app drop].
  rewrite fmap_cons, fmap_app.
  assert (Hin : ∀ v,
             v ∈ fst <$> rendered_updates w
                           {| opt_jobId := jobId; opt_start := 5;
                              opt_end := 60 |} (extract md) →
             5 ≤ v ≤ 60).
  { intros v (u & -> & Hu)%list_elem_of_fmap.
    by destruct (rendered_updates_range w jobId (extract md) u Hu). }
  constructor.
  - apply StronglySorted_app_2.
    + intros v1 v2 Hv1 Hv2. apply Hin in Hv1. simpl in Hv2.
      repeat (apply elem_of_cons in Hv2 as [->|Hv2]; [lia|]).
      by apply elem_of_nil in Hv2.
    + apply rendered_updates_sorted. simpl. lia.
    + simpl. repeat (constructor; [|repeat constructor; lia]). constructor.
  - apply Forall_app. split.
    + apply Forall_forall. intros v Hv. apply Hin in Hv. simpl. lia.
    + simpl. repeat constructor; lia.
Qed.

Lemma progress_values_events (us : list (Z * string)) :
  progress_values (events_of us) = fst <$> us.
Proof.
  unfold progress_values, events_of.
  induction us as [|u us IH]; [done|]. cbn [fmap list_fmap omap list_omap].
  cbn [fmap list_fmap omap list_omap] in IH. by rewrite IH.
Qed.

Lemma progress_values_app (cs ds : list chunk) :
  progress_values (cs ++ ds) = progress_values cs ++ progress_values ds.
Proof. apply omap_app. Qed.

(** What a subscriber of a conversion to PDF that succeeds sees: Upload
    received at 1, Reading file at 5, then Starting at 1 again, and from
    there on values that never go down, however many diagrams there are and
    whichever of them render, up to Done at 100. The one step back is the
    one from Reading file to Starting. *)
Theorem pdf_progress_monotone (w : collaborators) (req : request)
    (f : upload) (s : state) (id : string) (md h bytes : text)
    (l : loc) (j : job) (r : res) (c : stream) :
  file req = Some f → body_format req = "pdf"%string →
  body_jobId req = Some id → id ≠ ""%string →
  readFile w (path f) = Returns md →
  marked w (interleave (outside md 0 (extract md))
              (imap (replacement w) (extract md))) = Returns h →
  puppeteer_launch w = Returns tt →
  page_setContent w (pdf_page w (basename w (originalname f)) h) = Returns tt →
  page_pdf w (pdf_page w (basename w (originalname f)) h) = Returns bytes →
  browser_close w = Returns tt →
  registered s id l j → r ∈ subscribers j →
  streams s !! r = Some c → live c →
  ∃ evs c',
    streams (convert_handler w req s).2 !! r = Some c'
    ∧ sent c' = sent c ++ Data 1 "Upload received" :: Data 5 "Reading file"
                          :: Data 1 "Starting" :: evs
    ∧ StronglySorted Z.le (1 :: progress_values evs)
    ∧ last evs = Some (Data 100 "Done").
Proof.
  intros Hf Hfmt Hjid Hid Hread Hmarked Hlaunch Hset Hpdf Hclose
    Hreg Hr Hc Hlive.
  rewrite (convert_handler_pdf_run w req f s id md h bytes Hf Hfmt Hjid
             Hid Hread Hmarked Hlaunch Hset Hpdf Hclose). cbn [snd].
  rewrite (completed_stream s id l j r c _ Hid (pdf_curve_range w (Some id) md)
             Hreg Hr Hc Hlive).
  exists (events_of (drop 3 (pdf_curve w (Some id) md)) ++ [Data 100 "Done"]).
  eexists. split; [reflexivity|]. split_and!.
  - cbn [sent]. unfold pdf_curve. cbn [app drop events_of fmap list_fmap fst snd].
    reflexivity.
  - rewrite progress_values_app, progress_values_events.
    pose proof (pdf_curve_sorted w (Some id) md) as Hsorted.
    pose proof (pdf_curve_range w (Some id) md) as Hrange.
    unfold pdf_curve in *. cbn [app drop fmap list_fmap fst] in *.
    apply Forall_cons in Hrange as [_ Hrange].
    apply Forall_cons in Hrange as [_ Hrange].
    apply Forall_cons in Hrange as [_ Hrange].
    apply StronglySorted_inv in Hsorted as [Hsorted Hfirst].
    constructor.
    + apply StronglySorted_app_2; [|exact Hsorted|repeat constructor].
      intros v1 v2 (u & -> & Hu)%list_elem_of_fmap Hv2.
      apply list_elem_of_singleton in Hv2 as ->.
      rewrite Forall_forall in Hrange. apply (Hrange u Hu).
    + apply Forall_app. split; [exact Hfirst|]. repeat constructor. lia.
  - by rewrite last_snoc.
Qed.

(** * One id per conversion: the premise of the timelines *)

Lemma owned_mono (used used' : gset string) (s s' : state) (k : task) :
  used ⊆ used' →
  (∀ l, is_Some (objs s !! l) → is_Some (objs s' !! l)) →
  (∀ id l, jobs s' !! id = Some l →
           jobs s !! id = Some l ∨ objs s !! l = None) →
  owned used s k → owned used' s' k.
Proof.
  intros Hused Hobjs Hjobs. destruct k as [l' id'|id']; simpl.
  - intros (Hid & Hl & Hfree). split; [by apply Hused|].
    split; [by apply Hobjs|].
    intros id Hnot Hl'. destruct (Hjobs id l' Hl') as [Hold|Hnone].
    + apply (Hfree id); [|done]. intros Hin. apply Hnot. by apply Hused.
    + rewrite Hnone in Hl. by destruct Hl.
  - apply Hused.
Qed.

Lemma tidy_used (used used' : gset string) (s : state) :
  used ⊆ used' → tidy used s → tidy used' s.
Proof.
  intros Hused (Ht & Hrest). split; [|done].
  eapply Forall_impl; [exact Ht|]. intros tk.
  apply owned_mono; [done|done|]. intros id l Hl. by left.
Qed.

(** A change of job objects that are there, their subscribers at most
    fewer, and of streams that are there keeps the state tidy. *)
Lemma tidy_refine (used : gset string) (s s' : state) :
  timers s' = timers s → jobs s' = jobs s →
  (∀ l, is_Some (objs s !! l) → is_Some (objs s' !! l)) →
  (∀ l j', objs s' !! l = Some j' →
           ∃ j, objs s !! l = Some j ∧ subscribers j' ⊆ subscribers j) →
  (∀ r, is_Some (streams s !! r) → is_Some (streams s' !! r)) →
  tidy used s → tidy used s'.
Proof.
  intros Ht Hj Hdom Hobjs Hstr (Htimers & Hjobs & Hinj & Hexcl & Hsub).
  split_and!.
  - rewrite Ht. eapply Forall_impl; [exact Htimers|]. intros tk.
    apply owned_mono; [done|done|]. intros id l. rewrite Hj. by left.
  - intros id l. rewrite Hj. intros Hl. by apply Hdom, (Hjobs id).
  - by rewrite Hj.
  - intros l1 l2 j1 j2 r H1 H2 Hr1 Hr2.
    destruct (Hobjs l1 j1 H1) as (j1' & H1' & Hs1).
    destruct (Hobjs l2 j2 H2) as (j2' & H2' & Hs2).
    apply (Hexcl l1 l2 j1' j2' r); auto.
  - intros l j r Hl Hr. destruct (Hobjs l j Hl) as (j' & Hl' & Hs').
    apply Hstr, (Hsub l j' r); auto.
Qed.

Lemma tidy_updateProgress (used : gset string) (jobId : option string)
    (p : Q) (msg : option string) (s : state) :
  tidy used s → tidy used (updateProgress jobId p msg s).
Proof.
  intros Hs. destruct jobId as [id|]; [|done].
  destruct (decide (id = ""%string)) as [->|Hid]; [done|].
  destruct (get_job id s) as [[l j]|] eqn:Hget.
  - apply get_job_Some in Hget.
    rewrite (updateProgress_run s id l j p msg Hid Hget).
    destruct Hget as [Hl Hj].
    apply (tidy_refine used s); simpl; try done.
    + intros l'. rewrite lookup_insert_is_Some. intros. 
      destruct (decide (l = l')); [by left|by right].
    + intros l' j'. destruct (decide (l' = l)) as [->|Hne].
      * rewrite lookup_insert_eq. intros [= <-]. by exists j.
      * rewrite lookup_insert_ne by done. intros Hj'. by exists j'.
    + intros r. rewrite for_subscribers_lookup. case_decide; [|done].
      intros [c Hc]. rewrite Hc. by eexists.
  - unfold updateProgress. rewrite Hget. by destruct (truthy (Some id)).
Qed.

Lemma tidy_initJob (used : gset string) (jobId : option string) (s : state) :
  tidy used s → tidy used (initJob jobId s).2.
Proof.
  intros Hs. unfold initJob. destruct jobId as [id|]; [|done].
  destruct (truthy (Some id)); [|done].
  destruct (jobs s !! id) as [l|] eqn:Hl; [done|]. simpl.
  set (l := fresh (dom (objs s))).
  assert (Hfresh : objs s !! l = None) by (apply not_elem_of_dom, is_fresh).
  destruct Hs as (Htimers & Hjobs & Hinj & Hexcl & Hsub).
  assert (Hrange : ∀ id', jobs s !! id' ≠ Some l).
  { intros id' Hl'. destruct (Hjobs id' l Hl') as [j Hj]. congruence. }
  split_and!; simpl.
  - eapply Forall_impl; [exact Htimers|]. intros tk.
    apply owned_mono; [done| |]; simpl.
    + intros l'. rewrite lookup_insert_is_Some. intros.
      destruct (decide (l = l')); [by left|by right].
    + intros id' l'. destruct (decide (id' = id)) as [->|Hne].
      * rewrite lookup_insert_eq. intros [= <-]. by right.
      * rewrite lookup_insert_ne by done. by left.
  - intros id' l'. rewrite lookup_insert_is_Some.
    destruct (decide (id' = id)) as [->|Hne].
    + rewrite lookup_insert_eq. intros [= <-]. by left.
    + rewrite lookup_insert_ne by done. intros Hl'.
      destruct (decide (l = l')); [by left|right].
      split; [done|]. by apply (Hjobs id').
  - intros id1 id2 l'.
    destruct (decide (id1 = id)) as [->|H1];
      destruct (decide (id2 = id)) as [->|H2]; [done| | |].
    + rewrite lookup_insert_eq, lookup_insert_ne by done.
      intros [= <-] H. by destruct (Hrange id2).
    + rewrite lookup_insert_eq, lookup_insert_ne by done.
      intros H [= <-]. by destruct (Hrange id1).
    + rewrite !lookup_insert_ne by done. apply Hinj.
  - intros l1 l2 j1 j2 r.
    destruct (decide (l1 = l)) as [->|H1].
    { rewrite lookup_insert_eq. intros [= <-] _ Hr. simpl in Hr.
      by apply elem_of_empty in Hr. }
    destruct (decide (l2 = l)) as [->|H2].
    { rewrite lookup_insert_eq. intros _ [= <-] _ Hr. simpl in Hr.
      by apply elem_of_empty in Hr. }
    rewrite !lookup_insert_ne by done. apply Hexcl.
  - intros l' j r. destruct (decide (l' = l)) as [->|Hne].
    + rewrite lookup_insert_eq. intros [= <-] Hr. simpl in Hr.
      by apply elem_of_empty in Hr.
    + rewrite lookup_insert_ne by done. apply Hsub.
Qed.

Lemma tidy_completeJob (used : gset string) (jobId : option string)
    (s : state) :
  (∀ id, jobId = Some id → id ∈ used) →
  tidy used s → tidy used (completeJob jobId s).
Proof.
  intros Hused Hs. destruct jobId as [id|]; [|done].
  destruct (decide (id = ""%string)) as [->|Hid]; [done|].
  destruct (get_job id s) as [[l j]|] eqn:Hget.
  - apply get_job_Some in Hget. rewrite (completeJob_run s id l j Hid Hget).
    set (s0 := with_objs (<[l := set_status Done j]> (objs s)) s).
    assert (Hs0 : tidy used s0).
    { destruct Hget as [Hl Hj]. apply (tidy_refine used s); simpl; try done.
      - intros l'. rewrite lookup_insert_is_Some. intros.
        destruct (decide (l = l')); [by left|by right].
      - intros l' j'. destruct (decide (l' = l)) as [->|Hne].
        + rewrite lookup_insert_eq. intros [= <-]. by exists j.
        + rewrite lookup_insert_ne by done. intros Hj'. by exists j'. }
    pose proof (tidy_updateProgress used (Some id) (inject_Z 100)
                  (Some "Done"%string) s0 Hs0) as Hs1.
    assert (Hreg0 : registered s0 id l (set_status Done j)).
    { destruct Hget as [Hl Hj]. split; simpl; [done|].
      by rewrite lookup_insert_eq. }
    pose proof (updateProgress_job s0 id l _ (inject_Z 100)
                  (Some "Done"%string) Hid Hreg0) as [Hl1 Hj1].
    set (s1 := updateProgress (Some id) (inject_Z 100) (Some "Done"%string)
                 s0) in *.
    destruct Hs1 as (Htimers & Hjobs & Hinj & Hexcl & Hsub).
    split_and!; try done. simpl. apply Forall_app. split; [done|].
    apply Forall_cons. split; [|apply Forall_nil_2]. simpl.
    split; [by apply Hused|]. split; [by eexists|].
    intros id' Hnot Hl'. apply Hnot.
    rewrite (Hinj id' id l Hl' Hl1). by apply Hused.
  - unfold completeJob. rewrite Hget. by destruct (truthy (Some id)).
Qed.

Lemma tidy_step (used : gset string) (s s' : state) :
  tidy used s → step s s' → tidy used s'.
Proof.
  intros Hs Hstep. destruct Hstep as [s d Hd|s pre t k post Ht Hdue].
  - done.
  - destruct Hs as (Htimers & Hjobs & Hinj & Hexcl & Hsub).
    rewrite Ht in Htimers. apply Forall_app in Htimers as [Hpre Hpost].
    apply Forall_cons in Hpost as [Hk Hpost].
    assert (Hs0 : tidy used (with_timers (pre ++ post) s)).
    { split_and!; try done. simpl. by apply Forall_app. }
    set (s0 := with_timers (pre ++ post) s) in *.
    destruct k as [l id|id]; cbn [run_task].
    + destruct (objs s0 !! l) as [j|] eqn:Hj; [|done].
      destruct Hk as (Hid & _ & _).
      assert (Hs1 : tidy used
                (with_objs (<[l := set_subscribers ∅ j]> (objs s0))
                   (with_streams
                      (for_subscribers res_end (subscribers j) (streams s0))
                      s0))).
      { apply (tidy_refine used s0); simpl; try done.
        - intros l'. rewrite lookup_insert_is_Some. intros.
          destruct (decide (l = l')); [by left|by right].
        - intros l' j'. destruct (decide (l' = l)) as [->|Hne].
          + rewrite lookup_insert_eq. intros [= <-]. exists j.
            split; [done|]. simpl. apply empty_subseteq.
          + rewrite lookup_insert_ne by done. intros Hj'. by exists j'.
        - intros r. rewrite for_subscribers_lookup. case_decide; [|done].
          intros [c Hc]. rewrite Hc. by eexists. }
      destruct Hs1 as (Htimers1 & Hrest). split; [|done].
      cbn [setTimeout timers with_timers]. apply Forall_app. split; [done|].
      apply Forall_cons. split; [done|apply Forall_nil_2].
    + destruct Hs0 as (Htimers0 & _). split_and!; simpl.
      * eapply Forall_impl; [exact Htimers0|]. intros tk.
        apply owned_mono; [done|done|]. simpl. intros id' l'.
        destruct (decide (id' = id)) as [->|Hne].
        -- by rewrite lookup_delete_eq.
        -- rewrite lookup_delete_ne by done. by left.
      * intros id' l'. destruct (decide (id' = id)) as [->|Hne].
        -- by rewrite lookup_delete_eq.
        -- rewrite lookup_delete_ne by done. apply Hjobs.
      * intros id1 id2 l'.
        destruct (decide (id1 = id)) as [->|H1];
          [by rewrite lookup_delete_eq|].
        destruct (decide (id2 = id)) as [->|H2];
          [by rewrite (lookup_delete_eq (jobs s))|].
        rewrite !lookup_delete_ne by done. apply Hinj.
      * done.
      * done.
Qed.

Lemma tidy_progress_endpoint (used : gset string) (jobId : string) (r : res)
    (s s' : state) :
  streams s !! r = None →
  tidy used s → progress_endpoint jobId r s = Some s' → tidy used s'.
Proof.
  intros Hr Hs. unfold progress_endpoint.
  pose proof (tidy_initJob used (Some jobId) s Hs) as Hs1.
  assert (Hr1 : streams (initJob (Some jobId) s).2 !! r = None).
  { unfold initJob. destruct (truthy (Some jobId)); [|done].
    by destruct (jobs s !! jobId). }
  destruct (initJob (Some jobId) s) as [[l|] s1]; [|done]. simpl in *.
  destruct (objs s1 !! l) as [j|] eqn:Hj; [|done]. intros [= <-].
  destruct Hs1 as (Htimers & Hjobs & Hinj & Hexcl & Hsub).
  assert (Hnew : ∀ l' j', objs s1 !! l' = Some j' → r ∉ subscribers j').
  { intros l' j' Hj' Hin. destruct (Hsub l' j' r Hj' Hin) as [c Hc].
    congruence. }
  split_and!; simpl.
  - eapply Forall_impl; [exact Htimers|]. intros tk.
    apply owned_mono; [done| |]; simpl.
    + intros l'. rewrite lookup_insert_is_Some. intros.
      destruct (decide (l = l')); [by left|by right].
    + intros id' l' Hl'. by left.
  - intros id' l' Hl'. rewrite lookup_insert_is_Some.
    destruct (decide (l = l')); [by left|right]. split; [done|].
    by apply (Hjobs id').
  - done.
  - intros l1 l2 j1 j2 r'.
    destruct (decide (l1 = l)) as [->|H1];
      destruct (decide (l2 = l)) as [->|H2]; [done| | |].
    + rewrite lookup_insert_eq, lookup_insert_ne by done.
      intros [= <-] H2' Hr1' Hr2'. simpl in Hr1'.
      apply elem_of_union in Hr1' as [Hr1'|Hr1'].
      * apply elem_of_singleton in Hr1'. subst r'.
        by destruct (Hnew l2 j2 H2').
      * by apply (Hexcl l l2 j j2 r').
    + rewrite lookup_insert_eq, lookup_insert_ne by done.
      intros H1' [= <-] Hr1' Hr2'. simpl in Hr2'.
      apply elem_of_union in Hr2' as [Hr2'|Hr2'].
      * apply elem_of_singleton in Hr2'. subst r'.
        by destruct (Hnew l1 j1 H1').
      * by apply (Hexcl l1 l j1 j r').
    + rewrite !lookup_insert_ne by done. apply Hexcl.
  - intros l' j' r'. rewrite lookup_insert_is_Some.
    destruct (decide (l' = l)) as [->|Hne].
    + rewrite lookup_insert_eq. intros [= <-] Hr'. simpl in Hr'.
      apply elem_of_union in Hr' as [Hr'|Hr'].
      * apply elem_of_singleton in Hr'. by left.
      * destruct (decide (r = r')); [by left|right]. split; [done|].
        by apply (Hsub l j r').
    + rewrite lookup_insert_ne by done. intros Hj' Hr'.
      destruct (decide (r = r')); [by left|right]. split; [done|].
      by apply (Hsub l' j' r').
Qed.

Lemma tidy_on_close (used : gset string) (l : loc) (r : res) (s : state) :
  tidy used s → tidy used (on_close l r s).
Proof.
  intros Hs. apply (tidy_refine used s); unfold on_close; simpl; try done.
  - intros l'. destruct (objs s !! l) as [j|] eqn:Hj; [|done].
    rewrite lookup_insert_is_Some. intros.
    destruct (decide (l = l')); [by left|by right].
  - intros l' j'. destruct (objs s !! l) as [j|] eqn:Hj.
    + destruct (decide (l' = l)) as [->|Hne].
      * rewrite lookup_insert_eq. intros [= <-]. exists j.
        split; [done|]. simpl. apply subseteq_difference_l. done.
      * rewrite lookup_insert_ne by done. intros Hj'. by exists j'.
    + intros Hj'. by exists j'.
  - intros r'. destruct (streams s !! r) as [c|] eqn:Hc; [|done].
    rewrite lookup_insert_is_Some. intros.
    destruct (decide (r = r')); [by left|by right].
Qed.

(** ** Invariants of the tracker through a conversion *)

Lemma kept_progress_msg (P : state → Prop) (jobId : option string) (p : Z)
    (msg : string) :
  update_stable P → keeps P (progress_msg jobId p msg).
Proof. intros HP. apply keeps_act. intros s. apply HP. Qed.

Lemma kept_render_loop (P : state → Prop) (w : collaborators) (o : options)
    (ds : list diagram) (k : nat) (pc : text) :
  update_stable P → keeps P (render_loop w o ds k pc).
Proof.
  intros HP. revert pc. induction k as [|i IH]; intros pc; cbn [render_loop].
  - apply keeps_ret.
  - destruct (ds !! i) as [d|]; [|apply IH].
    apply keeps_bind; [|apply IH].
    intros s Hs. rewrite render_one_run.
    destruct (renderMermaidToImage w i (code d)); simpl; [|done].
    destruct (0 <? length ds)%nat; [|done].
    by apply HP.
Qed.

Lemma kept_processMermaidDiagrams (P : state → Prop) (w : collaborators)
    (md : text) (format : string) (o : options) :
  update_stable P → keeps P (processMermaidDiagrams w md format o).
Proof.
  intros HP. unfold processMermaidDiagrams.
  destruct (String.eqb format "html").
  - apply keeps_bind; [|intros; apply keeps_ret].
    apply keeps_act. intros s. apply HP.
  - by apply kept_render_loop.
Qed.

Lemma kept_converter (P : state → Prop) (w : collaborators) (format : string)
    (md : text) (filename : string) (jobId : option string) :
  update_stable P → keeps P (converter w format md filename jobId).
Proof.
  intros HP. unfold converter. repeat case_match;
    [unfold convertToHTML|unfold convertToPDF|unfold convertToDOCX];
    repeat first
      [ apply (kept_progress_msg P _ _ _ HP)
      | apply (kept_processMermaidDiagrams P _ _ _ _ HP)
      | apply keeps_await
      | apply keeps_ret
      | apply keeps_try_finally
      | apply keeps_bind
      | intros ? ].
Qed.

Lemma kept_upload_received (P : state → Prop) (jobId : option string)
    (s : state) :
  update_stable P → (∀ jobId s, P s → P (initJob jobId s).2) →
  P s → P (upload_received jobId s).
Proof.
  intros HP Hinit Hs. unfold upload_received. destruct (truthy jobId); [|done].
  by apply HP, Hinit.
Qed.

(** The handler answers with the converted file after [completeJob] on a
    state the predicate holds in, or with an error in such a state. *)
Lemma convert_handler_outcome (P : state → Prop) (w : collaborators)
    (req : request) (s : state) :
  update_stable P → (∀ jobId s, P s → P (initJob jobId s).2) →
  P s →
  (∃ ct fn body s',
     convert_handler w req s
     = (Returns (Attachment ct fn body),
        completeJob (or_null (body_jobId req)) s')
     ∧ P s')
  ∨ (∃ code msg sf,
       convert_handler w req s = (Returns (Json code msg), sf) ∧ P sf).
Proof.
  intros HP Hinit Hs. destruct (file req) as [f|] eqn:Hf.
  - destruct (supported (body_format req)) eqn:Hfmt.
    + rewrite (convert_handler_run w req f s Hf Hfmt). cbv zeta.
      pose proof (kept_upload_received P (or_null (body_jobId req)) s
                    HP Hinit Hs) as Hup.
      destruct (readFile w (path f)) as [md|e].
      * pose proof (kept_converter P w (body_format req) md
                      (basename w (originalname f))
                      (or_null (body_jobId req)) HP _
                      (HP (or_null (body_jobId req))
                         (inject_Z 5) (Some "Reading file"%string) _ Hup))
          as Hconv.
        destruct (converter _ _ _ _ _ _) as [[result|e] s']; simpl in Hconv.
        -- left. by eexists _, _, _, s'.
        -- right. eexists _, _, _. split; [done|]. by apply HP.
      * right. eexists _, _, _. split; [done|]. by apply HP.
    + rewrite (invalid_format_run w req f s Hf Hfmt). cbv zeta.
      right. eexists _, _, _. split; [done|].
      by apply (kept_upload_received P (or_null (body_jobId req))).
  - rewrite (missing_file_touches_nothing w req s Hf).
    right. by eexists _, _, _.
Qed.

Lemma tidy_convert_handler (used : gset string) (w : collaborators)
    (req : request) (s : state) :
  tidy used s → tidy (used ∪ requested req) (convert_handler w req s).2.
Proof.
  intros Hs.
  destruct (convert_handler_outcome (tidy used) w req s
              (tidy_updateProgress used) (tidy_initJob used) Hs)
    as [(ct & fn & body & s' & -> & Hs')|(code & msg & sf & -> & Hsf)];
    cbn [snd].
  - apply tidy_completeJob.
    + intros id Hid. apply elem_of_union. right. unfold requested.
      unfold or_null in Hid. destruct (truthy (body_jobId req)); [|done].
      rewrite Hid. by apply elem_of_singleton.
    + apply (tidy_used used); [|done]. apply union_subseteq_l.
  - apply (tidy_used used); [|done]. apply union_subseteq_l.
Qed.

(** The states of a server whose conversion requests each carry an id of
    their own are tidy. *)
Lemma disciplined_tidy (used : gset string) (s : state) :
  disciplined used s → tidy used s.
Proof.
  induction 1 as [|used s jobId r s' _ IH Hr Hsub|used s l r _ IH
                 |used s w req _ IH Hnew|used s s' _ IH Hstep].
  - unfold tidy, empty_state. simpl. split_and!;
      [apply Forall_nil_2|intros ??|intros ???|intros ?????|intros ???];
      by rewrite lookup_empty.
  - by eapply tidy_progress_endpoint.
  - by apply tidy_on_close.
  - by apply tidy_convert_handler.
  - by eapply tidy_step.
Qed.

(** In a tidy state no pending callback concerns a job whose conversion has
    not been requested yet. *)
Lemma tidy_quiet (used : gset string) (s : state) (id : string) (l : loc)
    (j : job) :
  tidy used s → id ∉ used → registered s id l j →
  quiet s id l (subscribers j).
Proof.
  intros (Htimers & Hjobs & Hinj & Hexcl & Hsub) Hid [Hl Hj].
  unfold quiet. eapply Forall_impl; [exact Htimers|].
  intros [t [l' id'|id']]; simpl.
  - intros (Hid' & Hl' & Hfree).
    assert (Hne : l' ≠ l).
    { intros ->. by apply (Hfree id). }
    split; [done|]. split; [by intros ->|].
    intros j' Hj' r Hr' Hr. apply Hne.
    by apply (Hexcl l' l j' j r).
  - intros Hid'. by intros ->.
Qed.

(** The premise of the timelines.  On a server whose conversion requests
    each carry an id of their own and whose subscriptions each have a
    response of their own, a conversion completes its job in a state in which
    no pending callback concerns the job, and a conversion that fails leaves
    the job in such a state; the callbacks of other jobs may be pending. *)
Theorem one_conversion_per_id (used : gset string) (s : state)
    (w : collaborators) (req : request) (id : string) :
  disciplined used s → body_jobId req = Some id → id ≠ ""%string →
  id ∉ used →
  (∃ ct fn body s',
     convert_handler w req s
     = (Returns (Attachment ct fn body), completeJob (Some id) s')
     ∧ ∀ l j, registered s' id l j → quiet s' id l (subscribers j))
  ∨ (∃ code msg sf,
       convert_handler w req s = (Returns (Json code msg), sf)
       ∧ ∀ l j, registered sf id l j → quiet sf id l (subscribers j)).
Proof.
  intros Hs Hreq Hid Hnew. apply disciplined_tidy in Hs.
  destruct (convert_handler_outcome (tidy used) w req s
              (tidy_updateProgress used) (tidy_initJob used) Hs)
    as [(ct & fn & body & s' & Hrun & Hs')|(code & msg & sf & Hrun & Hsf)].
  - left. exists ct, fn, body, s'. rewrite Hrun, Hreq, (or_null_Some id Hid).
    split; [done|]. intros l j. by apply (tidy_quiet used).
  - right. exists code, msg, sf. split; [done|].
    intros l j. by apply (tidy_quiet used).
Qed.

(** * Further properties: the header text *)

Lemma replace_all_length (c : unit16) (by_ s : text) :
  (length (replace_all c by_ s) ≤ Nat.max 1 (length by_) * length s)%nat.
Proof.
  induction s as [|x s IH]; simpl; [lia|].
  rewrite length_app. destruct (x =? c)%N; simpl; nia.
Qed.

Lemma replace_all_free (c : unit16) (by_ s : text) :
  c ∉ by_ → c ∉ replace_all c by_ s.
Proof.
  intros Hby. induction s as [|x s IH]; simpl; [apply not_elem_of_nil|].
  rewrite elem_of_app. intros [Hin|Hin]; [|done].
  destruct (x =? c)%N eqn:Hx; [done|].
  apply list_elem_of_singleton in Hin. subst x.
  by rewrite N.eqb_refl in Hx.
Qed.

Lemma replace_all_keeps_free (c d : unit16) (by_ s : text) :
  d ∉ by_ → d ∉ s → d ∉ replace_all c by_ s.
Proof.
  intros Hby. induction s as [|x s IH]; simpl; [done|].
  intros Hs. apply not_elem_of_cons in Hs as [Hdx Hs].
  rewrite elem_of_app. intros [Hin|Hin]; [|by apply IH].
  destruct (x =? c)%N; [done|].
  by apply list_elem_of_singleton in Hin.
Qed.

Lemma replace_all_id (c : unit16) (by_ s : text) :
  c ∉ s → replace_all c by_ s = s.
Proof.
  induction s as [|x s IH]; simpl; [done|].
  intros Hs. apply not_elem_of_cons in Hs as [Hcx Hs].
  destruct (x =? c)%N eqn:Hx; [by apply N.eqb_eq in Hx|].
  simpl. f_equal. by apply IH.
Qed.

Lemma replace_all_app (c : unit16) (by_ s t : text) :
  replace_all c by_ (s ++ t) = replace_all c by_ s ++ replace_all c by_ t.
Proof.
  induction s as [|x s IH]; simpl; [done|]. by rewrite IH, app_assoc.
Qed.

Lemma escape_angles_units (s : text) :
  escape_angles s = s ≫= escaped_unit.
Proof.
  unfold escape_angles. induction s as [|x s IH]; [done|].
  cbn [replace_all mbind list_bind]. rewrite replace_all_app, IH. f_equal.
  unfold escaped_unit, LT, GT.
  destruct (x =? 60)%N eqn:H60; [by vm_compute|].
  cbn [replace_all]. destruct (x =? 62)%N; [by vm_compute|].
  by rewrite app_nil_r.
Qed.

(** Whatever header text a request carries: without a text the header is the
    file name; a text is cut to 200 code units and every < in it is replaced
    by the entity &lt; and every > by &gt;, every other code unit staying
    where it is. So the header the converters put into the page holds no
    angle bracket, the text cannot open or close a tag, and it is at most 800
    code units long; text without angle brackets is taken as it is, cut to
    200 code units. *)
Theorem header_text_holds_no_tag (x : option text) (filename : text) :
  (parse_headerText x = [] →
   headerStr (parse_headerText x) filename = filename)
  ∧ (parse_headerText x ≠ [] →
     headerStr (parse_headerText x) filename
     = take 200 (default [] x) ≫= escaped_unit
     ∧ (LT ∉ headerStr (parse_headerText x) filename)
     ∧ (GT ∉ headerStr (parse_headerText x) filename)
     ∧ (length (headerStr (parse_headerText x) filename) ≤ 800)%nat
     ∧ ((LT ∉ default [] x) → (GT ∉ default [] x) →
        headerStr (parse_headerText x) filename = take 200 (default [] x))).
Proof.
  split; [by intros ->|].
  intros Hne. unfold headerStr.
  destruct (parse_headerText x) as [|c t] eqn:Ht; [done|]. rewrite <- Ht.
  assert (Hlen : (length (parse_headerText x) ≤ 200)%nat).
  { unfold parse_headerText. rewrite length_take. lia. }
  split; [apply escape_angles_units|].
  unfold escape_angles. split_and!.
  - apply replace_all_keeps_free; [|apply replace_all_free];
      apply (bool_decide_unpack _); by vm_compute.
  - apply replace_all_free. apply (bool_decide_unpack _). by vm_compute.
  - clear -Hlen. unfold parse_headerText in *.
    set (s := take 200 (default [] x)) in *.
    assert (Hsame : (length (replace_all GT (units "&gt;")
                               (replace_all LT (units "&lt;") s))
                     ≤ 4 * length s)%nat); [|lia].
    clear Hlen. induction s as [|y s IH]; simpl; [lia|].
    destruct (y =? LT)%N eqn:Hy.
    + simpl. lia.
    + simpl. rewrite length_app. destruct (y =? GT)%N; simpl; lia.
  - intros Hlt Hgt. unfold parse_headerText.
    assert (Hlt' : LT ∉ take 200 (default [] x)).
    { intros Hin. apply Hlt. rewrite <- (take_drop 200 (default [] x)).
      apply elem_of_app. by left. }
    assert (Hgt' : GT ∉ take 200 (default [] x)).
    { intros Hin. apply Hgt. rewrite <- (take_drop 200 (default [] x)).
      apply elem_of_app. by left. }
    by rewrite (replace_all_id LT), (replace_all_id GT).
Qed.

(** * Further properties: subscribers that come late *)




(** * Further properties: the progress of a conversion to HTML *)

Lemma convertToHTML_run (w : collaborators) (md : text) (filename : string)
    (jobId : option string) (h : text) (s : state) :
  marked w md = Returns h →
  convertToHTML w md filename jobId s
  = (Returns (html_page w filename h),
     apply_updates jobId
       [(1, "Starting"); (5, "Parsing markdown"); (80, "Generating HTML");
        (95, "Finalizing")]%string s).
Proof.
  intros Hmarked. unfold convertToHTML, progress_msg, act, await.
  unfold mbind, M_bind, bind. cbn [processMermaidDiagrams String.eqb fst].
  unfold mbind, M_bind, bind, act. simpl. by rewrite Hmarked.
Qed.

(** A conversion to HTML that succeeds reports the same six updates and then
    Done at 100, whatever diagrams the document holds: no diagram is
    rendered and none is counted, and the range from 5 to 40 that the
    converter passes for the diagrams is never used. *)
Theorem html_conversion_progress (w : collaborators) (req : request)
    (f : upload) (s : state) (id : string) (md h : text) :
  file req = Some f → body_format req = "html"%string →
  body_jobId req = Some id → id ≠ ""%string →
  readFile w (path f) = Returns md → marked w md = Returns h →
  convert_handler w req s
  = (Returns (Attachment "text/html"
                (basename w (originalname f) +:+ ".html")
                (html_page w (basename w (originalname f)) h)),
     completeJob (Some id)
       (apply_updates (Some id) html_curve (initJob (Some id) s).2))
  ∧ ∀ l j r c,
      registered s id l j → r ∈ subscribers j →
      streams s !! r = Some c → live c →
      streams (convert_handler w req s).2 !! r
      = Some {| sent := sent c ++ events_of html_curve ++ [Data 100 "Done"];
                ended := false; broken := false |}.
Proof.
  intros Hf Hfmt Hjid Hid Hread Hmarked.
  assert (Hrun : convert_handler w req s
                 = (Returns (Attachment "text/html"
                               (basename w (originalname f) +:+ ".html")
                               (html_page w (basename w (originalname f)) h)),
                    completeJob (Some id)
                      (apply_updates (Some id) html_curve
                         (initJob (Some id) s).2))).
  { rewrite (convert_handler_run w req f s Hf ltac:(by rewrite Hfmt)).
    cbv zeta. rewrite Hfmt, Hjid, (or_null_Some id Hid), Hread.
    unfold converter. cbn [String.eqb Ascii.eqb Bool.eqb].
    rewrite (convertToHTML_run w md _ (Some id) h _ Hmarked).
    unfold html_curve, upload_received.
    rewrite (proj2 (truthy_Some id) Hid).
    reflexivity. }
  split; [exact Hrun|].
  intros l j r c Hreg Hr Hc Hlive. rewrite Hrun. cbn [snd].
  apply (completed_stream s id l j r c html_curve Hid); try done.
  unfold html_curve.
  repeat (apply Forall_cons; split; [simpl; split; [lia|done]|]).
  apply Forall_nil_2.
Qed.


(** ** The further properties at sample inputs *)

Lemma extract_sound_witness :
  extract two_diagrams !! 0%nat = Some first_diagram
  ∧ extract two_diagrams !! 1%nat = Some second_diagram
  ∧ (∃ b, original first_diagram = opener ++ b ++ fence
          ∧ closed_interior b
          ∧ code first_diagram = trim b
          ∧ (index first_diagram + length (original first_diagram)
             ≤ length two_diagrams)%nat
          ∧ take (length (original first_diagram))
              (drop (index first_diagram) two_diagrams)
            = original first_diagram)
  ∧ (index first_diagram + length (original first_diagram)
     ≤ index second_diagram)%nat.
Proof.
  assert (H0 : extract two_diagrams !! 0%nat = Some first_diagram)
    by (vm_compute; reflexivity).
  assert (H1 : extract two_diagrams !! 1%nat = Some second_diagram)
    by (vm_compute; reflexivity).
  split; [exact H0|]. split; [exact H1|].
  destruct (extract_sound two_diagrams) as [Hocc Hord].
  split.
  - exact (Hocc 0%nat first_diagram H0).
  - exact (Hord 0%nat 1%nat first_diagram second_diagram ltac:(lia) H0 H1).
Defined.

Lemma extract_nil_iff_witness :
  extract (units "A graph") = []
  ∧ ¬ ∃ g b rest, units "A graph" = g ++ opener ++ b ++ fence ++ rest.
Proof.
  assert (H : extract (units "A graph") = []) by (vm_compute; reflexivity).
  split; [exact H|].
  exact (proj1 (extract_nil_iff (units "A graph")) H).
Defined.

Lemma all_renders_fail_unchanged_witness :
  "pdf"%string ≠ "html"%string
  ∧ (∀ i d, extract two_diagrams !! i = Some d →
            ∃ e, renderMermaidToImage all_fail i (code d) = Throws e)
  ∧ processMermaidDiagrams all_fail two_diagrams "pdf" sample_options
      sample_state
    = (Returns two_diagrams, sample_state).
Proof.
  assert (Hfail : ∀ i d, extract two_diagrams !! i = Some d →
                         ∃ e, renderMermaidToImage all_fail i (code d)
                              = Throws e).
  { intros i d _. exists "render timeout"%string. reflexivity. }
  split; [discriminate|]. split; [exact Hfail|].
  apply (all_renders_fail_unchanged all_fail two_diagrams "pdf"
           sample_options sample_state ltac:(discriminate) Hfail).
Defined.

Lemma initJob_once_witness :
  "j1"%string ≠ ""%string
  ∧ jobs sample_state !! "j1"%string = Some 0%nat
  ∧ initJob (Some "j1"%string) sample_state = (Some 0%nat, sample_state)
  ∧ initJob None sample_state = (None, sample_state).
Proof.
  assert (Hl : jobs sample_state !! "j1"%string = Some 0%nat)
    by (vm_compute; reflexivity).
  split; [discriminate|]. split; [exact Hl|].
  destruct (initJob_once (Some "j1"%string) sample_state)
    as (_ & Hthere & _ & _).
  split.
  - exact (Hthere "j1"%string 0%nat eq_refl ltac:(discriminate) Hl).
  - apply (proj2 (proj2 (proj2 (initJob_once None sample_state)))).
    reflexivity.
Defined.

Lemma subscriber_gets_current_state_witness :
  "j1"%string ≠ ""%string
  ∧ registered sample_state "j1" 0%nat sample_job
  ∧ ∃ s', progress_endpoint "j1" 8%nat sample_state = Some s'
          ∧ streams s' !! 8%nat = Some sample_stream
          ∧ streams (updateProgress (Some "j1"%string) (inject_Z 5)
                       (Some "Reading file"%string) s') !! 8%nat
            = Some {| sent := [Retry 1500; Data 0 "Starting";
                               Data (clamp (inject_Z 5))
                                 (new_message (Some "Reading file"%string)
                                    "Starting")];
                      ended := false; broken := false |}.
Proof.
  assert (Hreg : registered sample_state "j1" 0%nat sample_job)
    by (split; vm_compute; reflexivity).
  split; [discriminate|]. split; [exact Hreg|].
  destruct (subscriber_gets_current_state sample_state "j1" 8%nat
              ltac:(discriminate)) as [Hthere _].
  destruct (Hthere 0%nat sample_job Hreg)
    as (s' & Hsub & Hstream & _ & _ & Hnext).
  exists s'. split; [exact Hsub|]. split; [exact Hstream|].
  exact (Hnext (inject_Z 5) (Some "Reading file"%string)).
Defined.

Lemma closed_client_gets_nothing_witness :
  "j1"%string ≠ ""%string
  ∧ registered sample_state "j1" 0%nat sample_job
  ∧ registered (on_close 0%nat 7%nat sample_state) "j1" 0%nat
      (set_subscribers (subscribers sample_job ∖ {[7%nat]}) sample_job)
  ∧ streams (updateProgress (Some "j1"%string) (inject_Z 5)
               (Some "Reading file"%string)
               (on_close 0%nat 7%nat sample_state)) !! 7%nat
    = streams (on_close 0%nat 7%nat sample_state) !! 7%nat.
Proof.
  assert (Hreg : registered sample_state "j1" 0%nat sample_job)
    by (split; vm_compute; reflexivity).
  split; [discriminate|]. split; [exact Hreg|].
  pose proof (closed_client_gets_nothing sample_state "j1" 0%nat sample_job
                7%nat ltac:(discriminate) Hreg) as H.
  cbv zeta in H. destruct H as (H1 & _ & H3 & _).
  split; [exact H1|].
  exact (H3 (inject_Z 5) (Some "Reading file"%string)).
Defined.

Lemma reachable_consistent_witness :
  reachable sample_state ∧ consistent sample_state.
Proof.
  assert (Hreach : reachable sample_state).
  { apply (reach_subscribe empty_state "j1" 7%nat sample_state reach_start).
    reflexivity. }
  split; [exact Hreach|].
  exact (reachable_consistent sample_state Hreach).
Defined.

Lemma sent_file_completes_job_witness :
  body_jobId pdf_request = Some "j1"%string
  ∧ "j1"%string ≠ ""%string
  ∧ registered sample_state "j1" 0%nat sample_job
  ∧ convert_handler first_fails pdf_request sample_state
    = (Returns (Attachment "application/pdf" "notes.md.pdf" sample_rewritten),
       (convert_handler first_fails pdf_request sample_state).2)
  ∧ ∃ l j',
      registered (convert_handler first_fails pdf_request sample_state).2
        "j1" l j'
      ∧ progress j' = 100 ∧ message j' = "Done"%string ∧ status j' = Done
      ∧ timers (convert_handler first_fails pdf_request sample_state).2
        = timers sample_state
          ++ [(now sample_state + 250, CloseSubscribers l "j1")].
Proof.
  assert (Hreg : registered sample_state "j1" 0%nat sample_job)
    by (split; vm_compute; reflexivity).
  assert (Hrun : convert_handler first_fails pdf_request sample_state
                 = (Returns (Attachment "application/pdf" "notes.md.pdf"
                               sample_rewritten),
                    (convert_handler first_fails pdf_request sample_state).2))
    by (vm_compute; reflexivity).
  split; [reflexivity|]. split; [discriminate|]. split; [exact Hreg|].
  split; [exact Hrun|].
  destruct (sent_file_completes_job first_fails pdf_request sample_state
              "j1" "application/pdf" "notes.md.pdf" sample_rewritten
              (convert_handler first_fails pdf_request sample_state).2
              eq_refl ltac:(discriminate)
              (or_intror (ex_intro _ 0%nat (ex_intro _ sample_job Hreg)))
              Hrun)
    as (l & j' & H1 & H2 & H3 & H4 & H5 & _).
  exists l, j'. split_and!; assumption.
Defined.

Lemma answer_independent_of_tracking_witness :
  file pdf_request = file docx_request
  ∧ (convert_handler first_fails pdf_request sample_state).1
    = (convert_handler first_fails
         {| file := file docx_request; body_format := "pdf";
            body_jobId := None |} empty_state).1
  ∧ (convert_handler first_fails
       {| file := file docx_request; body_format := "pdf";
          body_jobId := None |} sample_state).2
    = sample_state.
Proof.
  split; [reflexivity|]. split.
  - apply (proj1 (answer_independent_of_tracking first_fails pdf_request
                    {| file := file docx_request; body_format := "pdf";
                       body_jobId := None |} sample_state empty_state));
      reflexivity.
  - apply (proj2 (answer_independent_of_tracking first_fails
                    {| file := file docx_request; body_format := "pdf";
                       body_jobId := None |}
                    pdf_request sample_state sample_state)).
    reflexivity.
Defined.

Lemma pdf_conversion_progress_witness :
  file pdf_request = Some sample_upload
  ∧ readFile first_fails (path sample_upload) = Returns two_diagrams
  ∧ registered sample_state "j1" 0%nat sample_job
  ∧ streams sample_state !! 7%nat = Some sample_stream
  ∧ convert_handler first_fails pdf_request sample_state
    = (Returns (Attachment "application/pdf"
                  (basename first_fails (originalname sample_upload)
                   +:+ ".pdf") sample_rewritten),
       completeJob (Some "j1"%string)
         (apply_updates (Some "j1"%string)
            (pdf_curve first_fails (Some "j1"%string) two_diagrams)
            (initJob (Some "j1"%string) sample_state).2))
  ∧ streams (convert_handler first_fails pdf_request sample_state).2 !! 7%nat
    = Some {| sent := sent sample_stream
                      ++ events_of (pdf_curve first_fails (Some "j1"%string)
                                      two_diagrams)
                      ++ [Data 100 "Done"];
              ended := false; broken := false |}.
Proof.
  assert (Hreg : registered sample_state "j1" 0%nat sample_job)
    by (split; vm_compute; reflexivity).
  assert (Hc : streams sample_state !! 7%nat = Some sample_stream)
    by (vm_compute; reflexivity).
  assert (Hr : 7%nat ∈ subscribers sample_job)
    by (apply (proj2 (elem_of_singleton 7%nat 7%nat)); reflexivity).
  split; [reflexivity|]. split; [reflexivity|]. split; [exact Hreg|].
  split; [exact Hc|].
  destruct (pdf_conversion_progress first_fails pdf_request sample_upload
              sample_state "j1" two_diagrams sample_rewritten
              sample_rewritten eq_refl eq_refl eq_refl ltac:(discriminate)
              eq_refl ltac:(vm_compute; reflexivity) eq_refl eq_refl eq_refl
              eq_refl) as [Hrun Hstream].
  split; [exact Hrun|].
  exact (Hstream 0%nat sample_job 7%nat sample_stream Hreg Hr Hc
           (conj eq_refl eq_refl)).
Defined.

Lemma pdf_progress_monotone_witness :
  file pdf_request = Some sample_upload
  ∧ registered sample_state "j1" 0%nat sample_job
  ∧ streams sample_state !! 7%nat = Some sample_stream
  ∧ ∃ evs c',
      streams (convert_handler first_fails pdf_request sample_state).2
        !! 7%nat = Some c'
      ∧ sent c' = sent sample_stream
                  ++ Data 1 "Upload received" :: Data 5 "Reading file"
                     :: Data 1 "Starting" :: evs
      ∧ StronglySorted Z.le (1 :: progress_values evs)
      ∧ last evs = Some (Data 100 "Done").
Proof.
  assert (Hreg : registered sample_state "j1" 0%nat sample_job)
    by (split; vm_compute; reflexivity).
  assert (Hc : streams sample_state !! 7%nat = Some sample_stream)
    by (vm_compute; reflexivity).
  assert (Hr : 7%nat ∈ subscribers sample_job)
    by (apply (proj2 (elem_of_singleton 7%nat 7%nat)); reflexivity).
  split; [reflexivity|]. split; [exact Hreg|]. split; [exact Hc|].
  exact (pdf_progress_monotone first_fails pdf_request sample_upload
           sample_state "j1" two_diagrams sample_rewritten sample_rewritten
           0%nat sample_job 7%nat sample_stream
           eq_refl eq_refl eq_refl ltac:(discriminate)
           eq_refl ltac:(vm_compute; reflexivity) eq_refl eq_refl eq_refl
           eq_refl Hreg Hr Hc (conj eq_refl eq_refl)).
Defined.

Lemma header_text_holds_no_tag_witness :
  parse_headerText (Some (units "<b>Q3</b>")) ≠ []
  ∧ headerStr (parse_headerText (Some (units "<b>Q3</b>"))) (units "notes")
    = units "<b>Q3</b>" ≫= escaped_unit
  ∧ units "<b>Q3</b>" ≫= escaped_unit = units "&lt;b&gt;Q3&lt;/b&gt;"
  ∧ (LT ∉ headerStr (parse_headerText (Some (units "<b>Q3</b>")))
            (units "notes"))
  ∧ (GT ∉ headerStr (parse_headerText (Some (units "<b>Q3</b>")))
            (units "notes"))
  ∧ parse_headerText None = []
  ∧ headerStr (parse_headerText None) (units "notes") = units "notes".
Proof.
  assert (Hne : parse_headerText (Some (units "<b>Q3</b>")) ≠ [])
    by (vm_compute; discriminate).
  split; [exact Hne|].
  destruct (proj2 (header_text_holds_no_tag (Some (units "<b>Q3</b>"))
                     (units "notes")) Hne) as (H0 & H1 & H2 & _).
  split; [exact H0|]. split; [vm_compute; reflexivity|].
  split; [exact H1|]. split; [exact H2|]. split; [reflexivity|].
  exact (proj1 (header_text_holds_no_tag None (units "notes")) eq_refl).
Defined.


Lemma html_conversion_progress_witness :
  file html_request = Some sample_upload
  ∧ registered sample_state "j1" 0%nat sample_job
  ∧ streams sample_state !! 7%nat = Some sample_stream
  ∧ convert_handler first_fails html_request sample_state
    = (Returns (Attachment "text/html"
                  (basename first_fails (originalname sample_upload)
                   +:+ ".html")
                  (html_page first_fails
                     (basename first_fails (originalname sample_upload))
                     two_diagrams)),
       completeJob (Some "j1"%string)
         (apply_updates (Some "j1"%string) html_curve
            (initJob (Some "j1"%string) sample_state).2))
  ∧ streams (convert_handler first_fails html_request sample_state).2 !! 7%nat
    = Some {| sent := sent sample_stream ++ events_of html_curve
                      ++ [Data 100 "Done"];
              ended := false; broken := false |}.
Proof.
  assert (Hreg : registered sample_state "j1" 0%nat sample_job)
    by (split; vm_compute; reflexivity).
  assert (Hc : streams sample_state !! 7%nat = Some sample_stream)
    by (vm_compute; reflexivity).
  assert (Hr : 7%nat ∈ subscribers sample_job)
    by (apply (proj2 (elem_of_singleton 7%nat 7%nat)); reflexivity).
  split; [reflexivity|]. split; [exact Hreg|]. split; [exact Hc|].
  destruct (html_conversion_progress first_fails html_request sample_upload
              sample_state "j1" two_diagrams two_diagrams
              eq_refl eq_refl eq_refl ltac:(discriminate) eq_refl eq_refl)
    as [Hrun Hstream].
  split; [exact Hrun|].
  exact (Hstream 0%nat sample_job 7%nat sample_stream Hreg Hr Hc
           (conj eq_refl eq_refl)).
Defined.
